(** * RosterLogic workforce engine: resolver, decision matrix, rule index
      and entitlement ledger

    A shallow embedding of the engine
    ([src/Engine/Resolver.js], [src/Engine/Rules.js],
    [src/Engine/WorkspaceProcessor.js], [src/Engine/Ledger.js],
    [src/Utils/Helpers.js], [src/Utils/SchemaValidator.js],
    [src/Utils/Validation.js], [src/Utils/Logger.js], [src/Config.js])
    together with the properties stated about it.

    Conventions of the embedding.
    - JavaScript strings are [string]s of code units; the string primitives
      ([toUpperCase], [trim], ...) are given for the ASCII range.
    - A spreadsheet cell is a [Cell]: text, an integer number, a date (an
      instant, in epoch milliseconds) or [undefined] (a read outside the row
      or through a missing header). A number is one that [String] prints in
      full (an integer of magnitude below 10^21), and a rule's id is a text,
      as the [Rule] type documents it.
    - What the Apps Script host provides and the repository does not define
      ([Utilities.formatDate], date parsing, number parsing, the rendering of
      a date, the collation behind [localeCompare], the text of the host's
      own exceptions) is collected in the class [Host]. [localeCompare] is
      any consistent comparison that orders all strings, which is what the
      language asks of it; in particular it may report two strings that
      differ as equal.
    - A sheet is its header row and its data rows; [getDataRange().getValues()]
      never returns an empty array, so the header row always exists. A tab
      with no content is a sheet none of whose cells has content; its
      [getLastColumn()] is 0, and otherwise [getLastColumn()] is the width
      of the data range. What is written to a sheet is what is read back
      from it.
    - [CONFIG.isDryRun] is an argument of the two ledger functions, and a
      missing sheet is [None].
    - [Array.prototype.sort] is the stable sort by the comparator.
    - A spreadsheet file is the map of its tabs by name. A call that can
      throw ends in a [Completion]; the log buffer is threaded through the
      calls that write to it, and every [new Date()] is an argument.

    Part I is the program, module by source file, followed by the
    vocabulary of the statements and by sample data; Part II is the
    properties, each claim under its id; Part III is further properties of
    the code, numbered X1, X2, ... *)

From Stdlib Require Import ZArith Ascii.
From Stdlib Require String QArith.
From stdpp Require Import gmap strings list pretty sorting.

Local Open Scope Z_scope.

(* stdpp's solvers clear hypotheses they have already consumed *)
#[local] Set Warnings "-clear-no-such-hyp".

(* ===================================================================== *)
(** * Part I: the program                                                 *)
(* ===================================================================== *)

(** ** JavaScript string primitives *)

Module Js.

Definition upperChar (c : ascii) : ascii :=
  let n := N_of_ascii c in
  if ((97 <=? n) && (n <=? 122))%N then ascii_of_N (n - 32) else c.

Definition lowerChar (c : ascii) : ascii :=
  let n := N_of_ascii c in
  if ((65 <=? n) && (n <=? 90))%N then ascii_of_N (n + 32) else c.

Fixpoint mapChars (f : ascii → ascii) (s : string) : string :=
  match s with
  | EmptyString => EmptyString
  | String c s' => String (f c) (mapChars f s')
  end.

Definition toUpperCase : string → string := mapChars upperChar.
Definition toLowerCase : string → string := mapChars lowerChar.

Fixpoint trimStart (s : string) : string :=
  match s with
  | EmptyString => EmptyString
  | String c s' => if Ascii.is_space c then trimStart s' else s
  end.

Definition trimEnd (s : string) : string :=
  String.rev (trimStart (String.rev s)).

Definition trim (s : string) : string := trimEnd (trimStart s).

(** [s.includes(sub)] *)
Fixpoint includes (s sub : string) : bool :=
  String.prefix sub s ||
  match s with
  | EmptyString => false
  | String _ s' => includes s' sub
  end.

(** [s.substring(0, n)] *)
Definition substring0 (n : nat) (s : string) : string :=
  String.substring 0 n s.

(** [a <= b] on strings *)
Definition le (a b : string) : bool := String.leb a b.

(** [parts.join(sep)] *)
Definition join (sep : string) (parts : list string) : string :=
  String.concat sep parts.

End Js.

(** ** Cells, the host, and [Utils/Helpers.js] *)

Definition Date := Z.

Inductive Cell :=
| CStr (s : string)
| CNum (n : Z)
| CDate (d : Date)
| CUndefined.

Global Instance Cell_eq_dec : EqDecision Cell.
Proof. solve_decision. Defined.

Class Host := {
  (** [Utilities.formatDate(d, tz, "yyyy-MM-dd")] *)
  formatDate : Date → string;
  (** [new Date(text)], [None] when the result is an invalid date *)
  parseDateText : string → option Date;
  (** [String(d)] for a date *)
  dateToString : Date → string;
  (** [Number(text)], [None] for [NaN] *)
  numberOfText : string → option Z;
  (** [a.localeCompare(b)], negative, zero or positive, in the collation of
      the script's locale. It is a consistent comparison that orders all
      strings; two strings that differ can compare as equal. *)
  localeCompare : string → string → Z;
  localeCompare_flip : ∀ a b, localeCompare a b < 0 ↔ 0 < localeCompare b a;
  localeCompare_trans : ∀ a b c,
    localeCompare a b <= 0 → localeCompare b c <= 0 → localeCompare a c <= 0;
  (** The message of the exception [getRange] throws when it is asked for a
      range of no columns *)
  noColumnsMessage : string
}.

Module Helpers.
Section WithHost.
Context `{!Host}.

(** JavaScript truthiness of a cell value *)
Definition truthy (c : Cell) : bool :=
  match c with
  | CStr s => negb (bool_decide (s = ""))
  | CNum n => negb (bool_decide (n = 0))
  | CDate _ => true
  | CUndefined => false
  end.

(** [String(v)] *)
Definition toStr (c : Cell) : string :=
  match c with
  | CStr s => s
  | CNum n => pretty n
  | CDate d => dateToString d
  | CUndefined => "undefined"
  end.

(** [String(v || dflt)] *)
Definition toStrOr (dflt : string) (c : Cell) : string :=
  if truthy c then toStr c else dflt.

(** [Number(v) || 0] *)
Definition toNumberOr0 (c : Cell) : Z :=
  match c with
  | CStr s => default 0 (numberOfText s)
  | CNum n => n
  | CDate d => d
  | CUndefined => 0
  end.

(** [row[i]], where [i] is the result of [h.get(name)] *)
Definition cellAt (row : list Cell) (i : option nat) : Cell :=
  match i with
  | Some i => default CUndefined (row !! i)
  | None => CUndefined
  end.

Definition normalizeDay (d : string) : string :=
  if bool_decide (d = "") then ""
  else Js.substring0 3 (Js.toUpperCase d).

Definition parseSafeDate (v : Cell) : option Date :=
  match v with
  | CDate d => Some d
  | CStr s => if bool_decide (s = "") then None else parseDateText s
  | CNum n =>
      if bool_decide (n = 0) then None
      else if bool_decide (-8640000000000000 <= n <= 8640000000000000)
           then Some n else None
  | CUndefined => None
  end.

(** [mapHeaders]: a later column with the same normalised name overrides
    an earlier one *)
Fixpoint mapHeadersFrom (i : nat) (r : list Cell) (m : gmap string nat)
  : gmap string nat :=
  match r with
  | [] => m
  | v :: r' =>
      mapHeadersFrom (S i) r'
        (<[Js.toLowerCase (Js.trim (toStr v)) := i]> m)
  end.

Definition mapHeaders (r : list Cell) : gmap string nat :=
  mapHeadersFrom 0 r ∅.

Definition checkMatch (c v : string) : bool :=
  let c := Js.trim (Js.toUpperCase c) in
  let v := Js.trim (Js.toUpperCase v) in
  if bool_decide (c = "ANY" ∨ c = "IGNORED") then true
  else if bool_decide (c = "COMP_DAY" ∧ (v = "COMP_DAY" ∨ v = "OFF")) then true
  else if bool_decide (c = "LEAVE" ∧ v = "LEAVE") then true
  else bool_decide (c = v).

End WithHost.
End Helpers.

(** A sheet as read by [getDataRange().getValues()] *)
Record Sheet := {
  header : list Cell;
  body : list (list Cell)
}.


(** ** [Engine/Resolver.js] *)

Module Resolver.

Record Employee := {
  emp_id : string;
  display : string;
  baseShift : string;
  emp_wo1 : string;
  emp_wo2 : string
}.

Record DayMeta := {
  obj : Date;
  str : string;
  day : string
}.

(** A rule. The text fields hold the cell's text, with every falsy value
    (an empty or missing cell) as the empty string: the resolver reads them
    only through [x || ""], [!x] and [x ? .. : ""]. *)
Record Rule := {
  rule_id : string;
  rule_type : string;
  start : string;
  end_ : string;
  shift : string;
  wo1 : string;
  wo2 : string;
  freq : string;
  prio : Z
}.

Record DecisionMatrixRow := {
  row_base : string;
  row_rule : string;
  row_ph : string;
  row_req : string;
  row_finalStatus : string;
  row_action : string;
  row_reason : string
}.

Record LedgerState := { status : string }.

Record EngineContext := {
  mapping : gmap string string;
  matrixIndex : gmap string (list DecisionMatrixRow);
  ledger : gmap string LedgerState;
  leaves : gmap string string;
  rules : gmap string (list Rule);
  holidays : gset string
}.

(** The 14 columns of the audit row, named as in the output sheet's header
    ([writeDailyOutput]). *)
Record AuditRow := {
  Key : string;
  Employee_Name : string;
  Date_Obj : Date;
  Base_Status : string;
  Base_Shift : string;
  Rule_Input : string;
  Leave_Input : string;
  PH_Input : string;
  Entitlement_Input : string;
  Final_Status : string;
  Final_Shift : string;
  Reason : string;
  Note : string;
  Final_Val : QArith_base.Q
}.

Record Resolution := {
  row : AuditRow;
  entitlementAction : string;
  finalStatus : string
}.

Global Instance Rule_eq_dec : EqDecision Rule.
Proof. solve_decision. Defined.

Definition val_0 : QArith_base.Q := QArith_base.Qmake 0 1.
Definition val_half : QArith_base.Q := QArith_base.Qmake 1 2.
Definition val_1 : QArith_base.Q := QArith_base.Qmake 1 1.

(** The accumulator [{ prio: -1, id: '' }] the fold starts from; its other
    fields are [undefined]. *)
Definition emptyRule : Rule :=
  {| rule_id := ""; rule_type := ""; start := ""; end_ := ""; shift := "";
     wo1 := ""; wo2 := ""; freq := ""; prio := -1 |}.

Section WithHost.
Context `{!Host}.

(** The callback of the [.reduce] in [findWinningRule] *)
Definition pickWinner (prev curr : Rule) : Rule :=
  if bool_decide (prio prev = -1) then curr
  else if bool_decide (prio curr > prio prev) then curr
  else if bool_decide (prio curr = prio prev) &&
          bool_decide (localeCompare (rule_id curr) (rule_id prev) > 0)
       then curr
  else prev.

Definition findWinningRule (rules : list Rule) (type : string) : Rule :=
  foldl pickWinner emptyRule (filter (λ r, rule_type r = type) rules).

Definition audit_inputs (r : Rule) : bool :=
  if bool_decide (rule_type r = "SHIFT_OVERRIDE") &&
     (bool_decide (shift r = "") || bool_decide (Js.trim (shift r) = ""))
  then false
  else if bool_decide (rule_type r = "DAY_PATTERN") then true
  else true.

(** The predicate of the [rules.filter] that selects the active rules *)
Definition isActive (meta : DayMeta) (r : Rule) : bool :=
  Js.le (start r) (str meta) && Js.le (str meta) (end_ r) &&
  (bool_decide (freq r = "ALL") || Js.includes (freq r) (day meta)) &&
  audit_inputs r.

Definition activeRulesOf (meta : DayMeta) (rules : list Rule) : list Rule :=
  filter (λ r, isActive meta r = true) rules.

(** The mutable locals of [resolveEmployeeDay] *)
Record DayState := {
  isWorkDay : bool;
  currentShift : string;
  trace : list string
}.

Definition flagOf (b : bool) : string := if b then "WORK" else "OFF".

Definition baseIsWorkOf (emp : Employee) (meta : DayMeta) : bool :=
  let baseOff :=
    bool_decide (day meta = emp_wo1 emp) || bool_decide (day meta = emp_wo2 emp) in
  negb baseOff && negb (bool_decide (baseShift emp = "OFF")).

(** 1. Establish Base State *)
Definition baseState (emp : Employee) (meta : DayMeta) : DayState :=
  let baseIsWork := baseIsWorkOf emp meta in
  let currentShift := if baseIsWork then baseShift emp else "OFF" in
  {| isWorkDay := baseIsWork;
     currentShift := currentShift;
     trace := ["[BASE:" +:+ flagOf baseIsWork +:+ ":" +:+ currentShift +:+ "]"] |}.

(** [String(x || "").toUpperCase().trim()] *)
Definition shiftText (s : string) : string := Js.trim (Js.toUpperCase s).

(** PASS 1: DAY_PATTERN rules *)
Definition pass1 (emp : Employee) (meta : DayMeta) (activeRules : list Rule)
    (st : DayState) : DayState :=
  let winningWO := findWinningRule activeRules "DAY_PATTERN" in
  if bool_decide (rule_id winningWO = "") then st
  else
    let isRuleOff :=
      bool_decide (day meta = Helpers.normalizeDay (wo1 winningWO)) ||
      bool_decide (day meta = Helpers.normalizeDay (wo2 winningWO)) in
    let st1 :=
      if isRuleOff then
        {| isWorkDay := false; currentShift := "OFF"; trace := trace st |}
      else
        let ruleShiftStr := shiftText (shift winningWO) in
        let isInvalidShift :=
          bool_decide (ruleShiftStr = "OFF") || bool_decide (ruleShiftStr = "") in
        if negb isInvalidShift then
          {| isWorkDay := true; currentShift := shift winningWO;
             trace := trace st |}
        else if bool_decide (currentShift st = "OFF") then
          {| isWorkDay := true;
             currentShift :=
               if negb (bool_decide (baseShift emp = "OFF"))
               then baseShift emp else "09:00 - 18:00";
             trace := trace st ++ ["[FIX:AppliedFallback]"] |}
        else
          {| isWorkDay := true; currentShift := currentShift st;
             trace := trace st |} in
    {| isWorkDay := isWorkDay st1;
       currentShift := currentShift st1;
       trace := trace st1 ++
         ["[DAY_PATTERN:" +:+ rule_id winningWO +:+ ":" +:+ currentShift st1
            +:+ ":P" +:+ pretty (prio winningWO) +:+ "]"] |}.

(** PASS 2: SHIFT_OVERRIDE rules *)
Definition pass2 (emp : Employee) (activeRules : list Rule) (st : DayState)
    : DayState :=
  if isWorkDay st then
    let winningSHIFT := findWinningRule activeRules "SHIFT_OVERRIDE" in
    if bool_decide (rule_id winningSHIFT = "") then st
    else
      let sShift := shiftText (shift winningSHIFT) in
      if negb (bool_decide (sShift = "OFF")) && negb (bool_decide (sShift = ""))
      then
        {| isWorkDay := isWorkDay st;
           currentShift := shift winningSHIFT;
           trace := trace st ++
             ["[SHIFT:" +:+ rule_id winningSHIFT +:+ ":" +:+ shift winningSHIFT
                +:+ ":P" +:+ pretty (prio winningSHIFT) +:+ "]"] |}
      else
        {| isWorkDay := isWorkDay st;
           currentShift := baseShift emp;
           trace := trace st ++
             ["[SHIFT:FALLBACK_BASE:" +:+ rule_id winningSHIFT +:+ "]"] |}
  else st.

Definition dquote : string := String (ascii_of_nat 34) EmptyString.

Definition verifyShiftOverride (isWorkDay : bool) (finalShift : string)
    (activeRules : list Rule) : option string :=
  if negb isWorkDay then None
  else
    let winningSHIFT := findWinningRule activeRules "SHIFT_OVERRIDE" in
    if negb (bool_decide (rule_id winningSHIFT = "")) &&
       negb (bool_decide (shift winningSHIFT = ""))
    then
      if negb (bool_decide (finalShift = shift winningSHIFT)) &&
         negb (bool_decide (finalShift = "LEAVE")) &&
         negb (bool_decide (finalShift = "COMP_DAY")) &&
         negb (bool_decide (finalShift = "OFF"))
      then Some ("⚠️ AUDIT FAIL: Exp " +:+ dquote +:+ shift winningSHIFT
                   +:+ dquote +:+ " (Rule " +:+ rule_id winningSHIFT
                   +:+ ") but got " +:+ dquote +:+ finalShift +:+ dquote)
      else None
    else None.

Definition createErrorRow (emp : Employee) (meta : DayMeta)
    (b bs r l p po err : string) : AuditRow :=
  {| Key := emp_id emp +:+ "|" +:+ str meta;
     Employee_Name := display emp;
     Date_Obj := obj meta;
     Base_Status := b;
     Base_Shift := bs;
     Rule_Input := r;
     Leave_Input := l;
     PH_Input := p;
     Entitlement_Input := po;
     Final_Status := "ERROR";
     Final_Shift := "";
     Reason := err;
     Note := "ERROR_TRACE";
     Final_Val := val_0 |}.

(** The four flags the decision matrix is looked up with *)
Record Flags := {
  baseFlag : string;
  ruleFlag : string;
  holidayFlag : string;
  reqFlag : string
}.

Definition flagsKey (f : Flags) : string :=
  baseFlag f +:+ "|" +:+ ruleFlag f +:+ "|" +:+ holidayFlag f +:+ "|" +:+ reqFlag f.

Definition rowMatches (f : Flags) (r : DecisionMatrixRow) : bool :=
  Helpers.checkMatch (row_base r) (baseFlag f) &&
  Helpers.checkMatch (row_rule r) (ruleFlag f) &&
  Helpers.checkMatch (row_ph r) (holidayFlag f) &&
  Helpers.checkMatch (row_req r) (reqFlag f).

(** The bucket lookup and the scan for the first matching row *)
Definition lookupMatrix (index : gmap string (list DecisionMatrixRow))
    (f : Flags) : option DecisionMatrixRow :=
  let bucket := default [] (index !! flagsKey f) in
  List.find (rowMatches f) bucket.

(** Leave input: the request flag and the leave column *)
Definition leaveInput (ctx : EngineContext) (key : string) : string * string :=
  match leaves ctx !! key with
  | Some lv => if bool_decide (lv = "") then ("NONE", "NONE") else ("LEAVE", lv)
  | None => ("NONE", "NONE")
  end.

(** Entitlement input: the request flag (given the one from the leave input)
    and the entitlement column *)
Definition entitlementInput (ctx : EngineContext) (key reqFlag : string)
    : string * string :=
  match ledger ctx !! key with
  | Some led =>
      if bool_decide (status led = "COMP_DAY") || bool_decide (status led = "OFF")
      then (if bool_decide (reqFlag = "NONE") then "COMP_DAY" else reqFlag,
            status led)
      else (reqFlag, "NONE")
  | None => (reqFlag, "NONE")
  end.

Definition flagsOf (emp : Employee) (meta : DayMeta) (ctx : EngineContext)
    (st : DayState) : Flags :=
  let key := emp_id emp +:+ "|" +:+ str meta in
  let derivedFlag := flagOf (isWorkDay st) in
  let baseFlag := flagOf (baseIsWorkOf emp meta) in
  {| baseFlag := baseFlag;
     ruleFlag := if bool_decide (derivedFlag = baseFlag) then "NONE" else derivedFlag;
     holidayFlag := if bool_decide (str meta ∈ holidays ctx) then "TRUE" else "FALSE";
     reqFlag := (entitlementInput ctx key (leaveInput ctx key).1).1 |}.

Definition resolveEmployeeDay (emp : Employee) (meta : DayMeta)
    (ctx : EngineContext) (rules : list Rule) : Resolution :=
  let key := emp_id emp +:+ "|" +:+ str meta in
  let baseIsWork := baseIsWorkOf emp meta in
  let activeRules := activeRulesOf meta rules in
  let st := pass2 emp activeRules (pass1 emp meta activeRules (baseState emp meta)) in
  let f := flagsOf emp meta ctx st in
  let leave := (leaveInput ctx key).2 in
  let entitlement := (entitlementInput ctx key (leaveInput ctx key).1).2 in
  match lookupMatrix (matrixIndex ctx) f with
  | None =>
      {| row := createErrorRow emp meta (baseFlag f)
                  (if baseIsWork then baseShift emp else "OFF")
                  (currentShift st) leave (holidayFlag f) entitlement
                  "Missing Logic";
         entitlementAction := "NONE";
         finalStatus := "ERROR" |}
  | Some match_ =>
      let finalStatus :=
        if bool_decide (row_finalStatus match_ = "LEAVE") then leave
        else row_finalStatus match_ in
      let '(finalShift, finalVal) :=
        if bool_decide (finalStatus = "WORK") then
          (currentShift st,
           if bool_decide (currentShift st = "HAL1") ||
              bool_decide (currentShift st = "HAL2")
           then val_half else val_1)
        else if bool_decide (finalStatus = "COMP_DAY") then ("OFF", val_1)
        else ("OFF", val_0) in
      let auditErr := verifyShiftOverride (isWorkDay st) finalShift activeRules in
      let reasonOut := default (row_reason match_) auditErr in
      {| row :=
           {| Key := key;
              Employee_Name := display emp;
              Date_Obj := obj meta;
              Base_Status := baseFlag f;
              Base_Shift := if baseIsWork then baseShift emp else "OFF";
              Rule_Input := currentShift st;
              Leave_Input := leave;
              PH_Input := holidayFlag f;
              Entitlement_Input := entitlement;
              Final_Status := finalStatus;
              Final_Shift := finalShift;
              Reason := reasonOut;
              Note := Js.join " | " (trace st);
              Final_Val := finalVal |};
         entitlementAction := row_action match_;
         finalStatus := finalStatus |}
  end.

End WithHost.
End Resolver.


(** ** [Config.js]: the header names the engine reads *)

Module Config.

Definition rules_id : string := "Rule_ID".
Definition rules_employee : string := "Employee_ID".
Definition rules_type : string := "Rule_Type".
Definition rules_start : string := "Start_Date".
Definition rules_end : string := "End_Date".
Definition rules_shift : string := "Shift_Value".
Definition rules_wo1 : string := "Primary_Off_Day".
Definition rules_wo2 : string := "Secondary_Off_Day".
Definition rules_freq : string := "Frequency".
Definition rules_status : string := "Approval_Status".
Definition rules_prio : string := "Priority".

Definition decision_base : string := "Base_Schedule".
Definition decision_rule : string := "Rule_Impact".
Definition decision_ph : string := "Holiday_Flag".
Definition decision_req : string := "Request_Type".
Definition decision_final : string := "Final_Status".
Definition decision_action : string := "Entitlement_Action".
Definition decision_reason : string := "Decision_Reason".

Definition ledger_employee : string := "Employee_ID".
Definition ledger_entitlementDate : string := "Entitlement_Date".
Definition ledger_activation : string := "Activation_Status".
Definition ledger_entitlement : string := "Entitlement_Type".
Definition ledger_scriptNote : string := "System_Note".

End Config.

(** ** [Engine/WorkspaceProcessor.js]: the decision-matrix index built by
       [loadContext] *)

Module WorkspaceProcessor.
Import Resolver.
Section WithHost.
Context `{!Host}.

(** [h.get(name.toLowerCase())] *)
Definition col (h : gmap string nat) (name : string) : option nat :=
  h !! Js.toLowerCase name.

(** One data row of the Decision_Matrix sheet; a row whose base cell is
    falsy is skipped. *)
Definition parseDecisionRow (h : gmap string nat) (r : list Cell)
    : option DecisionMatrixRow :=
  if negb (Helpers.truthy (Helpers.cellAt r (col h Config.decision_base))) then None
  else Some
    {| row_base := Js.toUpperCase (Helpers.toStr (Helpers.cellAt r (col h Config.decision_base)));
       row_rule := Js.toUpperCase (Helpers.toStr (Helpers.cellAt r (col h Config.decision_rule)));
       row_ph := Js.toUpperCase (Helpers.toStr (Helpers.cellAt r (col h Config.decision_ph)));
       row_req := Js.toUpperCase (Helpers.toStrOr "NONE" (Helpers.cellAt r (col h Config.decision_req)));
       row_finalStatus := Js.toUpperCase (Helpers.toStr (Helpers.cellAt r (col h Config.decision_final)));
       row_action := Js.toUpperCase (Helpers.toStr (Helpers.cellAt r (col h Config.decision_action)));
       row_reason := Helpers.toStr (Helpers.cellAt r (col h Config.decision_reason)) |}.

End WithHost.

Definition isWildcard (s : string) : bool :=
  bool_decide (s = "ANY") || bool_decide (s = "IGNORED").

Definition bases (row : DecisionMatrixRow) : list string :=
  if isWildcard (row_base row) then ["WORK"; "OFF"] else [row_base row].
Definition ruleImpacts (row : DecisionMatrixRow) : list string :=
  if isWildcard (row_rule row) then ["WORK"; "OFF"; "NONE"] else [row_rule row].
Definition phs (row : DecisionMatrixRow) : list string :=
  if isWildcard (row_ph row) then ["TRUE"; "FALSE"] else [row_ph row].
Definition reqs (row : DecisionMatrixRow) : list string :=
  if isWildcard (row_req row) then ["NONE"; "COMP_DAY"; "LEAVE"] else [row_req row].

(** The keys of the four nested [for] loops, in iteration order *)
Definition expandKeys (row : DecisionMatrixRow) : list string :=
  b ← bases row; r ← ruleImpacts row; p ← phs row; q ← reqs row;
  [b +:+ "|" +:+ r +:+ "|" +:+ p +:+ "|" +:+ q].

(** [if (!matrixIndex.has(k)) matrixIndex.set(k, []);
     matrixIndex.get(k).push(row)] *)
Definition pushRow (row : DecisionMatrixRow)
    (m : gmap string (list DecisionMatrixRow)) (k : string)
    : gmap string (list DecisionMatrixRow) :=
  <[k := default [] (m !! k) ++ [row]]> m.

Definition indexRow (m : gmap string (list DecisionMatrixRow))
    (row : DecisionMatrixRow) : gmap string (list DecisionMatrixRow) :=
  foldl (pushRow row) m (expandKeys row).

(** The index over the parsed rows, in source order *)
Definition buildMatrixIndex (rows : list DecisionMatrixRow)
    : gmap string (list DecisionMatrixRow) :=
  foldl indexRow ∅ rows.

(** Section "2. Decision Logic" of [loadContext] *)
Definition loadMatrixIndex `{!Host} (sh : Sheet)
    : gmap string (list DecisionMatrixRow) :=
  buildMatrixIndex (omap (parseDecisionRow (Helpers.mapHeaders (header sh))) (body sh)).

End WorkspaceProcessor.

(** ** [Engine/Rules.js] *)

Module Rules.
Import Resolver.

(** The comparator handed to [rulesArray.sort] *)
Definition compareRules `{!Host} (a b : Rule) : Z :=
  let typeA := if bool_decide (rule_type a = "DAY_PATTERN") then 0 else 1 in
  let typeB := if bool_decide (rule_type b = "DAY_PATTERN") then 0 else 1 in
  if negb (bool_decide (typeA = typeB)) then typeA - typeB
  else
    let freqA := if negb (bool_decide (freq a = "ALL")) then 0 else 1 in
    let freqB := if negb (bool_decide (freq b = "ALL")) then 0 else 1 in
    if negb (bool_decide (freqA = freqB)) then freqA - freqB
    else if negb (bool_decide (prio a = prio b)) then prio b - prio a
    else localeCompare (rule_id a) (rule_id b).

(** [Array.prototype.sort] is stable; for a comparator that is a total
    preorder its result is the stable sorted permutation, computed here by
    insertion. *)
Fixpoint insertBy {A} (cmp : A → A → Z) (x : A) (l : list A) : list A :=
  match l with
  | [] => [x]
  | y :: l' => if bool_decide (cmp x y <= 0) then x :: l else y :: insertBy cmp x l'
  end.

Definition sortBy {A} (cmp : A → A → Z) (l : list A) : list A :=
  foldr (insertBy cmp) [] l.

Section WithHost.
Context `{!Host}.

(** The text of a raw cell kept in a rule, falsy values as the empty string *)
Definition cellText (c : Cell) : string := Helpers.toStrOr "" c.

(** One row of the Schedule_Rules sheet: the employee it is filed under and
    the rule, when the row is approved and has an employee and a start date *)
Definition parseRuleRow (h : gmap string nat) (r : list Cell)
    : option (string * Rule) :=
  let cell name := Helpers.cellAt r (WorkspaceProcessor.col h name) in
  if Js.includes (Js.toUpperCase (Helpers.toStr (cell Config.rules_status))) "APPROVED"
  then
    let employee := Js.toLowerCase (Js.trim (Helpers.toStr (cell Config.rules_employee))) in
    match Helpers.parseSafeDate (cell Config.rules_start) with
    | Some st =>
        if bool_decide (employee = "") then None
        else Some (employee,
          {| rule_id := cellText (cell Config.rules_id);
             rule_type := Js.trim (Js.toUpperCase
                            (Helpers.toStrOr "SHIFT_OVERRIDE" (cell Config.rules_type)));
             start := formatDate st;
             end_ := formatDate (default st (Helpers.parseSafeDate (cell Config.rules_end)));
             shift := cellText (cell Config.rules_shift);
             wo1 := cellText (cell Config.rules_wo1);
             wo2 := cellText (cell Config.rules_wo2);
             freq := Js.toUpperCase (Helpers.toStrOr "ALL" (cell Config.rules_freq));
             prio := Helpers.toNumberOr0 (cell Config.rules_prio) |})
    | None => None
    end
  else None.

(** [if (!m.has(employee)) m.set(employee, []); m.get(employee).push(rule)] *)
Definition fileRule (m : gmap string (list Rule)) (er : string * Rule)
    : gmap string (list Rule) :=
  <[er.1 := default [] (m !! er.1) ++ [er.2]]> m.

(** The map before the sort *)
Definition collectRules (h : gmap string nat) (rows : list (list Cell))
    : gmap string (list Rule) :=
  foldl fileRule ∅ (omap (parseRuleRow h) rows).

(** [parseRules(sh)]; [None] is a missing sheet *)
Definition parseRules (sh : option Sheet) : gmap string (list Rule) :=
  match sh with
  | None => ∅
  | Some sh =>
      let h := Helpers.mapHeaders (header sh) in
      if bool_decide (is_Some (WorkspaceProcessor.col h Config.rules_status))
      then sortBy compareRules <$> collectRules h (body sh)
      else ∅
  end.

End WithHost.
End Rules.


(** ** [Engine/Ledger.js] *)

Module Ledger.
Section WithHost.
Context `{!Host}.

Record Grant := {
  g_employee : string;
  g_date : Date
}.

Record Revocation := {
  r_employee : string;
  r_dateStr : string;
  r_reason : string
}.

(** The rows of a sheet as [getValues()] returns them, header first *)
Definition values (sh : Sheet) : list (list Cell) := header sh :: body sh.

Definition ofValues (data : list (list Cell)) : Sheet :=
  match data with
  | h :: b => {| header := h; body := b |}
  | [] => {| header := []; body := [] |}
  end.

(** [String(v).trim().toLowerCase()] *)
Definition normEmployee (s : string) : string := Js.toLowerCase (Js.trim s).

(** The key both loops compute for a data row: none when the employee cell
    is blank or the date does not parse ([if (l && dt)], [continue]). *)
Definition rowKey (e d : option nat) (r : list Cell) : option string :=
  let l := normEmployee (Helpers.toStr (Helpers.cellAt r e)) in
  match Helpers.parseSafeDate (Helpers.cellAt r d) with
  | Some dt =>
      if bool_decide (l = "") then None
      else Some (l +:+ "|" +:+ formatDate dt)
  | None => None
  end.

(** The keys of the ledger's entries, row by row: what the first loop of
    [grantEntitlements] adds to [existing]. *)
Definition entryKeys (sh : Sheet) : list string :=
  let h := Helpers.mapHeaders (header sh) in
  let e := WorkspaceProcessor.col h Config.ledger_employee in
  let d := WorkspaceProcessor.col h Config.ledger_entitlementDate in
  if bool_decide (is_Some e) && bool_decide (is_Some d)
  then omap (rowKey e d) (body sh)
  else [].

(** [if (h.has(name)) row[h.get(name)] = v] *)
Definition setCol (h : gmap string nat) (name : string) (v : Cell)
    (row : list Cell) : list Cell :=
  match h !! name with
  | Some i => <[i := v]> row
  | None => row
  end.

Definition grantKey (g : Grant) : string :=
  normEmployee (g_employee g) +:+ "|" +:+ formatDate (g_date g).

(** The row staged for a grant *)
Definition grantRow (h : gmap string nat) (width : nat) (now : Date)
    (g : Grant) : list Cell :=
  let row := replicate width (CStr "") in
  let row := setCol h "timestamp" (CDate now) row in
  let row := setCol h (Js.toLowerCase Config.ledger_employee) (CStr (g_employee g)) row in
  let row := setCol h (Js.toLowerCase Config.ledger_entitlementDate) (CDate (g_date g)) row in
  let row := setCol h (Js.toLowerCase Config.ledger_entitlement) (CStr "COMP_DAY") row in
  let row := setCol h (Js.toLowerCase Config.ledger_activation) (CStr "Active") row in
  row.

(** The body of [grants.forEach], on the pair of [existing] and [adds] *)
Definition grantStep (h : gmap string nat) (width : nat) (now : Date)
    (acc : gset string * list (list Cell)) (g : Grant)
    : gset string * list (list Cell) :=
  let k := grantKey g in
  if bool_decide (k ∈ acc.1) then acc
  else ({[k]} ∪ acc.1, acc.2 ++ [grantRow h width now g]).

(** The rows [grantEntitlements] appends *)
Definition stagedGrants (sh : Sheet) (now : Date) (grants : list Grant)
    : list (list Cell) :=
  let h := Helpers.mapHeaders (header sh) in
  let existing : gset string := list_to_set (entryKeys sh) in
  (foldl (grantStep h (length (header sh)) now) (existing, []) grants).2.

(** [grantEntitlements]; the ledger sheet is [None] when the database has
    no such tab, and [now] is the [new Date()] of the run. *)
Definition grantEntitlements (isDryRun : bool) (ledger : option Sheet)
    (now : Date) (grants : list Grant) : option Sheet :=
  if isDryRun then ledger
  else
    match ledger with
    | None => None
    | Some sh =>
        Some {| header := header sh;
                body := body sh ++ stagedGrants sh now grants |}
    end.

(** [new Map(revocations.map(r => [key, r.reason]))]: the last revocation
    of a key decides its reason. *)
Definition revokeMapOf (revocations : list Revocation) : gmap string string :=
  foldl (λ m r, <[normEmployee (r_employee r) +:+ "|" +:+ r_dateStr r := r_reason r]> m)
        ∅ revocations.

Definition noteFor (reason : string) : string :=
  if bool_decide (reason = "COMP_DAY") then "Comp Day Consumed"
  else "Revoked: Work/Rule Change".

(** The test of the loop body on one data row: the reason under which the
    row is revoked, if it is. *)
Definition revokeHit (e d a : nat) (revokeMap : gmap string string)
    (r : list Cell) : option string :=
  match rowKey (Some e) (Some d) r with
  | None => None
  | Some key =>
      match revokeMap !! key with
      | Some reason =>
          if negb (bool_decide
                     (Helpers.toStr (Helpers.cellAt r (Some a)) = "Inactive"))
          then Some reason else None
      | None => None
      end
  end.

(** [sh.getRange(1, idx + 1, col.length, 1).setValues(col)] *)
Definition writeColumn (idx : nat) (column : list Cell)
    (data : list (list Cell)) : list (list Cell) :=
  zip_with (λ r v, <[idx := v]> r) data column.

Definition revokeLedger (isDryRun : bool) (ledger : option Sheet)
    (revocations : list Revocation) : option Sheet :=
  if isDryRun then ledger
  else
    match ledger with
    | None => None
    | Some sh =>
        let data := values sh in
        let h := Helpers.mapHeaders (header sh) in
        match WorkspaceProcessor.col h Config.ledger_employee,
              WorkspaceProcessor.col h Config.ledger_entitlementDate,
              WorkspaceProcessor.col h Config.ledger_activation with
        | Some e, Some d, Some a =>
            let note := WorkspaceProcessor.col h Config.ledger_scriptNote in
            let revokeMap := revokeMapOf revocations in
            let hit := revokeHit e d a revokeMap in
            (* the column buffers after the loop over the data rows *)
            let actCol :=
              Helpers.cellAt (header sh) (Some a) ::
              ((λ r, match hit r with
                     | Some _ => CStr "Inactive"
                     | None => Helpers.cellAt r (Some a)
                     end) <$> body sh) in
            let noteCol :=
              match note with
              | Some _ =>
                  Helpers.cellAt (header sh) note ::
                  ((λ r, match hit r with
                         | Some reason => CStr (noteFor reason)
                         | None => Helpers.cellAt r note
                         end) <$> body sh)
              | None => []
              end in
            let hasChanges := existsb (λ r, bool_decide (is_Some (hit r))) (body sh) in
            if hasChanges then
              let data := writeColumn a actCol data in
              let data :=
                match note with
                | Some n => writeColumn n noteCol data
                | None => data
                end in
              Some (ofValues data)
            else Some sh
        | _, _, _ => Some sh
        end
    end.

End WithHost.
End Ledger.


(** ** Vocabulary of the statements *)

Module Spec.
Import Resolver WorkspaceProcessor.

(** [w] is at least as strong as [r] in the winner comparison: a higher
    priority, or the same priority and an id that is not smaller. *)
Definition outranks `{!Host} (w r : Rule) : Prop :=
  prio r < prio w ∨
  (prio r = prio w ∧ localeCompare (rule_id r) (rule_id w) <= 0).

(** Two rules tie in the winner comparison: the same priority, and ids that
    [localeCompare] reports equal. *)
Definition tied `{!Host} (a b : Rule) : Prop :=
  prio a = prio b ∧ localeCompare (rule_id a) (rule_id b) = 0.

(** The locals of [resolveEmployeeDay] after both passes *)
Definition stateAfterPasses `{!Host} (emp : Employee) (meta : DayMeta)
    (rules : list Rule) : DayState :=
  let activeRules := activeRulesOf meta rules in
  pass2 emp activeRules (pass1 emp meta activeRules (baseState emp meta)).

(** *** Rule ordering *)

(** The two classes the sort distinguishes by kind: DAY_PATTERN and the rest *)
Definition sameSortKind (a b : Rule) : Prop :=
  rule_type a = "DAY_PATTERN" ↔ rule_type b = "DAY_PATTERN".

(** The first two sort keys of [compareRules] *)
Definition typeKey (r : Rule) : Z :=
  if bool_decide (rule_type r = "DAY_PATTERN") then 0 else 1.

Definition freqKey (r : Rule) : Z :=
  if negb (bool_decide (freq r = "ALL")) then 0 else 1.

(** Both rules apply on every weekday, or both name their weekdays *)
Definition sameFreqClass (a b : Rule) : Prop :=
  freq a = "ALL" ↔ freq b = "ALL".

(** *** Decision matrix *)

(** The flags [resolveEmployeeDay] can look the matrix up with *)
Definition concreteFlags (f : Flags) : Prop :=
  baseFlag f ∈ ["WORK"; "OFF"] ∧
  ruleFlag f ∈ ["WORK"; "OFF"; "NONE"] ∧
  holidayFlag f ∈ ["TRUE"; "FALSE"] ∧
  reqFlag f ∈ ["NONE"; "COMP_DAY"; "LEAVE"].

(** A criterion accepts a value when it is a wildcard or the value itself *)
Definition accepts (criterion value : string) : bool :=
  isWildcard criterion || bool_decide (criterion = value).

(** Every criterion of the row accepts the corresponding flag *)
Definition covers (f : Flags) (row : DecisionMatrixRow) : bool :=
  accepts (row_base row) (baseFlag f) && accepts (row_rule row) (ruleFlag f) &&
  accepts (row_ph row) (holidayFlag f) && accepts (row_req row) (reqFlag f).

Definition literalDim (criterion value : string) : string :=
  if isWildcard criterion then value else criterion.

(** The row with each wildcard replaced by the value looked up *)
Definition literalRow (f : Flags) (row : DecisionMatrixRow) : DecisionMatrixRow :=
  {| row_base := literalDim (row_base row) (baseFlag f);
     row_rule := literalDim (row_rule row) (ruleFlag f);
     row_ph := literalDim (row_ph row) (holidayFlag f);
     row_req := literalDim (row_req row) (reqFlag f);
     row_finalStatus := row_finalStatus row;
     row_action := row_action row;
     row_reason := row_reason row |}.

(** The outputs of a row: final status, entitlement action and reason *)
Definition outcome (row : DecisionMatrixRow) : string * string * string :=
  (row_finalStatus row, row_action row, row_reason row).

(** The number of separators in a string: a pipe-joined key of four
    pipe-free values has three *)
Fixpoint countPipes (s : string) : nat :=
  match s with
  | EmptyString => 0
  | String c s' => (if bool_decide (c = "|"%char) then 1 else 0) + countPipes s'
  end.

(** *** Ledger *)

Import Ledger.
Section LedgerTerms.
Context `{!Host}.

(** The columns the ledger code addresses *)
Definition employeeCol (sh : Sheet) : option nat :=
  WorkspaceProcessor.col (Helpers.mapHeaders (header sh)) Config.ledger_employee.
Definition dateCol (sh : Sheet) : option nat :=
  WorkspaceProcessor.col (Helpers.mapHeaders (header sh)) Config.ledger_entitlementDate.
Definition activationCol (sh : Sheet) : option nat :=
  WorkspaceProcessor.col (Helpers.mapHeaders (header sh)) Config.ledger_activation.
Definition noteCol (sh : Sheet) : option nat :=
  WorkspaceProcessor.col (Helpers.mapHeaders (header sh)) Config.ledger_scriptNote.

(** The key of every data row, in place *)
Definition rowKeys (sh : Sheet) : list (option string) :=
  rowKey (employeeCol sh) (dateCol sh) <$> body sh.

(** An employee as a key has it: trimmed and in lower case *)
Definition normalized (s : string) : string := Js.toLowerCase (Js.trim s).

(** The key a data row is an entry for: the normalized employee and the
    date-string of a row whose date parses. [loadContext] files the row
    under this key, and it is the key the two ledger functions compute for
    the row when its employee is not blank. *)
Definition entryKey (e d : option nat) (r : list Cell) : option string :=
  match Helpers.parseSafeDate (Helpers.cellAt r d) with
  | Some dt =>
      Some (normalized (Helpers.toStr (Helpers.cellAt r e)) +:+ "|"
              +:+ formatDate dt)
  | None => None
  end.

(** The keys of the data rows, in place *)
Definition keysInPlace (sh : Sheet) : list (option string) :=
  entryKey (employeeCol sh) (dateCol sh) <$> body sh.

(** The entries filed under a key: the data rows with that key, in a ledger
    that has its employee and entitlement-date columns *)
Definition entriesOf (sh : Sheet) (key : string) : list (list Cell) :=
  if bool_decide (is_Some (employeeCol sh)) && bool_decide (is_Some (dateCol sh))
  then filter (λ r, entryKey (employeeCol sh) (dateCol sh) r = Some key) (body sh)
  else [].

(** The number of entries filed under a key *)
Definition entriesFor (sh : Sheet) (key : string) : nat :=
  length (entriesOf sh key).

(** Every data row whose date parses names an employee *)
Definition namesEmployees (sh : Sheet) : Prop :=
  ∀ r, r ∈ body sh →
       is_Some (Helpers.parseSafeDate (Helpers.cellAt r (dateCol sh))) →
       normalized (Helpers.toStr (Helpers.cellAt r (employeeCol sh))) ≠ "".

(** What [revokeLedger] makes of one data row *)
Definition revokedRow (e d a : nat) (note : option nat)
    (revokeMap : gmap string string) (r : list Cell) : list Cell :=
  match revokeHit e d a revokeMap r with
  | Some reason =>
      let r := <[a := CStr "Inactive"]> r in
      match note with
      | Some n => <[n := CStr (noteFor reason)]> r
      | None => r
      end
  | None => r
  end.

(** The ledger after [grantEntitlements] has appended its staged rows *)
Definition granted (sh : Sheet) (now : Date) (grants : list Grant) : Sheet :=
  {| header := header sh; body := body sh ++ stagedGrants sh now grants |}.

(** The number of entries filed under a key whose activation does not read
    Inactive *)
Definition activeEntriesFor (sh : Sheet) (key : string) : nat :=
  length (filter (λ r, Helpers.toStr (Helpers.cellAt r (activationCol sh))
                         ≠ "Inactive")
            (entriesOf sh key)).

(** The key [revokeLedger] files a revocation under *)
Definition revocationKey (rv : Revocation) : string :=
  normalized (r_employee rv) +:+ "|" +:+ r_dateStr rv.

(** A run of ledger operations, each a call of one of the two functions
    outside dry-run mode *)
Inductive LedgerOp :=
| OpGrant (now : Date) (grants : list Grant)
| OpRevoke (revocations : list Revocation).

Definition applyOp (ledger : option Sheet) (op : LedgerOp) : option Sheet :=
  match op with
  | OpGrant now grants => grantEntitlements false ledger now grants
  | OpRevoke revocations => revokeLedger false ledger revocations
  end.

(** Every grant intent of the operation names an employee: the employee is
    not blank once trimmed *)
Definition grantsNameEmployees (op : LedgerOp) : Prop :=
  match op with
  | OpGrant _ grants => Forall (λ g, normalized (g_employee g) ≠ "") grants
  | OpRevoke _ => True
  end.

End LedgerTerms.
End Spec.

(** ** Sample data, after [docs/sample_data] and [TestHarness.js] *)

Module Samples.
Import Resolver.

(** A host whose spreadsheet is in UTC: dates are formatted from the days
    since the epoch; cells hold dates and numbers as such, so no text is
    parsed. Its collation ignores the control characters other than the
    tab, the line feed, the vertical tab, the form feed and the carriage
    return, as the Unicode root collation does, and orders what is left by
    code unit: on ids written with upper-case letters, digits and hyphens
    that is the order of the root collation. *)
Definition ignorable (c : ascii) : bool :=
  let n := N_of_ascii c in
  ((n <? 9) || ((13 <? n) && (n <? 32)) || (n =? 127))%N.

Fixpoint collationKey (s : string) : string :=
  match s with
  | EmptyString => EmptyString
  | String c s' =>
      if ignorable c then collationKey s' else String c (collationKey s')
  end.

Definition compareKeys (a b : string) : Z :=
  match String.compare (collationKey a) (collationKey b) with
  | Lt => -1
  | Eq => 0
  | Gt => 1
  end.

(** The sample collation is a consistent comparison *)
Lemma compareKeys_flip a b : compareKeys a b < 0 ↔ 0 < compareKeys b a.
Proof.
  unfold compareKeys.
  rewrite (String.compare_antisym (collationKey a) (collationKey b)).
  destruct (String.compare (collationKey b) (collationKey a)); simpl; lia.
Qed.

Lemma compareKeys_nonpos a b :
  compareKeys a b <= 0 ↔ String.le (collationKey a) (collationKey b).
Proof.
  unfold compareKeys, String.le, String.leb.
  destruct (String.compare _ _); simpl; split; intros; first [lia | done].
Qed.

Lemma compareKeys_trans a b c :
  compareKeys a b <= 0 → compareKeys b c <= 0 → compareKeys a c <= 0.
Proof. rewrite !compareKeys_nonpos. intros ??. by etrans. Qed.

Definition civilFromDays (z : Z) : Z * Z * Z :=
  let z := z + 719468 in
  let era := z `div` 146097 in
  let doe := z - era * 146097 in
  let yoe := (doe - doe `div` 1460 + doe `div` 36524 - doe `div` 146096) `div` 365 in
  let doy := doe - (365 * yoe + yoe `div` 4 - yoe `div` 100) in
  let mp := (5 * doy + 2) `div` 153 in
  let d := doy - (153 * mp + 2) `div` 5 + 1 in
  let m := if bool_decide (mp < 10) then mp + 3 else mp - 9 in
  (if bool_decide (m <= 2) then yoe + era * 400 + 1 else yoe + era * 400, m, d).

Definition pad2 (n : Z) : string :=
  if bool_decide (n < 10) then "0" +:+ pretty n else pretty n.

Definition utcHost : Host :=
  {| formatDate d :=
       let '(y, m, dd) := civilFromDays (d `div` 86400000) in
       pretty y +:+ "-" +:+ pad2 m +:+ "-" +:+ pad2 dd;
     parseDateText _ := None;
     dateToString d := "Date(" +:+ pretty d +:+ ")";
     numberOfText _ := None;
     localeCompare := compareKeys;
     localeCompare_flip := compareKeys_flip;
     localeCompare_trans := compareKeys_trans;
     noColumnsMessage :=
       "The number of columns in the range must be at least 1." |}.

(** 2025-01-01, 2025-03-01, 2025-03-31 and 2025-06-30, at midnight UTC *)
Definition jan01 : Date := 1735689600000.
Definition mar01 : Date := 1740787200000.
Definition mar31 : Date := 1743379200000.
Definition jun30 : Date := 1751241600000.

Definition rulesHeader : list Cell :=
  [CStr "Rule_ID"; CStr "Employee_ID"; CStr "Rule_Type"; CStr "Start_Date";
   CStr "End_Date"; CStr "Shift_Value"; CStr "Primary_Off_Day";
   CStr "Secondary_Off_Day"; CStr "Frequency"; CStr "Approval_Status";
   CStr "Priority"].

(** R-001 and R-002 of [docs/sample_data], then two approved shift
    overrides of equal priority (R-007, R-008), one of them with a blank
    shift value, and a weekday-specific one of low priority (R-010). *)
Definition rulesSheet : Sheet :=
  {| header := rulesHeader;
     body :=
       [ [CStr "R-001"; CStr "emp-1042"; CStr "DAY_PATTERN"; CDate jan01;
          CDate jun30; CStr ""; CStr "WED"; CStr "THU"; CStr "ALL";
          CStr "Approved"; CNum 5];
         [CStr "R-002"; CStr "emp-1042"; CStr "SHIFT_OVERRIDE"; CDate mar01;
          CDate mar31; CStr "10:00 - 19:00"; CStr ""; CStr ""; CStr "ALL";
          CStr "Approved"; CNum 3];
         [CStr "R-008"; CStr "emp-1042"; CStr "SHIFT_OVERRIDE"; CDate mar01;
          CDate mar31; CStr "07:00 - 16:00"; CStr ""; CStr ""; CStr "ALL";
          CStr "Approved"; CNum 9];
         [CStr "R-007"; CStr "emp-1042"; CStr "SHIFT_OVERRIDE"; CDate mar01;
          CDate mar31; CStr "  "; CStr ""; CStr ""; CStr "ALL";
          CStr "Approved"; CNum 9];
         [CStr "R-010"; CStr "emp-1042"; CStr "SHIFT_OVERRIDE"; CDate mar01;
          CDate mar31; CStr "08:00 - 17:00"; CStr ""; CStr ""; CStr "MON";
          CStr "Approved"; CNum 1] ] |}.

Definition R_007 : Rule :=
  {| rule_id := "R-007"; rule_type := "SHIFT_OVERRIDE"; start := "2025-03-01";
     end_ := "2025-03-31"; shift := "  "; wo1 := ""; wo2 := "";
     freq := "ALL"; prio := 9 |}.

Definition R_008 : Rule :=
  {| rule_id := "R-008"; rule_type := "SHIFT_OVERRIDE"; start := "2025-03-01";
     end_ := "2025-03-31"; shift := "07:00 - 16:00"; wo1 := ""; wo2 := "";
     freq := "ALL"; prio := 9 |}.

Definition R_010 : Rule :=
  {| rule_id := "R-010"; rule_type := "SHIFT_OVERRIDE"; start := "2025-03-01";
     end_ := "2025-03-31"; shift := "08:00 - 17:00"; wo1 := ""; wo2 := "";
     freq := "MON"; prio := 1 |}.

Definition R_001 : Rule :=
  {| rule_id := "R-001"; rule_type := "DAY_PATTERN"; start := "2025-01-01";
     end_ := "2025-06-30"; shift := ""; wo1 := "WED"; wo2 := "THU";
     freq := "ALL"; prio := 5 |}.

Definition R_002 : Rule :=
  {| rule_id := "R-002"; rule_type := "SHIFT_OVERRIDE"; start := "2025-03-01";
     end_ := "2025-03-31"; shift := "10:00 - 19:00"; wo1 := ""; wo2 := "";
     freq := "ALL"; prio := 3 |}.

Definition R_006 : Rule :=
  {| rule_id := "R-006"; rule_type := "DAY_PATTERN"; start := "2025-04-01";
     end_ := "2025-04-30"; shift := ""; wo1 := "SUN"; wo2 := "MON";
     freq := "ALL"; prio := 7 |}.

(** Two day-pattern rules with negative priorities *)
Definition R_low1 : Rule :=
  {| rule_id := "R-101"; rule_type := "DAY_PATTERN"; start := "2025-01-01";
     end_ := "2025-12-31"; shift := ""; wo1 := "WED"; wo2 := "THU";
     freq := "ALL"; prio := -1 |}.

Definition R_low5 : Rule :=
  {| rule_id := "R-105"; rule_type := "DAY_PATTERN"; start := "2025-01-01";
     end_ := "2025-12-31"; shift := ""; wo1 := "FRI"; wo2 := "SAT";
     freq := "ALL"; prio := -5 |}.

(** Two day-pattern rules of one priority whose ids differ in a control
    character (U+0001) at the end of the second *)
Definition R_tie1 : Rule :=
  {| rule_id := "R-201"; rule_type := "DAY_PATTERN"; start := "2025-01-01";
     end_ := "2025-12-31"; shift := ""; wo1 := "WED"; wo2 := "THU";
     freq := "ALL"; prio := 5 |}.

Definition R_tie2 : Rule :=
  {| rule_id := "R-201" +:+ String "001"%char ""; rule_type := "DAY_PATTERN";
     start := "2025-01-01"; end_ := "2025-12-31"; shift := ""; wo1 := "FRI";
     wo2 := "SAT"; freq := "ALL"; prio := 5 |}.

(** A shift override whose value reads OFF *)
Definition R_off : Rule :=
  {| rule_id := "R-009"; rule_type := "SHIFT_OVERRIDE"; start := "2025-01-01";
     end_ := "2025-12-31"; shift := "off"; wo1 := ""; wo2 := "";
     freq := "ALL"; prio := 4 |}.

Definition testUser : Employee :=
  {| emp_id := "test-user"; display := "Test User"; baseShift := "09:00-18:00";
     emp_wo1 := "SAT"; emp_wo2 := "SUN" |}.

Definition monday : DayMeta :=
  {| obj := 1738540800000; str := "2025-02-03"; day := "MON" |}.

Definition emptyContext : EngineContext :=
  {| mapping := ∅; matrixIndex := ∅; ledger := ∅; leaves := ∅; rules := ∅;
     holidays := ∅ |}.

(** The decision matrix of [docs/sample_data/Decision_Matrix.md] *)
Definition decisionMatrix : list DecisionMatrixRow :=
  [ Build_DecisionMatrixRow "WORK" "NONE" "FALSE" "NONE" "WORK" "NONE"
      "Regular work day";
    Build_DecisionMatrixRow "WORK" "NONE" "TRUE" "NONE" "WORK" "GRANT"
      "Work on public holiday - comp day granted";
    Build_DecisionMatrixRow "WORK" "NONE" "FALSE" "LEAVE" "LEAVE" "NONE"
      "Approved leave";
    Build_DecisionMatrixRow "WORK" "OFF" "FALSE" "NONE" "OFF" "NONE"
      "Rule changed work to off";
    Build_DecisionMatrixRow "OFF" "NONE" "FALSE" "NONE" "OFF" "NONE"
      "Scheduled off day";
    Build_DecisionMatrixRow "OFF" "WORK" "FALSE" "NONE" "WORK" "NONE"
      "Rule changed off to work";
    Build_DecisionMatrixRow "OFF" "WORK" "TRUE" "NONE" "WORK" "GRANT"
      "Rule changed off to work on holiday";
    Build_DecisionMatrixRow "WORK" "NONE" "FALSE" "COMP_DAY" "COMP_DAY" "REVOKE"
      "Comp day consumed";
    Build_DecisionMatrixRow "OFF" "NONE" "TRUE" "NONE" "OFF" "NONE"
      "Holiday on off day - no change";
    Build_DecisionMatrixRow "ANY" "ANY" "ANY" "LEAVE" "LEAVE" "NONE"
      "Leave takes precedence over all" ].

Definition leaveOnHoliday : Flags :=
  {| baseFlag := "OFF"; ruleFlag := "WORK"; holidayFlag := "TRUE";
     reqFlag := "LEAVE" |}.

(** The ledger of [docs/sample_data/Entitlement_Ledger.md], with a
    Timestamp column in front *)
Definition jan26 : Date := 1737849600000.
Definition apr05 : Date := 1743811200000.
Definition may01 : Date := 1746057600000.
Definition runTime : Date := 1746100000000.

Definition ledgerSheet : Sheet :=
  {| header :=
       [CStr "Timestamp"; CStr "Employee_ID"; CStr "Entitlement_Date";
        CStr "Date_Used"; CStr "Week"; CStr "Mapping";
        CStr "Final_Entitlement_Status"; CStr "Activation_Status";
        CStr "Entitlement_Type"; CStr "Snapshot_Status"; CStr "System_Note"];
     body :=
       [ [CStr ""; CStr "emp-1042"; CDate jan26; CStr ""; CStr "W04";
          CStr "WK-PH"; CStr "COMP_DAY"; CStr "Active"; CStr "COMP_DAY";
          CStr "GENERATED"; CStr "Work on public holiday"];
         [CStr ""; CStr "emp-1042"; CDate mar31; CDate apr05; CStr "W13";
          CStr "WK-PH"; CStr "OFF"; CStr "Inactive"; CStr "COMP_DAY";
          CStr "CONSUMED"; CStr "Comp Day Consumed"];
         [CStr ""; CStr "emp-2087"; CDate may01; CStr ""; CStr "W18";
          CStr "WK-PH"; CStr "COMP_DAY"; CStr "Active"; CStr "COMP_DAY";
          CStr "GENERATED"; CStr "Work on public holiday"] ] |}.

Definition grant3001 : Ledger.Grant :=
  {| Ledger.g_employee := "EMP-3001"; Ledger.g_date := may01 |}.

(** An intent as [processRoster] builds it from a roster row whose employee
    cell holds only blanks: the display name is the trimmed cell. *)
Definition grantBlank : Ledger.Grant :=
  {| Ledger.g_employee := ""; Ledger.g_date := may01 |}.

Definition revoke1042 : Ledger.Revocation :=
  {| Ledger.r_employee := "emp-1042"; Ledger.r_dateStr := "2025-01-26";
     Ledger.r_reason := "COMP_DAY" |}.


End Samples.


(** ** The rest of [Config.js]: tab names and the remaining header names *)

Module Tabs.

Definition config_name : string := "Scheduler_Config".
Definition config_id : string := "Workspace_File_ID".
Definition config_status : string := "Status".

Definition rules_name : string := "Schedule_Rules".
Definition decision_name : string := "Decision_Matrix".

Definition mapping_name : string := "Shift_Status_Mapping".
Definition mapping_shift : string := "Shift_Code".
Definition mapping_status : string := "Work_Status".

Definition holidays_name : string := "Holidays".
Definition holidays_date : string := "Date".

Definition leaves_name : string := "Leave_Data".
Definition leaves_employee : string := "Employee_ID".
Definition leaves_date : string := "Leave_Date".
Definition leaves_cat : string := "Leave_Type".

Definition ledger_name : string := "Entitlement_Ledger".
Definition ledger_dateUsed : string := "Date_Used".
Definition ledger_week : string := "Week".
Definition ledger_mapping : string := "Mapping".
Definition ledger_status : string := "Final_Entitlement_Status".
Definition ledger_snap : string := "Snapshot_Status".

Definition logs_name : string := "System_Logs".

(** [CONFIG.roster] *)
Definition roster_header_row : nat := 4.
Definition roster_data_row : nat := 5.
Definition roster_employee_id : string := "Employee ID".
Definition roster_default_shift : string := "Default Shift".
Definition roster_primary_off_day : string := "Primary Off Day".
Definition roster_secondary_off_day : string := "Secondary Off Day".

(** [Object.values(CONFIG.tabs.<tab>.h)], in the order the keys are written *)
Definition config_h : list string := [config_id; config_status].
Definition rules_h : list string :=
  [Config.rules_id; Config.rules_employee; Config.rules_type; Config.rules_start;
   Config.rules_end; Config.rules_shift; Config.rules_wo1; Config.rules_wo2;
   Config.rules_freq; Config.rules_status; Config.rules_prio].
Definition decision_h : list string :=
  [Config.decision_base; Config.decision_rule; Config.decision_ph;
   Config.decision_req; Config.decision_final; Config.decision_action;
   Config.decision_reason].
Definition ledger_h : list string :=
  [Config.ledger_employee; Config.ledger_entitlementDate; ledger_dateUsed;
   ledger_week; ledger_mapping; ledger_status; Config.ledger_activation;
   Config.ledger_entitlement; ledger_snap; Config.ledger_scriptNote].
Definition leaves_h : list string := [leaves_employee; leaves_date; leaves_cat].
Definition holidays_h : list string := [holidays_date].
Definition logs_h : list string :=
  ["Run_ID"; "Timestamp"; "Level"; "Message"; "Context"].

End Tabs.

(** A spreadsheet file: its tabs by name ([getSheetByName]) *)
Definition Spreadsheet := gmap string Sheet.

(** How a call ends: with its value, or with the message of the [Error] it
    throws *)
Inductive Completion (A : Type) :=
| Returned (a : A)
| Thrown (msg : string).
Arguments Returned {A} a.
Arguments Thrown {A} msg.

(** ** [Utils/Helpers.js]: day names and simple lists *)

(** [d.getDay()], the weekday in the script's time zone, from 0 (Sunday)
    to 6 *)
Class Calendar := {
  getDay : Date → nat;
  getDay_range : ∀ d, (getDay d < 7)%nat
}.

Module Lists.
Section WithHost.
Context `{!Host}.

Definition DAY_NAMES : list string :=
  ["SUN"; "MON"; "TUE"; "WED"; "THU"; "FRI"; "SAT"].

Definition getDayName `{!Calendar} (d : Date) : string :=
  DAY_NAMES !!! getDay d.

(** [parseSimpleList(sh, col)]: [d[0].indexOf(col)] finds the first header
    cell that is the string [col] itself. *)
Definition parseSimpleList (sh : option Sheet) (col : string) : gset string :=
  match sh with
  | None => ∅
  | Some sh =>
      match list_find (λ c, c = CStr col) (header sh) with
      | Some (idx, _) =>
          list_to_set
            (omap (λ r, formatDate <$>
                        Helpers.parseSafeDate (Helpers.cellAt r (Some idx)))
                  (body sh))
      | None => ∅
      end
  end.

End WithHost.
End Lists.

(** ** [Utils/Logger.js] *)

Module Logger.

(** One element of [LOG_BUFFER]; the timestamp is the [new Date()] of the
    call. *)
Record LogEntry := {
  log_runId : string;
  log_time : Date;
  log_level : string;
  log_message : string;
  log_context : string
}.

Definition Buffer := list LogEntry.

Definition writeSystemLog (now : Date) (runId level message context : string)
    (buffer : Buffer) : Buffer :=
  buffer ++ [{| log_runId := runId; log_time := now; log_level := level;
                log_message := message; log_context := context |}].

Definition logInfo (now : Date) (runId msg ctx : string) : Buffer → Buffer :=
  writeSystemLog now runId "INFO" msg ctx.
Definition logWarn (now : Date) (runId msg ctx : string) : Buffer → Buffer :=
  writeSystemLog now runId "WARN" msg ctx.
Definition logError (now : Date) (runId msg ctx : string) : Buffer → Buffer :=
  writeSystemLog now runId "ERROR" msg ctx.

(** The row written for a buffered entry *)
Definition entryRow (e : LogEntry) : list Cell :=
  [CStr (log_runId e); CDate (log_time e); CStr (log_level e);
   CStr (log_message e); CStr (log_context e)].

(** [flushLogs], on the buffer and the System_Logs tab: the rows of the tab
    up to its last row with content, [None] when the file has no such tab.
    The writes are taken to succeed. *)
Definition flushLogs (buffer : Buffer) (logs : option (list (list Cell)))
    : Buffer * option (list (list Cell)) :=
  if bool_decide (length buffer = 0%nat) then (buffer, logs)
  else
    let rows :=
      match logs with
      | Some rows => rows
      | None => [CStr <$> Tabs.logs_h]
      end in
    ([], Some (rows ++ (entryRow <$> buffer))).

End Logger.

(** ** [Utils/SchemaValidator.js] and [Utils/Validation.js] *)

Module SchemaValidator.
Import Logger.
Section WithHost.
Context `{!Host}.

(** A cell has content unless it is the empty text *)
Definition hasContent (c : Cell) : bool := negb (bool_decide (c = CStr "")).

(** [sheet.getLastColumn()]: the position of the last column that has
    content. That is where the data range ends, so it is the width of the
    rows read; on a tab with no content it is 0. *)
Definition getLastColumn (sh : Sheet) : nat :=
  if existsb (existsb hasContent) (header sh :: body sh)
  then max_list (length <$> header sh :: body sh) else 0%nat.

(** [validateSheetHeaders]; [now] is the [new Date()] of the log entry
    written on failure. On a tab with no content
    [sheet.getRange(1, 1, 1, 0)] throws the host's exception, before
    anything is logged. *)
Definition validateSheetHeaders (now : Date) (sheet : option Sheet)
    (expectedHeaders : list string) (sheetName runId : string)
    (buffer : Buffer) : Buffer * Completion () :=
  match sheet with
  | None =>
      let msg := "Missing Sheet: " +:+ Resolver.dquote +:+ sheetName
                   +:+ Resolver.dquote in
      (logError now runId msg "" buffer, Thrown msg)
  | Some sh =>
      if bool_decide (getLastColumn sh = 0%nat)
      then (buffer, Thrown noColumnsMessage)
      else
        let actualHeaders := take (getLastColumn sh) (header sh) in
        let actualMap := Helpers.mapHeaders actualHeaders in
        let required := (λ h, Js.toLowerCase (Js.trim h)) <$> expectedHeaders in
        let missing := filter (λ req, actualMap !! req = None) required in
        if bool_decide (0 < length missing)%nat then
          let msg := "Schema Validation Failed for " +:+ Resolver.dquote
                       +:+ sheetName +:+ Resolver.dquote
                       +:+ ". Missing headers: [" +:+ Js.join ", " missing +:+ "]" in
          (logError now runId msg "" buffer, Thrown msg)
        else (buffer, Returned ())
  end.

(** The six tabs [validateAllSchemas] checks, in its order *)
Definition schemas : list (string * list string) :=
  [(Tabs.config_name, Tabs.config_h); (Tabs.rules_name, Tabs.rules_h);
   (Tabs.decision_name, Tabs.decision_h); (Tabs.ledger_name, Tabs.ledger_h);
   (Tabs.leaves_name, Tabs.leaves_h); (Tabs.holidays_name, Tabs.holidays_h)].

(** The calls of [validateSheetHeaders] in sequence; the first throw ends
    the run. *)
Fixpoint validateEach (now : Date) (ssDb : Spreadsheet) (runId : string)
    (tabs : list (string * list string)) (buffer : Buffer)
    : Buffer * Completion () :=
  match tabs with
  | [] => (buffer, Returned ())
  | (name, h) :: tabs' =>
      match validateSheetHeaders now (ssDb !! name) h name runId buffer with
      | (buffer, Returned _) => validateEach now ssDb runId tabs' buffer
      | (buffer, Thrown msg) => (buffer, Thrown msg)
      end
  end.

(** [validateAllSchemas]; [t0] is the time of the opening log entry and
    [t1] that of the entry that ends the call. *)
Definition validateAllSchemas (t0 t1 : Date) (ssDb : Spreadsheet)
    (runId : string) (buffer : Buffer) : Buffer * Completion () :=
  let buffer := logInfo t0 runId "Validating database schema..." "" buffer in
  match validateEach t1 ssDb runId schemas buffer with
  | (buffer, Returned _) =>
      (logInfo t1 runId "Schema validation passed" "" buffer, Returned ())
  | (buffer, Thrown msg) => (buffer, Thrown msg)
  end.

End WithHost.
End SchemaValidator.

Module Validation.
Import Logger.

Definition requiredSheets : list string :=
  [Tabs.config_name; Tabs.rules_name; Tabs.decision_name; Tabs.ledger_name].

Definition validateCentralDatabase (now : Date) (ssDb : Spreadsheet)
    (runId : string) (buffer : Buffer) : Buffer * Completion () :=
  let missing := filter (λ name, ssDb !! name = None) requiredSheets in
  if bool_decide (0 < length missing)%nat then
    let msg := "Missing required sheets in Central DB: " +:+ Js.join ", " missing in
    (logError now runId msg "" buffer, Thrown msg)
  else (buffer, Returned ()).

End Validation.

(** ** [Engine/WorkspaceProcessor.js]: workspaces, rosters and the rest of
       [loadContext] *)

Module Workspace.
Import Resolver.
Section WithHost.
Context `{!Host}.

Definition getActiveWorkspaces (ssDb : Spreadsheet) : list string :=
  match ssDb !! Tabs.config_name with
  | None => []
  | Some sh =>
      let h := Helpers.mapHeaders (header sh) in
      omap (λ r,
              let status := Js.toUpperCase (Helpers.toStrOr ""
                              (Helpers.cellAt r (WorkspaceProcessor.col h Tabs.config_status))) in
              let id := Js.trim (Helpers.toStrOr ""
                          (Helpers.cellAt r (WorkspaceProcessor.col h Tabs.config_id))) in
              if bool_decide (status = "ACTIVE") &&
                 bool_decide (10 < String.length id)%nat
              then Some id else None)
           (body sh)
  end.

(** *** [processRoster] *)

Record RosterOutput := {
  dailyStatus : list AuditRow;
  grants : list Ledger.Grant;
  revocations : list Ledger.Revocation
}.

(** The indices [headerRow.forEach] pushes to [dateColumns] *)
Fixpoint dateColumnsFrom (i : nat) (headerRow : list Cell) : list nat :=
  match headerRow with
  | [] => []
  | cell :: rest =>
      if bool_decide (is_Some (Helpers.parseSafeDate cell))
      then i :: dateColumnsFrom (S i) rest
      else dateColumnsFrom (S i) rest
  end.

(** [dateMeta[colIndex]] *)
Definition dateMeta `{!Calendar} (headerRow : list Cell) (colIndex : nat)
    : option DayMeta :=
  match Helpers.parseSafeDate (Helpers.cellAt headerRow (Some colIndex)) with
  | Some d => Some {| obj := d; str := formatDate d; day := Lists.getDayName d |}
  | None => None
  end.

(** The employee of a roster row; a row whose id cell is falsy is skipped.
    The base shift is the raw cell, held as the text [String] renders it
    (the resolver compares it with texts and prints it in the trace). *)
Definition employeeOf (emp base wo1 wo2 : nat) (r : list Cell) : option Employee :=
  if negb (Helpers.truthy (Helpers.cellAt r (Some emp))) then None
  else Some
    {| emp_id := Js.toLowerCase (Js.trim (Helpers.toStr (Helpers.cellAt r (Some emp))));
       display := Js.trim (Helpers.toStr (Helpers.cellAt r (Some emp)));
       baseShift := Helpers.toStr (Helpers.cellAt r (Some base));
       emp_wo1 := Helpers.normalizeDay (Rules.cellText (Helpers.cellAt r (Some wo1)));
       emp_wo2 := Helpers.normalizeDay (Rules.cellText (Helpers.cellAt r (Some wo2))) |}.

(** The three pushes of the inner loop *)
Definition pushResolution (emp : Employee) (meta : DayMeta) (res : Resolution)
    (out : RosterOutput) : RosterOutput :=
  {| dailyStatus := dailyStatus out ++ [row res];
     grants :=
       if bool_decide (entitlementAction res = "GRANT")
       then grants out ++ [{| Ledger.g_employee := display emp;
                              Ledger.g_date := obj meta |}]
       else grants out;
     revocations :=
       if bool_decide (entitlementAction res = "REVOKE")
       then revocations out ++ [{| Ledger.r_employee := display emp;
                                   Ledger.r_dateStr := str meta;
                                   Ledger.r_reason := finalStatus res |}]
       else revocations out |}.

(** The body of [for (const c0 of dateColumns)] *)
Definition dayStep `{!Calendar} (headerRow : list Cell) (ctx : EngineContext)
    (emp : Employee) (rules : list Rule) (out : RosterOutput) (c0 : nat)
    : RosterOutput :=
  match dateMeta headerRow c0 with
  | None => out
  | Some meta => pushResolution emp meta (resolveEmployeeDay emp meta ctx rules) out
  end.

(** The body of [for (const r of emps)] *)
Definition employeeStep `{!Calendar} (headerRow : list Cell) (ctx : EngineContext)
    (emp base wo1 wo2 : nat) (dateColumns : list nat)
    (out : RosterOutput) (r : list Cell) : RosterOutput :=
  match employeeOf emp base wo1 wo2 r with
  | None => out
  | Some e =>
      let rules := default [] (rules ctx !! emp_id e) in
      foldl (dayStep headerRow ctx e rules) out dateColumns
  end.

Definition processRoster `{!Calendar} (data : list (list Cell))
    (ctx : EngineContext) : Completion RosterOutput :=
  let headerRow := default [] (data !! (Tabs.roster_header_row - 1)%nat) in
  let emps := drop (Tabs.roster_data_row - 1) data in
  let headerMap := Helpers.mapHeaders headerRow in
  match WorkspaceProcessor.col headerMap Tabs.roster_employee_id,
        WorkspaceProcessor.col headerMap Tabs.roster_default_shift,
        WorkspaceProcessor.col headerMap Tabs.roster_primary_off_day,
        WorkspaceProcessor.col headerMap Tabs.roster_secondary_off_day with
  | Some emp, Some base, Some wo1, Some wo2 =>
      let dateColumns := dateColumnsFrom 0 headerRow in
      if bool_decide (length dateColumns = 0%nat)
      then Thrown "No date columns detected in roster sheet."
      else Returned
             (foldl (employeeStep headerRow ctx emp base wo1 wo2 dateColumns)
                    {| dailyStatus := []; grants := []; revocations := [] |}
                    emps)
  | _, _, _, _ =>
      Thrown "Roster sheet missing required columns. Check CONFIG.roster.cols"
  end.

(** *** [processWorkspace] *)

(** Step 3 of [processWorkspace], "Update Ledger (Central DB)", on the
    intents gathered from the roster tabs; [now] is the time of the grant. *)
Definition updateLedger (isDryRun : bool) (ledger : option Sheet) (now : Date)
    (grants : list Ledger.Grant) (revocations : list Ledger.Revocation)
    : option Sheet :=
  if bool_decide (0 < length grants)%nat || bool_decide (0 < length revocations)%nat
  then
    let ledger :=
      if bool_decide (0 < length grants)%nat
      then Ledger.grantEntitlements isDryRun ledger now grants
      else ledger in
    if bool_decide (0 < length revocations)%nat
    then Ledger.revokeLedger isDryRun ledger revocations
    else ledger
  else ledger.

(** *** [loadContext] *)

(** 1. Mapping *)
Definition loadMapping (sh : option Sheet) : gmap string string :=
  match sh with
  | None => ∅
  | Some sh =>
      let h := Helpers.mapHeaders (header sh) in
      foldl (λ m r,
               let s := Helpers.cellAt r (WorkspaceProcessor.col h Tabs.mapping_shift) in
               if Helpers.truthy s
               then <[Js.trim (Helpers.toStr s) :=
                       Js.toUpperCase (Helpers.toStr
                         (Helpers.cellAt r (WorkspaceProcessor.col h Tabs.mapping_status)))]> m
               else m)
            ∅ (body sh)
  end.

(** 3. Ledger: the key and state a data row is loaded under, if it is *)
Definition ledgerEntry (h : gmap string nat) (r : list Cell)
    : option (string * LedgerState) :=
  match Helpers.parseSafeDate
          (Helpers.cellAt r (WorkspaceProcessor.col h Config.ledger_entitlementDate)) with
  | Some dt =>
      let act := Js.toUpperCase (Js.trim (Helpers.toStrOr "Active"
                   (Helpers.cellAt r (WorkspaceProcessor.col h Config.ledger_activation)))) in
      if negb (bool_decide (act = "INACTIVE")) then
        let st := Js.toUpperCase (Js.trim (Helpers.toStr
                    (Helpers.cellAt r (WorkspaceProcessor.col h Tabs.ledger_status)))) in
        Some (Js.toLowerCase (Js.trim (Helpers.toStr
                (Helpers.cellAt r (WorkspaceProcessor.col h Config.ledger_employee))))
                +:+ "|" +:+ formatDate dt,
              {| status := st |})
      else None
  | None => None
  end.

(** [map.set(key, value)] for each pair, in order *)
Definition setAll {V} (m : gmap string V) (kvs : list (string * V)) : gmap string V :=
  foldl (λ m kv, <[kv.1 := kv.2]> m) m kvs.

Definition loadLedger (sh : option Sheet) : gmap string LedgerState :=
  match sh with
  | None => ∅
  | Some sh =>
      let h := Helpers.mapHeaders (header sh) in
      if bool_decide (is_Some (WorkspaceProcessor.col h Config.ledger_employee)) &&
         bool_decide (is_Some (WorkspaceProcessor.col h Config.ledger_entitlementDate))
      then setAll ∅ (omap (ledgerEntry h) (body sh))
      else ∅
  end.

(** 4. Leaves: the leave type is kept as the cell's text, a falsy cell as
    the empty string (the resolver reads it through [if (lv)]). *)
Definition leaveEntry (h : gmap string nat) (r : list Cell)
    : option (string * string) :=
  match Helpers.parseSafeDate
          (Helpers.cellAt r (WorkspaceProcessor.col h Tabs.leaves_date)) with
  | Some dt =>
      Some (Js.toLowerCase (Js.trim (Helpers.toStr
              (Helpers.cellAt r (WorkspaceProcessor.col h Tabs.leaves_employee))))
              +:+ "|" +:+ formatDate dt,
            Rules.cellText (Helpers.cellAt r (WorkspaceProcessor.col h Tabs.leaves_cat)))
  | None => None
  end.

Definition loadLeaves (sh : option Sheet) : gmap string string :=
  match sh with
  | None => ∅
  | Some sh =>
      let h := Helpers.mapHeaders (header sh) in
      if bool_decide (is_Some (WorkspaceProcessor.col h Tabs.leaves_employee)) &&
         bool_decide (is_Some (WorkspaceProcessor.col h Tabs.leaves_date))
      then setAll ∅ (omap (leaveEntry h) (body sh))
      else ∅
  end.

Definition loadContext (ssDb : Spreadsheet) : EngineContext :=
  {| mapping := loadMapping (ssDb !! Tabs.mapping_name);
     matrixIndex :=
       match ssDb !! Tabs.decision_name with
       | Some sh => WorkspaceProcessor.loadMatrixIndex sh
       | None => ∅
       end;
     ledger := loadLedger (ssDb !! Tabs.ledger_name);
     leaves := loadLeaves (ssDb !! Tabs.leaves_name);
     rules := Rules.parseRules (ssDb !! Tabs.rules_name);
     holidays := Lists.parseSimpleList (ssDb !! Tabs.holidays_name) Tabs.holidays_date |}.

End WithHost.
End Workspace.

(** ** Further vocabulary of the statements *)

Module Terms.
Section WithHost.
Context `{!Host}.

(** No bucket of a decision-matrix index is an empty list *)
Definition bucketsFilled (m : gmap string (list Resolver.DecisionMatrixRow)) : Prop :=
  ∀ k l, m !! k = Some l → l ≠ [].

(** The name [mapHeaders] files a header cell under *)
Definition headerName (v : Cell) : string :=
  Js.toLowerCase (Js.trim (Helpers.toStr v)).

(** Every expected header, trimmed and lower-cased, names a header cell *)
Definition hasHeaders (sh : Sheet) (expected : list string) : Prop :=
  ∀ n, n ∈ expected →
       ∃ v, v ∈ header sh ∧ headerName v = Js.toLowerCase (Js.trim n).

(** A sheet with no content: every cell of every row is the empty text *)
Definition blankSheet (sh : Sheet) : Prop :=
  ∀ r c, r ∈ header sh :: body sh → c ∈ r → c = CStr "".

(** A tab passes the schema check: it is there, it has content and it has
    every expected header *)
Definition tabPasses (db : Spreadsheet) (tab : string * list string) : Prop :=
  ∃ sh, db !! tab.1 = Some sh ∧ ¬ blankSheet sh ∧ hasHeaders sh tab.2.

(** A tab is there but has no content *)
Definition tabIsBlank (db : Spreadsheet) (tab : string * list string) : Prop :=
  ∃ sh, db !! tab.1 = Some sh ∧ blankSheet sh.


Import Resolver Workspace.

(** The day a roster header cell stands for, if it holds a date *)
Definition dayOfCell `{!Calendar} (cell : Cell) : option DayMeta :=
  (λ d, {| obj := d; str := formatDate d; day := Lists.getDayName d |}) <$>
  Helpers.parseSafeDate cell.

(** The days of the schedule grid, in column order *)
Definition rosterDays `{!Calendar} (headerRow : list Cell) : list DayMeta :=
  omap dayOfCell headerRow.

(** The resolutions of a roster: every employee on every day of the grid,
    employee by employee *)
Definition rosterCells (ctx : EngineContext) (emps : list Employee)
    (days : list DayMeta) : list (Employee * DayMeta * Resolution) :=
  e ← emps; m ← days;
  [(e, m, resolveEmployeeDay e m ctx (default [] (rules ctx !! emp_id e)))].

(** The intents a resolution gives rise to *)
Definition grantOf (c : Employee * DayMeta * Resolution) : option Ledger.Grant :=
  if bool_decide (entitlementAction c.2 = "GRANT")
  then Some {| Ledger.g_employee := display c.1.1; Ledger.g_date := obj c.1.2 |}
  else None.

Definition revocationOf (c : Employee * DayMeta * Resolution)
    : option Ledger.Revocation :=
  if bool_decide (entitlementAction c.2 = "REVOKE")
  then Some {| Ledger.r_employee := display c.1.1;
               Ledger.r_dateStr := str c.1.2;
               Ledger.r_reason := finalStatus c.2 |}
  else None.

(** The rules of the Schedule_Rules rows accepted for an employee, in row
    order *)
Definition rulesFiledFor (sh : Sheet) (employee : string) : list Rule :=
  (filter (λ er, er.1 = employee)
     (omap (Rules.parseRuleRow (Helpers.mapHeaders (header sh))) (body sh))).*2.

(** The four columns [processRoster] requires of the header row *)
Definition rosterColumns (headerRow : list Cell) : option (nat * nat * nat * nat) :=
  let h := Helpers.mapHeaders headerRow in
  match WorkspaceProcessor.col h Tabs.roster_employee_id,
        WorkspaceProcessor.col h Tabs.roster_default_shift,
        WorkspaceProcessor.col h Tabs.roster_primary_off_day,
        WorkspaceProcessor.col h Tabs.roster_secondary_off_day with
  | Some e, Some b, Some w1, Some w2 => Some (e, b, w1, w2)
  | _, _, _, _ => None
  end.

End WithHost.
End Terms.

(** ** Further sample data *)

Module Samples2.
Import Resolver.

(** The sample decision matrix as a loaded context *)
Definition matrixContext : EngineContext :=
  {| mapping := ∅;
     matrixIndex := WorkspaceProcessor.buildMatrixIndex Samples.decisionMatrix;
     ledger := ∅; leaves := ∅; rules := ∅; holidays := ∅ |}.

(** 2025-03-10, a Monday inside the range of R-002 *)
Definition marchMonday : DayMeta :=
  {| obj := 1741564800000; str := "2025-03-10"; day := "MON" |}.

(** The sample matrix and a leave of the test user on that Monday, as in
    [TestHarness.js] *)
Definition leaveContext : EngineContext :=
  {| mapping := ∅;
     matrixIndex := WorkspaceProcessor.buildMatrixIndex Samples.decisionMatrix;
     ledger := ∅;
     leaves := {[ "test-user|2025-03-10" := "ANNUAL_LEAVE" ]};
     rules := ∅; holidays := ∅ |}.

(** The weekday in UTC: day 0 of the epoch was a Thursday *)
Definition utcCalendar : Calendar :=
  {| getDay d := ((Z.to_nat (d `div` 86400000) + 4) `mod` 7)%nat;
     getDay_range d :=
       Nat.mod_upper_bound (Z.to_nat (d `div` 86400000) + 4)%nat 7%nat
         (Nat.neq_succ_0 6) |}.

(** Monday 2025-02-03 and Tuesday 2025-02-04 *)
Definition feb03 : Date := 1738540800000.
Definition feb04 : Date := 1738627200000.

(** A roster tab: three rows of titles, the header in row 4, then an
    employee per row; one row has no id, one an id of blanks only. *)
Definition rosterData : list (list Cell) :=
  [ [CStr "Team roster"]; []; [CStr "Week 6"];
    [CStr "Employee ID"; CStr "Default Shift"; CStr "Primary Off Day";
     CStr "Secondary Off Day"; CDate feb03; CDate feb04; CStr "Remarks"];
    [CStr " EMP-1042 "; CStr "09:00 - 18:00"; CStr "Saturday"; CStr "Sunday";
     CStr ""; CStr ""; CStr ""];
    [CStr ""; CStr "09:00 - 18:00"; CStr "SAT"; CStr "SUN"; CStr ""; CStr "";
     CStr "vacant"];
    [CStr "emp-2087"; CStr "HAL1"; CStr "mon"; CStr "sun"; CStr ""; CStr "";
     CStr ""] ].

(** The sample matrix, 2025-02-03 a public holiday, and a comp day of
    emp-2087 on 2025-02-04 *)
Definition rosterContext : EngineContext :=
  {| mapping := ∅;
     matrixIndex := WorkspaceProcessor.buildMatrixIndex Samples.decisionMatrix;
     ledger := {[ "emp-2087|2025-02-04" := {| status := "COMP_DAY" |} ]};
     leaves := ∅; rules := ∅;
     holidays := {[ "2025-02-03" ]} |}.


(** A central database with the six tabs of [validateAllSchemas] *)
Definition configSheet : Sheet :=
  {| header := [CStr "Workspace_File_ID"; CStr "Status"];
     body :=
       [ [CStr " 1AbCdEfGhIjKlMnOpQrStUvWxYz "; CStr "Active"];
         [CStr "draft"; CStr "Active"];
         [CStr "1ZyXwVuTsRqPoNmLkJiHgFeDcBa"; CStr "Paused"] ] |}.

Definition decisionSheet : Sheet :=
  {| header := CStr <$> Tabs.decision_h;
     body :=
       (λ r, [CStr (row_base r); CStr (row_rule r); CStr (row_ph r);
              CStr (row_req r); CStr (row_finalStatus r); CStr (row_action r);
              CStr (row_reason r)]) <$> Samples.decisionMatrix |}.

Definition leavesSheet : Sheet :=
  {| header := CStr <$> Tabs.leaves_h;
     body := [ [CStr "emp-2087"; CDate feb03; CStr "ANNUAL"] ] |}.

Definition holidaysSheet : Sheet :=
  {| header := [CStr "Date"; CStr "Name"];
     body := [ [CDate feb03; CStr "Founders Day"]; [CStr ""; CStr ""] ] |}.

Definition centralDb : Spreadsheet :=
  {[ Tabs.config_name := configSheet;
     Tabs.rules_name := Samples.rulesSheet;
     Tabs.decision_name := decisionSheet;
     Tabs.ledger_name := Samples.ledgerSheet;
     Tabs.leaves_name := leavesSheet;
     Tabs.holidays_name := holidaysSheet ]}.

(** The Holidays tab with its header in another letter case *)
Definition holidaysUpper : Sheet :=
  {| header := [CStr "DATE"; CStr "Name"];
     body := [ [CDate feb03; CStr "Founders Day"] ] |}.

(** The rules sheet with its rows in the opposite order *)
Definition rulesSheetReversed : Sheet :=
  {| header := header Samples.rulesSheet;
     body := reverse (body Samples.rulesSheet) |}.

(** A revocation of a key the sample ledger does not have *)
Definition revoke9999 : Ledger.Revocation :=
  {| Ledger.r_employee := "emp-9999"; Ledger.r_dateStr := "2025-01-26";
     Ledger.r_reason := "WORK" |}.

End Samples2.


(* ===================================================================== *)
(** * Part II: properties                                                 *)
(* ===================================================================== *)

(** ** String comparison *)

Module JsFacts.
Section WithHost.
Context `{!Host}.

Lemma localeCompare_refl a : localeCompare a a = 0.
Proof. pose proof (localeCompare_flip a a). lia. Qed.

Lemma localeCompare_total a b : localeCompare a b <= 0 ∨ localeCompare b a <= 0.
Proof. pose proof (localeCompare_flip b a). lia. Qed.

Lemma localeCompare_nonpos_trans a b c :
  localeCompare a b <= 0 → localeCompare b c <= 0 → localeCompare a c <= 0.
Proof. apply localeCompare_trans. Qed.

End WithHost.
End JsFacts.

(** ** Winner selection ([findWinningRule]) *)

Module ResolverFacts.
Import Resolver Spec.

Section WithHost.
Context `{host : !Host}.

Lemma outranks_refl r : outranks r r.
Proof. right. split; [done|]. by rewrite JsFacts.localeCompare_refl. Qed.

Lemma outranks_trans a b c : outranks a b → outranks b c → outranks a c.
Proof.
  unfold outranks. intros [?|[? ?]] [?|[? ?]]; try (left; lia).
  right. split; [lia|]. by eapply JsFacts.localeCompare_nonpos_trans.
Qed.

Lemma outranks_antisym a b : outranks a b → outranks b a → tied a b.
Proof.
  intros [?|[? ?]] [?|[? ?]]; try lia.
  split; [lia|]. pose proof (localeCompare_flip (rule_id a) (rule_id b)). lia.
Qed.

Lemma pickWinner_sentinel prev curr :
  prio prev = -1 → pickWinner prev curr = curr.
Proof. intros E. unfold pickWinner. by rewrite bool_decide_eq_true_2. Qed.

Lemma pickWinner_either prev curr :
  pickWinner prev curr = curr ∨ pickWinner prev curr = prev.
Proof. unfold pickWinner. repeat case_match; auto. Qed.

Lemma pickWinner_cases prev curr :
  prio prev ≠ -1 →
  (pickWinner prev curr = curr ∧ outranks curr prev) ∨
  (pickWinner prev curr = prev ∧ outranks prev curr).
Proof.
  intros Hne. unfold pickWinner, outranks.
  rewrite bool_decide_eq_false_2 by done.
  case_bool_decide; [left; split; [done|left; lia]|].
  case_bool_decide; simpl.
  - case_bool_decide.
    + left. split; [done|]. right. split; [lia|].
      pose proof (localeCompare_flip (rule_id prev) (rule_id curr)). lia.
    + right. split; [done|]. right. split; [lia|]. lia.
  - right. split; [done|]. left. lia.
Qed.

Lemma foldl_pickWinner_elem l : ∀ acc,
  foldl pickWinner acc l = acc ∨ foldl pickWinner acc l ∈ l.
Proof.
  induction l as [|x l IH]; intros acc; simpl; [by left|].
  destruct (IH (pickWinner acc x)) as [E|Hin]; [|right; by right].
  rewrite E. destruct (pickWinner_either acc x) as [->| ->]; [right; left|by left].
Qed.

Lemma foldl_pickWinner l : ∀ acc,
  0 <= prio acc → Forall (λ r, 0 <= prio r) l →
  let w := foldl pickWinner acc l in
  (w = acc ∨ w ∈ l) ∧ 0 <= prio w ∧ outranks w acc ∧ Forall (outranks w) l.
Proof.
  induction l as [|x l IH]; intros acc Hacc Hl; simpl.
  - repeat split; auto using outranks_refl.
  - apply Forall_cons in Hl as [Hx Hl].
    destruct (pickWinner_cases acc x) as [[E O]|[E O]]; [lia|..]; rewrite E.
    + destruct (IH x Hx Hl) as (Hin & Hp & Ho & Hall).
      split_and!; [|done|by eapply outranks_trans|by constructor].
      right. destruct Hin as [->|?]; [left|right]; done.
    + destruct (IH acc Hacc Hl) as (Hin & Hp & Ho & Hall).
      split_and!; [|done|done|constructor; [by eapply outranks_trans|done]].
      destruct Hin as [->|?]; [by left|right; by right].
Qed.

Lemma findWinningRule_nil rules ty :
  filter (λ r, rule_type r = ty) rules = [] → findWinningRule rules ty = emptyRule.
Proof. unfold findWinningRule. by intros ->. Qed.

Lemma findWinningRule_elem rules ty :
  findWinningRule rules ty = emptyRule ∨
  findWinningRule rules ty ∈ filter (λ r, rule_type r = ty) rules.
Proof. apply foldl_pickWinner_elem. Qed.

Lemma findWinningRule_outranks rules ty :
  Forall (λ r, rule_type r = ty → 0 <= prio r) rules →
  filter (λ r, rule_type r = ty) rules ≠ [] →
  let w := findWinningRule rules ty in
  w ∈ filter (λ r, rule_type r = ty) rules ∧
  Forall (outranks w) (filter (λ r, rule_type r = ty) rules).
Proof.
  intros Hall Hne. unfold findWinningRule.
  assert (Forall (λ r, 0 <= prio r) (filter (λ r, rule_type r = ty) rules)) as Hc.
  { apply Forall_forall. intros r [Hty Hr]%list_elem_of_filter.
    rewrite Forall_forall in Hall. by apply Hall. }
  destruct (filter (λ r, rule_type r = ty) rules) as [|x l]; [done|].
  simpl. rewrite pickWinner_sentinel by done.
  apply Forall_cons in Hc as [Hx Hl].
  destruct (foldl_pickWinner l x Hx Hl) as (Hin & _ & Ho & Hrest).
  split; [|by constructor].
  destruct Hin as [->|?]; [left|by right].
Qed.

End WithHost.

Section OnSamples.
#[local] Existing Instance Samples.utcHost.

(** C10, evaluated where it fails. Two day-pattern rules of priority 5
    whose ids differ in a control character that the collation ignores: the
    priorities are not negative and the (priority, id) pairs are distinct,
    but [localeCompare] reports the ids equal, so neither rule replaces the
    other in the fold and the one listed first is returned. The result
    depends on the order of the list, and listed first the rule of the
    lexicographically lesser id wins the tie. *)
Theorem findWinningRule_equal_ids_is_order_dependent :
  0 <= prio Samples.R_tie1 ∧ 0 <= prio Samples.R_tie2 ∧
  rule_type Samples.R_tie1 = "DAY_PATTERN" ∧
  rule_type Samples.R_tie2 = "DAY_PATTERN" ∧
  NoDup [(prio Samples.R_tie1, rule_id Samples.R_tie1);
         (prio Samples.R_tie2, rule_id Samples.R_tie2)] ∧
  Js.le (rule_id Samples.R_tie2) (rule_id Samples.R_tie1) = false ∧
  @findWinningRule Samples.utcHost [Samples.R_tie1; Samples.R_tie2] "DAY_PATTERN"
    = Samples.R_tie1 ∧
  @findWinningRule Samples.utcHost [Samples.R_tie2; Samples.R_tie1] "DAY_PATTERN"
    = Samples.R_tie2 ∧
  Samples.R_tie1 ≠ Samples.R_tie2.
Proof.
  split_and!; [by vm_compute|by vm_compute|reflexivity|reflexivity| |
               by vm_compute|by vm_compute|by vm_compute|by vm_compute].
  apply (bool_decide_unpack _). vm_compute. exact I.
Qed.

(** C1, evaluated where it fails. Two active day-pattern rules with
    priorities -1 and -5: listed with the priority -1 rule first, the rule of
    priority -5 is selected; listed the other way round, the rule of
    priority -1 is. *)
Theorem findWinningRule_minus_one_is_order_dependent :
  prio Samples.R_low1 > prio Samples.R_low5 ∧
  rule_type Samples.R_low1 = rule_type Samples.R_low5 ∧
  @findWinningRule Samples.utcHost [Samples.R_low1; Samples.R_low5] "DAY_PATTERN"
    = Samples.R_low5 ∧
  @findWinningRule Samples.utcHost [Samples.R_low5; Samples.R_low1] "DAY_PATTERN"
    = Samples.R_low1.
Proof. split_and!; [by vm_compute|reflexivity|by vm_compute|by vm_compute]. Qed.

(** ** The two passes and the error row ([resolveEmployeeDay]) *)

End OnSamples.

Section WithHost.
Context `{host : !Host}.

Lemma pass2_isWorkDay emp activeRules st :
  isWorkDay (pass2 emp activeRules st) = isWorkDay st.
Proof. unfold pass2. repeat case_match; done. Qed.

Lemma pass2_fallback emp activeRules st :
  isWorkDay st = true →
  rule_id (findWinningRule activeRules "SHIFT_OVERRIDE") ≠ "" →
  shiftText (shift (findWinningRule activeRules "SHIFT_OVERRIDE")) = "" ∨
  shiftText (shift (findWinningRule activeRules "SHIFT_OVERRIDE")) = "OFF" →
  currentShift (pass2 emp activeRules st) = baseShift emp.
Proof.
  intros Hw Hid Hs. unfold pass2. rewrite Hw.
  rewrite bool_decide_eq_false_2 by done.
  destruct Hs as [-> | ->]; reflexivity.
Qed.

(** C2. When base determination and Pass 1 leave the day WORK, it is still
    WORK after Pass 2, whatever the active rules are; and a winning
    SHIFT_OVERRIDE rule whose shift reads empty or OFF only sets the shift
    back to the employee's base shift. *)
Theorem pass2_never_turns_off (emp : Employee) (meta : DayMeta)
    (ctx : EngineContext) (rules : list Rule) :
  let activeRules := activeRulesOf meta rules in
  let st1 := pass1 emp meta activeRules (baseState emp meta) in
  let st2 := stateAfterPasses emp meta rules in
  let winningSHIFT := findWinningRule activeRules "SHIFT_OVERRIDE" in
  isWorkDay st1 = true →
  isWorkDay st2 = true ∧
  flagOf (isWorkDay st2) = "WORK" ∧
  ruleFlag (flagsOf emp meta ctx st2) ≠ "OFF" ∧
  (rule_id winningSHIFT ≠ "" →
   shiftText (shift winningSHIFT) = "" ∨ shiftText (shift winningSHIFT) = "OFF" →
   currentShift st2 = baseShift emp).
Proof.
  intros activeRules st1 st2 winningSHIFT Hw.
  assert (isWorkDay st2 = true) as Hw2.
  { unfold st2, stateAfterPasses. by rewrite pass2_isWorkDay. }
  split_and!; [done|by rewrite Hw2| |].
  - unfold flagsOf; simpl. rewrite Hw2. simpl. by case_bool_decide.
  - intros Hid Hs. by apply pass2_fallback.
Qed.

End WithHost.

Section OnSamples.
#[local] Existing Instance Samples.utcHost.

Lemma pass2_never_turns_off_witness :
  isWorkDay (pass1 Samples.testUser Samples.monday
               (activeRulesOf Samples.monday [Samples.R_off])
               (baseState Samples.testUser Samples.monday)) = true ∧
  isWorkDay (stateAfterPasses Samples.testUser Samples.monday [Samples.R_off]) = true ∧
  currentShift (stateAfterPasses Samples.testUser Samples.monday [Samples.R_off])
    = "09:00-18:00".
Proof.
  assert (isWorkDay (pass1 Samples.testUser Samples.monday
               (activeRulesOf Samples.monday [Samples.R_off])
               (baseState Samples.testUser Samples.monday)) = true) as Hw
    by (by vm_compute).
  split; [exact Hw|].
  destruct (pass2_never_turns_off Samples.testUser Samples.monday
              Samples.emptyContext [Samples.R_off] Hw) as (H1 & _ & _ & H2).
  split; [exact H1|].
  apply H2; [by vm_compute|right; by vm_compute].
Defined.

End OnSamples.

Section WithHost.
Context `{host : !Host}.

(** C3. When the decision-matrix lookup finds no matching row for the
    computed flags, [resolveEmployeeDay] returns (as a value) the result
    with final status ERROR and entitlement action NONE whose audit row is
    the error row: status ERROR, empty final shift, reason Missing Logic,
    weight 0. *)
Theorem resolveEmployeeDay_missing_logic (emp : Employee) (meta : DayMeta)
    (ctx : EngineContext) (rules : list Rule) :
  let st := stateAfterPasses emp meta rules in
  lookupMatrix (matrixIndex ctx) (flagsOf emp meta ctx st) = None →
  let res := resolveEmployeeDay emp meta ctx rules in
  finalStatus res = "ERROR" ∧
  entitlementAction res = "NONE" ∧
  Final_Status (row res) = "ERROR" ∧
  Final_Shift (row res) = "" ∧
  Reason (row res) = "Missing Logic" ∧
  Final_Val (row res) = val_0 ∧
  Note (row res) = "ERROR_TRACE" ∧
  Key (row res) = emp_id emp +:+ "|" +:+ str meta.
Proof.
  intros st Hnone res. unfold res, resolveEmployeeDay.
  fold (stateAfterPasses emp meta rules). fold st. rewrite Hnone.
  by split_and!.
Qed.

End WithHost.

Section OnSamples.
#[local] Existing Instance Samples.utcHost.

Lemma resolveEmployeeDay_missing_logic_witness :
  lookupMatrix (matrixIndex Samples.emptyContext)
    (flagsOf Samples.testUser Samples.monday Samples.emptyContext
       (stateAfterPasses Samples.testUser Samples.monday [Samples.R_002])) = None ∧
  finalStatus (resolveEmployeeDay Samples.testUser Samples.monday
                 Samples.emptyContext [Samples.R_002]) = "ERROR" ∧
  Reason (row (resolveEmployeeDay Samples.testUser Samples.monday
                 Samples.emptyContext [Samples.R_002])) = "Missing Logic".
Proof.
  assert (lookupMatrix (matrixIndex Samples.emptyContext)
    (flagsOf Samples.testUser Samples.monday Samples.emptyContext
       (stateAfterPasses Samples.testUser Samples.monday [Samples.R_002])) = None)
    as Hnone by (by vm_compute).
  split; [exact Hnone|].
  destruct (resolveEmployeeDay_missing_logic Samples.testUser Samples.monday
              Samples.emptyContext [Samples.R_002] Hnone)
    as (H1 & _ & _ & _ & H5 & _).
  split; [exact H1|exact H5].
Defined.

End OnSamples.

End ResolverFacts.

(** ** The decision-matrix index ([loadContext]) and its lookup *)

Module MatrixFacts.
Import Resolver WorkspaceProcessor Spec.
Local Open Scope nat_scope.

Lemma append_cons c a b : String c a +:+ b = String c (a +:+ b).
Proof. reflexivity. Qed.

Lemma append_nil b : "" +:+ b = b.
Proof. reflexivity. Qed.

Lemma countPipes_app a b : countPipes (a +:+ b) = countPipes a + countPipes b.
Proof.
  induction a as [|c a IH]; [done|].
  rewrite append_cons. simpl. rewrite IH. lia.
Qed.

Lemma pipe_split_inj a : ∀ a' s s',
  countPipes a = 0 → countPipes a' = 0 →
  a +:+ "|" +:+ s = a' +:+ "|" +:+ s' → a = a' ∧ s = s'.
Proof.
  induction a as [|c a IH]; intros [|c' a'] s s' Ha Ha' E.
  - rewrite !append_nil in E. by simplify_eq.
  - rewrite append_nil, !append_cons in E. by simplify_eq.
  - rewrite append_nil, !append_cons in E. by simplify_eq.
  - rewrite !append_cons in E. simplify_eq. simpl in Ha, Ha'.
    destruct (IH a' s s') as [-> ->]; [lia|lia|done|done].
Qed.

Lemma join4_inj b1 r1 p1 q1 b2 r2 p2 q2 :
  countPipes b2 = 0 → countPipes r2 = 0 → countPipes p2 = 0 → countPipes q2 = 0 →
  b1 +:+ "|" +:+ r1 +:+ "|" +:+ p1 +:+ "|" +:+ q1 =
  b2 +:+ "|" +:+ r2 +:+ "|" +:+ p2 +:+ "|" +:+ q2 →
  b1 = b2 ∧ r1 = r2 ∧ p1 = p2 ∧ q1 = q2.
Proof.
  intros Hb Hr Hp Hq E.
  pose proof (f_equal countPipes E) as Hc.
  rewrite !countPipes_app, Hb, Hr, Hp, Hq in Hc. simpl in Hc.
  apply pipe_split_inj in E as [-> E]; [|lia|done].
  apply pipe_split_inj in E as [-> E]; [|lia|done].
  apply pipe_split_inj in E as [-> E]; [|lia|done].
  done.
Qed.

Lemma bind_ext {A B} (g g' : A → list B) l :
  (∀ x, g x = g' x) → l ≫= g = l ≫= g'.
Proof.
  intros E. induction l as [|x l IH]; [done|]. by rewrite !bind_cons, E, IH.
Qed.

Lemma filter_bind {A B} (P : B → Prop) `{!∀ x, Decision (P x)}
    (g : A → list B) l :
  filter P (l ≫= g) = l ≫= (λ x, filter P (g x)).
Proof.
  induction l as [|x l IH]; [done|]. by rewrite !bind_cons, filter_app, IH.
Qed.

(** Binding over a duplicate-free list a function that answers [[k]] at one
    element only *)
Lemma bind_pick {A B} `{!EqDecision A} (l : list A) (a : A) (c : bool)
    (k : B) (g : A → list B) :
  NoDup l →
  (∀ x, g x = if c && bool_decide (x = a) then [k] else []) →
  l ≫= g = if c && bool_decide (a ∈ l) then [k] else [].
Proof.
  intros Hnd Hg. induction Hnd as [|x l Hx Hnd IH].
  - rewrite bool_decide_eq_false_2 by set_solver. by rewrite andb_false_r.
  - rewrite bind_cons, IH, Hg. destruct c; simpl; [|done].
    destruct (decide (x = a)) as [->|Hne].
    + rewrite bool_decide_eq_true_2 by done.
      rewrite (bool_decide_eq_false_2 (a ∈ l)) by done.
      rewrite bool_decide_eq_true_2 by set_solver. done.
    + rewrite bool_decide_eq_false_2 by done. simpl.
      destruct (decide (a ∈ l)).
      * rewrite !bool_decide_eq_true_2 by set_solver. done.
      * rewrite !bool_decide_eq_false_2 by set_solver. done.
Qed.

Lemma accepts_bases row v :
  v ∈ ["WORK"; "OFF"] → bool_decide (v ∈ bases row) = accepts (row_base row) v.
Proof.
  intros Hv. unfold bases, accepts. destruct (isWildcard (row_base row)); simpl.
  - by apply bool_decide_eq_true_2.
  - apply bool_decide_ext. set_solver.
Qed.

Lemma accepts_ruleImpacts row v :
  v ∈ ["WORK"; "OFF"; "NONE"] →
  bool_decide (v ∈ ruleImpacts row) = accepts (row_rule row) v.
Proof.
  intros Hv. unfold ruleImpacts, accepts. destruct (isWildcard (row_rule row)); simpl.
  - by apply bool_decide_eq_true_2.
  - apply bool_decide_ext. set_solver.
Qed.

Lemma accepts_phs row v :
  v ∈ ["TRUE"; "FALSE"] → bool_decide (v ∈ phs row) = accepts (row_ph row) v.
Proof.
  intros Hv. unfold phs, accepts. destruct (isWildcard (row_ph row)); simpl.
  - by apply bool_decide_eq_true_2.
  - apply bool_decide_ext. set_solver.
Qed.

Lemma accepts_reqs row v :
  v ∈ ["NONE"; "COMP_DAY"; "LEAVE"] →
  bool_decide (v ∈ reqs row) = accepts (row_req row) v.
Proof.
  intros Hv. unfold reqs, accepts. destruct (isWildcard (row_req row)); simpl.
  - by apply bool_decide_eq_true_2.
  - apply bool_decide_ext. set_solver.
Qed.

Lemma NoDup_dims row :
  NoDup (bases row) ∧ NoDup (ruleImpacts row) ∧ NoDup (phs row) ∧ NoDup (reqs row).
Proof.
  unfold bases, ruleImpacts, phs, reqs.
  split_and!; case_match; first [apply NoDup_singleton | by apply (bool_decide_unpack _)].
Qed.

Lemma concrete_pipe_free f :
  concreteFlags f →
  countPipes (baseFlag f) = 0 ∧ countPipes (ruleFlag f) = 0 ∧
  countPipes (holidayFlag f) = 0 ∧ countPipes (reqFlag f) = 0.
Proof.
  intros (Hb & Hr & Hp & Hq).
  split_and!.
  - repeat (apply elem_of_cons in Hb as [->|Hb]; [done|]). by apply elem_of_nil in Hb.
  - repeat (apply elem_of_cons in Hr as [->|Hr]; [done|]). by apply elem_of_nil in Hr.
  - repeat (apply elem_of_cons in Hp as [->|Hp]; [done|]). by apply elem_of_nil in Hp.
  - repeat (apply elem_of_cons in Hq as [->|Hq]; [done|]). by apply elem_of_nil in Hq.
Qed.

(** A row is pushed into the bucket of a concrete key once if it covers the
    key, and not at all otherwise. *)
Lemma expandKeys_hits row f :
  concreteFlags f →
  filter (λ k, k = flagsKey f) (expandKeys row) =
  if covers f row then [flagsKey f] else [].
Proof.
  intros Hf. pose proof (concrete_pipe_free f Hf) as (Pb & Pr & Pp & Pq).
  destruct Hf as (Hb & Hr & Hp & Hq).
  destruct (NoDup_dims row) as (Nb & Nr & Np & Nq).
  unfold expandKeys, covers.
  rewrite <- (accepts_bases row _ Hb), <- (accepts_ruleImpacts row _ Hr),
    <- (accepts_phs row _ Hp), <- (accepts_reqs row _ Hq).
  rewrite filter_bind.
  set (cr := bool_decide (ruleFlag f ∈ ruleImpacts row)).
  set (cp := bool_decide (holidayFlag f ∈ phs row)).
  set (cq := bool_decide (reqFlag f ∈ reqs row)).
  rewrite (bind_pick (bases row) (baseFlag f) (cr && cp && cq) (flagsKey f)); [|done|].
  { by destruct (bool_decide (baseFlag f ∈ bases row)), cr, cp, cq. }
  intros b. rewrite filter_bind.
  rewrite (bind_pick (ruleImpacts row) (ruleFlag f)
             (bool_decide (b = baseFlag f) && cp && cq) (flagsKey f)); [|done|].
  { fold cr. by destruct (bool_decide (b = baseFlag f)), cr, cp, cq. }
  intros r. rewrite filter_bind.
  rewrite (bind_pick (phs row) (holidayFlag f)
             (bool_decide (b = baseFlag f) && bool_decide (r = ruleFlag f) && cq)
             (flagsKey f)); [|done|].
  { fold cp. by destruct (bool_decide (b = baseFlag f)),
      (bool_decide (r = ruleFlag f)), cp, cq. }
  intros p. rewrite filter_bind.
  rewrite (bind_pick (reqs row) (reqFlag f)
             (bool_decide (b = baseFlag f) && bool_decide (r = ruleFlag f) &&
              bool_decide (p = holidayFlag f))
             (flagsKey f)); [|done|].
  { fold cq. by destruct (bool_decide (b = baseFlag f)),
      (bool_decide (r = ruleFlag f)), (bool_decide (p = holidayFlag f)), cq. }
  intros q. rewrite filter_cons, filter_nil.
  destruct (decide (b +:+ "|" +:+ r +:+ "|" +:+ p +:+ "|" +:+ q = flagsKey f)) as [E|NE].
  - rewrite E. apply join4_inj in E as (-> & -> & -> & ->); [|done..].
    by rewrite !bool_decide_eq_true_2.
  - destruct (bool_decide (b = baseFlag f) && bool_decide (r = ruleFlag f) &&
              bool_decide (p = holidayFlag f) && bool_decide (q = reqFlag f)) eqn:C;
      [|done].
    exfalso. apply NE. rewrite !andb_true_iff in C.
    destruct C as [[[Cb Cr] Cp] Cq].
    apply bool_decide_eq_true in Cb, Cr, Cp, Cq. by subst.
Qed.

Lemma pushRow_fold row ks : ∀ m k,
  default [] (foldl (pushRow row) m ks !! k) =
  default [] (m !! k) ++ ((λ _, row) <$> filter (λ k', k' = k) ks).
Proof.
  induction ks as [|k1 ks IH]; intros m k; simpl; [by rewrite app_nil_r|].
  rewrite IH. unfold pushRow. rewrite filter_cons.
  destruct (decide (k1 = k)) as [->|Hne].
  - rewrite lookup_insert_eq. simpl. by rewrite <- app_assoc.
  - by rewrite lookup_insert_ne.
Qed.

Lemma indexRow_bucket m row f :
  concreteFlags f →
  default [] (indexRow m row !! flagsKey f) =
  default [] (m !! flagsKey f) ++ (if covers f row then [row] else []).
Proof.
  intros Hf. unfold indexRow. rewrite pushRow_fold, expandKeys_hits by done.
  by destruct (covers f row).
Qed.

Lemma buildMatrixIndex_bucket rows f : ∀ m,
  concreteFlags f →
  default [] (foldl indexRow m rows !! flagsKey f) =
  default [] (m !! flagsKey f) ++ List.filter (covers f) rows.
Proof.
  induction rows as [|row rows IH]; intros m Hf; simpl; [by rewrite app_nil_r|].
  rewrite IH, indexRow_bucket by done.
  destruct (covers f row); simpl; [by rewrite <- app_assoc|by rewrite app_nil_r].
Qed.

Ltac known_value H :=
  repeat (apply elem_of_cons in H as [->|H]; [by apply (bool_decide_unpack _)|]);
  by apply elem_of_nil in H.

Lemma checkMatch_accepts c v :
  v ∈ ["WORK"; "OFF"; "NONE"; "TRUE"; "FALSE"; "COMP_DAY"; "LEAVE"] →
  accepts c v = true → Helpers.checkMatch c v = true.
Proof.
  intros Hv. unfold accepts, isWildcard.
  intros [[E|E]%orb_true_iff|E]%orb_true_iff; apply bool_decide_eq_true in E; subst c.
  - done.
  - done.
  - repeat (apply elem_of_cons in Hv as [->|Hv]; [by vm_compute|]).
    by apply elem_of_nil in Hv.
Qed.

Lemma covers_rowMatches f row :
  concreteFlags f → covers f row = true → rowMatches f row = true.
Proof.
  intros (Hb & Hr & Hp & Hq). unfold covers, rowMatches.
  rewrite !andb_true_iff. intros [[[Cb Cr] Cp] Cq].
  split_and!; apply checkMatch_accepts; try done;
    [known_value Hb|known_value Hr|known_value Hp|known_value Hq].
Qed.

Lemma find_filter_covers f rows :
  concreteFlags f →
  List.find (rowMatches f) (List.filter (covers f) rows) = List.find (covers f) rows.
Proof.
  intros Hf. induction rows as [|row rows IH]; simpl; [done|].
  destruct (covers f row) eqn:Hc; [|done].
  simpl. by rewrite covers_rowMatches.
Qed.

Lemma lookupMatrix_find rows f :
  concreteFlags f →
  lookupMatrix (buildMatrixIndex rows) f = List.find (covers f) rows.
Proof.
  intros Hf. unfold lookupMatrix, buildMatrixIndex.
  rewrite buildMatrixIndex_bucket by done. rewrite lookup_empty. simpl.
  by apply find_filter_covers.
Qed.


(** The key [resolveEmployeeDay] looks up is always one of concrete flags. *)
Lemma flagsOf_concrete emp meta ctx st : concreteFlags (flagsOf emp meta ctx st).
Proof.
  unfold concreteFlags, flagsOf, flagOf, entitlementInput, leaveInput. simpl.
  split_and!.
  - destruct (baseIsWorkOf emp meta); by apply (bool_decide_unpack _).
  - destruct (isWorkDay st), (baseIsWorkOf emp meta); simpl;
      by apply (bool_decide_unpack _).
  - case_bool_decide; by apply (bool_decide_unpack _).
  - destruct (leaves ctx !! _) as [lv|]; [destruct (bool_decide (lv = ""))|];
      destruct (ledger ctx !! _) as [led|]; simpl;
      repeat case_match; simpl; by apply (bool_decide_unpack _).
Qed.

Lemma accepts_literalDim c v : accepts (literalDim c v) v = accepts c v.
Proof.
  unfold literalDim, accepts. destruct (isWildcard c) eqn:E; simpl; [|by rewrite E].
  rewrite bool_decide_eq_true_2 by done. by rewrite orb_true_r.
Qed.

Lemma covers_literalRow f row : covers f (literalRow f row) = covers f row.
Proof. unfold covers. simpl. by rewrite !accepts_literalDim. Qed.

Lemma find_covers_literal f row after : ∀ before,
  outcome <$> List.find (covers f) (before ++ literalRow f row :: after) =
  outcome <$> List.find (covers f) (before ++ row :: after).
Proof.
  induction before as [|x before IH]; simpl.
  - rewrite covers_literalRow. by destruct (covers f row).
  - by destruct (covers f x).
Qed.

(** C4. On every decision table and every key of concrete flags, the
    indexed lookup returns the first row, in source order, each of whose
    four criteria is a wildcard (ANY or IGNORED) or the key's value; a
    wildcard criterion accepts, and matches, every value; every covering
    row passes the wildcard-aware re-check; the key the resolver computes
    is always one of concrete flags; and replacing a row by its
    literal instance for the key leaves the final status, entitlement action
    and reason of the lookup unchanged. *)
Theorem wildcard_lookup (rows : list DecisionMatrixRow) (f : Flags) :
  concreteFlags f →
  lookupMatrix (buildMatrixIndex rows) f = List.find (covers f) rows ∧
  (∀ c v, isWildcard c = true →
          accepts c v = true ∧ Helpers.checkMatch c v = true) ∧
  (∀ row, covers f row = true → rowMatches f row = true) ∧
  (∀ emp meta ctx st, concreteFlags (flagsOf emp meta ctx st)) ∧
  (∀ before row after, rows = before ++ row :: after →
     outcome <$> lookupMatrix (buildMatrixIndex (before ++ literalRow f row :: after)) f =
     outcome <$> lookupMatrix (buildMatrixIndex rows) f).
Proof.
  intros Hf. split_and!.
  - by apply lookupMatrix_find.
  - intros c v Hw. split; [unfold accepts; by rewrite Hw|].
    unfold isWildcard in Hw.
    apply orb_true_iff in Hw as [E|E]; apply bool_decide_eq_true in E; by subst c.
  - intros row. by apply covers_rowMatches.
  - apply flagsOf_concrete.
  - intros before row after ->.
    rewrite !lookupMatrix_find by done. apply find_covers_literal.
Qed.

Lemma wildcard_lookup_witness :
  concreteFlags Samples.leaveOnHoliday ∧
  outcome <$> lookupMatrix (buildMatrixIndex Samples.decisionMatrix)
                Samples.leaveOnHoliday =
  Some ("LEAVE", "NONE", "Leave takes precedence over all").
Proof.
  assert (concreteFlags Samples.leaveOnHoliday) as Hf.
  { unfold concreteFlags. simpl. split_and!; by apply (bool_decide_unpack _). }
  split; [exact Hf|].
  destruct (wildcard_lookup Samples.decisionMatrix Samples.leaveOnHoliday Hf)
    as (-> & _ & _ & _ & _).
  reflexivity.
Defined.

End MatrixFacts.

(** ** The rule index ([parseRules]) *)

Module RulesFacts.
Import Resolver Rules Spec.

(** *** Insertion sort *)

Section Sorting.
Context {A : Type} (cmp : A → A → Z).
Hypothesis cmp_total : ∀ a b, cmp a b <= 0 ∨ cmp b a <= 0.
Hypothesis cmp_trans : ∀ a b c, cmp a b <= 0 → cmp b c <= 0 → cmp a c <= 0.

Lemma insertBy_Permutation x l : insertBy cmp x l ≡ₚ x :: l.
Proof.
  induction l as [|y l IH]; simpl; [done|].
  case_bool_decide; [done|]. by rewrite IH, Permutation_swap.
Qed.

Lemma sortBy_Permutation l : sortBy cmp l ≡ₚ l.
Proof.
  induction l as [|x l IH]; simpl; [done|].
  by rewrite insertBy_Permutation, IH.
Qed.

Lemma insertBy_sorted x l :
  StronglySorted (λ a b, cmp a b <= 0) l →
  StronglySorted (λ a b, cmp a b <= 0) (insertBy cmp x l).
Proof.
  induction 1 as [|y l Hs IH Hy]; simpl.
  - repeat constructor.
  - case_bool_decide as Hxy.
    + constructor; [by constructor|]. constructor; [done|].
      eapply Forall_impl; [exact Hy|]. intros z Hz. by eapply cmp_trans.
    + constructor; [done|].
      rewrite insertBy_Permutation. constructor; [|done].
      destruct (cmp_total x y); [done|lia].
Qed.

Lemma sortBy_sorted l : StronglySorted (λ a b, cmp a b <= 0) (sortBy cmp l).
Proof.
  induction l as [|x l IH]; simpl; [constructor|]. by apply insertBy_sorted.
Qed.

End Sorting.

Lemma StronglySorted_split {A} (R : A → A → Prop) l1 a l2 b l3 :
  StronglySorted R (l1 ++ a :: l2 ++ b :: l3) → R a b.
Proof.
  intros Hs. apply StronglySorted_app_1_r in Hs.
  apply StronglySorted_inv in Hs as [_ Hall].
  rewrite Forall_forall in Hall. apply Hall. set_solver.
Qed.

(** *** The comparator *)

Section WithHost.
Context `{!Host}.

Lemma compareRules_nonpos a b :
  compareRules a b <= 0 ↔
  typeKey a < typeKey b ∨
  (typeKey a = typeKey b ∧
   (freqKey a < freqKey b ∨
    (freqKey a = freqKey b ∧
     (prio b < prio a ∨
      (prio a = prio b ∧ localeCompare (rule_id a) (rule_id b) <= 0))))).
Proof.
  unfold compareRules. fold (typeKey a) (typeKey b) (freqKey a) (freqKey b).
  assert (typeKey a = 0 ∨ typeKey a = 1) by (unfold typeKey; case_bool_decide; auto).
  assert (typeKey b = 0 ∨ typeKey b = 1) by (unfold typeKey; case_bool_decide; auto).
  assert (freqKey a = 0 ∨ freqKey a = 1)
    by (unfold freqKey; case_bool_decide; simpl; auto).
  assert (freqKey b = 0 ∨ freqKey b = 1)
    by (unfold freqKey; case_bool_decide; simpl; auto).
  repeat (case_bool_decide; simpl); lia.
Qed.

Lemma compareRules_total a b : compareRules a b <= 0 ∨ compareRules b a <= 0.
Proof.
  rewrite !compareRules_nonpos.
  pose proof (JsFacts.localeCompare_total (rule_id a) (rule_id b)). lia.
Qed.

Lemma compareRules_trans a b c :
  compareRules a b <= 0 → compareRules b c <= 0 → compareRules a c <= 0.
Proof.
  rewrite !compareRules_nonpos. intros Hab Hbc.
  destruct (decide (prio a = prio b ∧ prio b = prio c ∧
                    localeCompare (rule_id a) (rule_id b) <= 0 ∧
                    localeCompare (rule_id b) (rule_id c) <= 0))
    as [(? & ? & Hid1 & Hid2)|Hn].
  - pose proof (JsFacts.localeCompare_nonpos_trans _ _ _ Hid1 Hid2). lia.
  - lia.
Qed.


Lemma compareRules_order a b :
  compareRules a b <= 0 →
  (rule_type b = "DAY_PATTERN" → rule_type a = "DAY_PATTERN") ∧
  (sameSortKind a b → freq a = "ALL" → freq b = "ALL") ∧
  (sameSortKind a b → sameFreqClass a b → prio b <= prio a) ∧
  (sameSortKind a b → sameFreqClass a b → prio a = prio b →
   localeCompare (rule_id a) (rule_id b) <= 0).
Proof.
  rewrite compareRules_nonpos. unfold typeKey, freqKey, sameSortKind, sameFreqClass.
  intros Hle. split_and!; intros; repeat case_bool_decide; simpl in *;
    first [done | lia | tauto].
Qed.

Lemma findWinningRule_pair a b :
  rule_type a = rule_type b → prio b < prio a → prio a ≠ -1 →
  findWinningRule [a; b] (rule_type a) = a ∧
  findWinningRule [b; a] (rule_type a) = a.
Proof.
  intros Hty Hlt Hne. unfold findWinningRule.
  rewrite !filter_cons, filter_nil.
  rewrite !decide_True by done. simpl.
  rewrite (ResolverFacts.pickWinner_sentinel emptyRule) by done.
  split.
  - unfold pickWinner. rewrite bool_decide_eq_false_2 by done.
    rewrite bool_decide_eq_false_2 by lia.
    rewrite (bool_decide_eq_false_2 (prio b = prio a)) by lia. done.
  - rewrite (ResolverFacts.pickWinner_sentinel emptyRule) by done.
    unfold pickWinner. case_bool_decide; [done|].
    by rewrite bool_decide_eq_true_2 by lia.
Qed.

(** *** What [parseRules] files under an employee *)

Lemma fileRule_keeps ers : ∀ m e r l0,
  m !! e = Some l0 → r ∈ l0 →
  ∃ l, foldl fileRule m ers !! e = Some l ∧ r ∈ l.
Proof.
  induction ers as [|[e1 r1] ers IH]; intros m e r l0 Hm Hr; simpl; [by eauto|].
  unfold fileRule at 2. simpl.
  destruct (decide (e1 = e)) as [->|Hne].
  - eapply IH; [apply lookup_insert_eq|]. rewrite Hm. simpl. set_solver.
  - eapply IH; [by rewrite lookup_insert_ne|done].
Qed.

Lemma fileRule_files ers : ∀ m e r,
  (e, r) ∈ ers → ∃ l, foldl fileRule m ers !! e = Some l ∧ r ∈ l.
Proof.
  induction ers as [|[e1 r1] ers IH]; intros m e r Hin; [by apply elem_of_nil in Hin|].
  apply elem_of_cons in Hin as [E|Hin]; simpl.
  - simplify_eq. eapply fileRule_keeps; [apply lookup_insert_eq|]. set_solver.
  - by apply IH.
Qed.

Lemma parseRules_sorted sh e l :
  parseRules sh !! e = Some l → ∃ l0, l = sortBy compareRules l0.
Proof.
  unfold parseRules. destruct sh as [sh|]; [|by rewrite lookup_empty].
  case_bool_decide; [|by rewrite lookup_empty].
  rewrite lookup_fmap. intros [l0 [_ ->]]%fmap_Some. by exists l0.
Qed.

Lemma parseRules_keeps sh row e r :
  is_Some (WorkspaceProcessor.col (Helpers.mapHeaders (header sh)) Config.rules_status) →
  row ∈ body sh →
  parseRuleRow (Helpers.mapHeaders (header sh)) row = Some (e, r) →
  ∃ l, parseRules (Some sh) !! e = Some l ∧ r ∈ l.
Proof.
  intros Hst Hrow Hp. unfold parseRules. rewrite bool_decide_eq_true_2 by done.
  destruct (fileRule_files
              (omap (parseRuleRow (Helpers.mapHeaders (header sh))) (body sh)) ∅ e r)
    as (l0 & Hl0 & Hr).
  { apply list_elem_of_omap. by exists row. }
  exists (sortBy compareRules l0). split.
  - rewrite lookup_fmap. unfold collectRules. by rewrite Hl0.
  - by rewrite (sortBy_Permutation compareRules l0).
Qed.

Lemma parseRuleRow_accepts h row :
  is_Some (parseRuleRow h row) ↔
  Js.includes (Js.toUpperCase (Helpers.toStr
     (Helpers.cellAt row (WorkspaceProcessor.col h Config.rules_status)))) "APPROVED" = true ∧
  Js.toLowerCase (Js.trim (Helpers.toStr
     (Helpers.cellAt row (WorkspaceProcessor.col h Config.rules_employee)))) ≠ "" ∧
  is_Some (Helpers.parseSafeDate
     (Helpers.cellAt row (WorkspaceProcessor.col h Config.rules_start))).
Proof.
  unfold parseRuleRow.
  destruct (Js.includes _ "APPROVED"); [|split; [by intros []|by intros [? _]]].
  destruct (Helpers.parseSafeDate _).
  - case_bool_decide; split; try (by intros []); try (by intros (_ & ? & _)).
    all: intros _; split_and!; eauto.
  - split; [by intros []|]. by intros (_ & _ & []).
Qed.

Lemma audit_inputs_blank_shift r :
  rule_type r = "SHIFT_OVERRIDE" → Js.trim (shift r) = "" → audit_inputs r = false.
Proof.
  intros Hty Hs. unfold audit_inputs.
  rewrite bool_decide_eq_true_2 by done.
  rewrite (bool_decide_eq_true_2 (Js.trim (shift r) = "")) by done.
  by rewrite orb_true_r.
Qed.

Lemma audit_inputs_day_pattern r :
  rule_type r = "DAY_PATTERN" → audit_inputs r = true.
Proof.
  intros Hty. unfold audit_inputs. rewrite Hty.
  rewrite bool_decide_eq_false_2 by done. done.
Qed.

Lemma activeRulesOf_audited meta rules r :
  r ∈ activeRulesOf meta rules → audit_inputs r = true.
Proof.
  intros [Ha _]%list_elem_of_filter. unfold isActive in Ha.
  by apply andb_true_iff in Ha as [_ ?].
Qed.

(** C7, as the code has it. [parseRules] accepts a row on its approval,
    employee and start date alone and files every accepted rule, so a
    SHIFT_OVERRIDE rule with a blank shift value stays in the employee's
    list; it is [audit_inputs], in the resolver's filter of active rules,
    that rejects it, so it is never active and never a winner. DAY_PATTERN
    rules always pass [audit_inputs]. *)
Theorem blank_shift_override_rejected_by_resolver (sh : Sheet) :
  is_Some (WorkspaceProcessor.col (Helpers.mapHeaders (header sh)) Config.rules_status) →
  (∀ row employee r,
     row ∈ body sh →
     parseRuleRow (Helpers.mapHeaders (header sh)) row = Some (employee, r) →
     ∃ l, parseRules (Some sh) !! employee = Some l ∧ r ∈ l) ∧
  (∀ row,
     is_Some (parseRuleRow (Helpers.mapHeaders (header sh)) row) ↔
     Js.includes (Js.toUpperCase (Helpers.toStr (Helpers.cellAt row
        (WorkspaceProcessor.col (Helpers.mapHeaders (header sh)) Config.rules_status))))
        "APPROVED" = true ∧
     Js.toLowerCase (Js.trim (Helpers.toStr (Helpers.cellAt row
        (WorkspaceProcessor.col (Helpers.mapHeaders (header sh)) Config.rules_employee))))
        ≠ "" ∧
     is_Some (Helpers.parseSafeDate (Helpers.cellAt row
        (WorkspaceProcessor.col (Helpers.mapHeaders (header sh)) Config.rules_start)))) ∧
  (∀ r, rule_type r = "SHIFT_OVERRIDE" → Js.trim (shift r) = "" →
     audit_inputs r = false ∧
     ∀ meta rules ty,
       (r ∉ activeRulesOf meta rules) ∧
       findWinningRule (activeRulesOf meta rules) ty ≠ r) ∧
  (∀ r, rule_type r = "DAY_PATTERN" → audit_inputs r = true).
Proof.
  intros Hst. split_and!.
  - intros row e r. by apply parseRules_keeps.
  - intros row. apply parseRuleRow_accepts.
  - intros r Hty Hs.
    pose proof (audit_inputs_blank_shift r Hty Hs) as Ha.
    split; [done|]. intros meta rules ty.
    assert (r ∉ activeRulesOf meta rules) as Hnot.
    { intros Hin%activeRulesOf_audited. congruence. }
    split; [done|]. intros E.
    destruct (ResolverFacts.findWinningRule_elem (activeRulesOf meta rules) ty)
      as [E'|[_ Hin]%list_elem_of_filter].
    + rewrite E in E'. by rewrite E' in Hty.
    + apply Hnot. by rewrite <- E.
  - apply audit_inputs_day_pattern.
Qed.

(** C8, as the code has it. In every list [parseRules] returns, for a rule
    [a] listed before a rule [b]: a DAY_PATTERN rule is never after another
    kind; within a kind, a rule naming its weekdays is never after an ALL
    rule; within a frequency class, the priority does not increase; on a
    full tie the id does not decrease (the lesser id first). For two rules
    of one kind and one frequency class with different priorities, the one
    listed first is the one the winner comparison selects (when its
    priority is not -1). *)
Theorem parseRules_order (sh : option Sheet) (employee : string)
    (l l1 l2 l3 : list Rule) (a b : Rule) :
  parseRules sh !! employee = Some l →
  l = l1 ++ a :: l2 ++ b :: l3 →
  (rule_type b = "DAY_PATTERN" → rule_type a = "DAY_PATTERN") ∧
  (sameSortKind a b → freq a = "ALL" → freq b = "ALL") ∧
  (sameSortKind a b → sameFreqClass a b → prio b <= prio a) ∧
  (sameSortKind a b → sameFreqClass a b → prio a = prio b →
   localeCompare (rule_id a) (rule_id b) <= 0) ∧
  (rule_type a = rule_type b → sameFreqClass a b → prio a ≠ prio b →
   prio a ≠ -1 →
   findWinningRule [a; b] (rule_type a) = a ∧
   findWinningRule [b; a] (rule_type a) = a).
Proof.
  intros [l0 ->]%parseRules_sorted Hl.
  pose proof (sortBy_sorted compareRules compareRules_total compareRules_trans l0)
    as Hs.
  rewrite Hl in Hs. apply StronglySorted_split in Hs.
  destruct (compareRules_order a b Hs) as (H1 & H2 & H3 & H4).
  split_and!; [done..|].
  intros Hty Hf Hp Hne. apply findWinningRule_pair; [done| |done].
  assert (sameSortKind a b) as Hk by (unfold sameSortKind; by rewrite Hty).
  specialize (H3 Hk Hf). lia.
Qed.

End WithHost.

Section OnSamples.
#[local] Existing Instance Samples.utcHost.

Lemma blank_shift_override_rejected_by_resolver_witness :
  is_Some (WorkspaceProcessor.col
             (@Helpers.mapHeaders Samples.utcHost (header Samples.rulesSheet))
             Config.rules_status) ∧
  audit_inputs Samples.R_007 = false ∧
  audit_inputs Samples.R_001 = true.
Proof.
  assert (is_Some (WorkspaceProcessor.col
             (@Helpers.mapHeaders Samples.utcHost (header Samples.rulesSheet))
             Config.rules_status)) as Hst by (by vm_compute; eexists).
  split; [exact Hst|].
  destruct (@blank_shift_override_rejected_by_resolver Samples.utcHost
              Samples.rulesSheet Hst) as (_ & _ & Hblank & Hday).
  split.
  - by apply Hblank.
  - by apply Hday.
Defined.

(** C7 fails where it says the rule is dropped at load: the rule list
    [parseRules] returns for emp-1042 contains the approved shift override
    R-007, whose shift value is blank. *)
Lemma parseRules_keeps_blank_shift_override :
  rule_type Samples.R_007 = "SHIFT_OVERRIDE" ∧
  Js.trim (shift Samples.R_007) = "" ∧
  ∃ l, @parseRules Samples.utcHost (Some Samples.rulesSheet) !! "emp-1042" = Some l ∧
       Samples.R_007 ∈ l.
Proof.
  split; [done|]. split; [by vm_compute|].
  eexists. split; [by vm_compute|]. set_solver.
Qed.

Lemma parseRules_order_witness :
  @parseRules Samples.utcHost (Some Samples.rulesSheet) !! "emp-1042" =
    Some [Samples.R_001; Samples.R_010; Samples.R_007; Samples.R_008; Samples.R_002] ∧
  prio Samples.R_002 <= prio Samples.R_008 ∧
  findWinningRule [Samples.R_008; Samples.R_002] "SHIFT_OVERRIDE" = Samples.R_008.
Proof.
  assert (@parseRules Samples.utcHost (Some Samples.rulesSheet) !! "emp-1042" =
    Some [Samples.R_001; Samples.R_010; Samples.R_007; Samples.R_008; Samples.R_002])
    as Hl by (by vm_compute).
  split; [exact Hl|].
  destruct (@parseRules_order Samples.utcHost (Some Samples.rulesSheet) "emp-1042"
              _ [Samples.R_001; Samples.R_010; Samples.R_007] [] []
              Samples.R_008 Samples.R_002 Hl eq_refl)
    as (_ & _ & Hp & _ & Hw).
  split.
  - apply Hp; unfold sameSortKind, sameFreqClass; simpl; split; intros E; exact E.
  - apply Hw; simpl; [reflexivity| |lia|lia].
    unfold sameFreqClass; simpl; split; intros E; exact E.
Defined.

(** C8 fails on the tie-break and on the agreement with the winner
    comparison: in the list for emp-1042, R-007 and R-008 tie on kind,
    frequency and priority and the lesser id R-007 is listed first, while the
    winner comparison selects R-008; and R-010 (priority 1, on Mondays) is
    listed before R-008 (priority 9, every day), which the winner comparison
    prefers. *)
Lemma parseRules_lists_lesser_id_first :
  @parseRules Samples.utcHost (Some Samples.rulesSheet) !! "emp-1042" =
    Some [Samples.R_001; Samples.R_010; Samples.R_007; Samples.R_008; Samples.R_002] ∧
  rule_type Samples.R_007 = rule_type Samples.R_008 ∧
  freq Samples.R_007 = freq Samples.R_008 ∧
  prio Samples.R_007 = prio Samples.R_008 ∧
  localeCompare (rule_id Samples.R_008) (rule_id Samples.R_007) > 0 ∧
  findWinningRule [Samples.R_007; Samples.R_008] "SHIFT_OVERRIDE" = Samples.R_008 ∧
  rule_type Samples.R_010 = rule_type Samples.R_008 ∧
  findWinningRule [Samples.R_010; Samples.R_008] "SHIFT_OVERRIDE" = Samples.R_008.
Proof. split_and!; by vm_compute. Qed.

End OnSamples.

End RulesFacts.

(** ** The entitlement ledger ([grantEntitlements], [revokeLedger]) *)

Module LedgerFacts.
Import Ledger Spec.
Local Open Scope nat_scope.
Section WithHost.
Context `{!Host}.

(** *** Header maps *)

Lemma mapHeadersFrom_lookup r : ∀ n m k i,
  Helpers.mapHeadersFrom n r m !! k = Some i →
  m !! k = Some i ∨
  ∃ j v, i = n + j ∧ r !! j = Some v ∧ Js.toLowerCase (Js.trim (Helpers.toStr v)) = k.
Proof.
  induction r as [|v r IH]; intros n m k i Hl; simpl in Hl; [by left|].
  apply IH in Hl as [Hl|(j & w & -> & Hj & Hw)].
  - destruct (decide (Js.toLowerCase (Js.trim (Helpers.toStr v)) = k)) as [E|NE].
    + rewrite E, lookup_insert_eq in Hl. simplify_eq. right.
      exists 0, v. split_and!; [lia|done|done].
    + rewrite lookup_insert_ne in Hl by done. by left.
  - right. exists (S j), w. split_and!; [lia|done|done].
Qed.

Lemma mapHeaders_lookup r k i :
  Helpers.mapHeaders r !! k = Some i →
  ∃ v, r !! i = Some v ∧ Js.toLowerCase (Js.trim (Helpers.toStr v)) = k.
Proof.
  intros [Hl|(j & v & -> & Hj & Hv)]%mapHeadersFrom_lookup.
  - by rewrite lookup_empty in Hl.
  - by exists v.
Qed.

Lemma mapHeaders_lt r k i : Helpers.mapHeaders r !! k = Some i → i < length r.
Proof. intros (v & Hv & _)%mapHeaders_lookup. by eapply lookup_lt_Some. Qed.

Lemma mapHeaders_inj r k1 k2 i :
  Helpers.mapHeaders r !! k1 = Some i → Helpers.mapHeaders r !! k2 = Some i → k1 = k2.
Proof.
  intros (v1 & Hv1 & <-)%mapHeaders_lookup (v2 & Hv2 & <-)%mapHeaders_lookup.
  congruence.
Qed.

Lemma col_ne r n1 n2 i j :
  Js.toLowerCase n1 ≠ Js.toLowerCase n2 →
  WorkspaceProcessor.col (Helpers.mapHeaders r) n1 = Some i →
  WorkspaceProcessor.col (Helpers.mapHeaders r) n2 = Some j → i ≠ j.
Proof.
  intros Hne H1 H2 ->. apply Hne. by eapply mapHeaders_inj.
Qed.

(** *** Cells and column writes *)

Lemma insert_default (r : list Cell) i : <[i := default CUndefined (r !! i)]> r = r.
Proof.
  destruct (r !! i) as [x|] eqn:E; simpl.
  - by apply list_insert_id.
  - apply list_insert_ge. by apply lookup_ge_None.
Qed.

Lemma insert_cellAt (r : list Cell) i : <[i := Helpers.cellAt r (Some i)]> r = r.
Proof. apply insert_default. Qed.

Lemma cellAt_insert_ne (r : list Cell) i j v :
  i ≠ j → Helpers.cellAt (<[i := v]> r) (Some j) = Helpers.cellAt r (Some j).
Proof. intros Hne. simpl. by rewrite list_lookup_insert_ne. Qed.

Lemma rowKey_insert_ne e d i v r :
  i ≠ e → i ≠ d →
  rowKey (Some e) (Some d) (<[i := v]> r) = rowKey (Some e) (Some d) r.
Proof. intros He Hd. unfold rowKey. by rewrite !cellAt_insert_ne. Qed.

Lemma setCol_length h name v row : length (setCol h name v row) = length row.
Proof. unfold setCol. destruct (h !! name); [apply length_insert|done]. Qed.

Lemma setCol_lookup_ne h name v row j :
  h !! name ≠ Some j → setCol h name v row !! j = row !! j.
Proof.
  intros Hne. unfold setCol. destruct (h !! name) as [i|] eqn:E; [|done].
  apply list_lookup_insert_ne. congruence.
Qed.

Lemma setCol_lookup_eq h name v row j :
  h !! name = Some j → j < length row → setCol h name v row !! j = Some v.
Proof. intros E Hj. unfold setCol. rewrite E. by apply list_lookup_insert_eq. Qed.

(** *** The staged row *)

Ltac other_column :=
  let E := fresh in
  intros E;
  match goal with
  | H : ?h !! ?n = Some _ |- _ =>
      let E' := fresh in
      pose proof (mapHeaders_inj _ _ _ _ E H) as E'; vm_compute in E'; discriminate E'
  end.

Lemma grantRow_length hdr now g :
  length (grantRow (Helpers.mapHeaders hdr) (length hdr) now g) = length hdr.
Proof. unfold grantRow. by rewrite !setCol_length, length_replicate. Qed.

Lemma grantRow_employee hdr now g e :
  WorkspaceProcessor.col (Helpers.mapHeaders hdr) Config.ledger_employee = Some e →
  grantRow (Helpers.mapHeaders hdr) (length hdr) now g !! e = Some (CStr (g_employee g)).
Proof.
  intros He. unfold WorkspaceProcessor.col in He. unfold grantRow.
  do 3 (rewrite setCol_lookup_ne by other_column).
  apply setCol_lookup_eq; [done|].
  rewrite setCol_length, length_replicate. by eapply mapHeaders_lt.
Qed.

Lemma grantRow_date hdr now g d :
  WorkspaceProcessor.col (Helpers.mapHeaders hdr) Config.ledger_entitlementDate = Some d →
  grantRow (Helpers.mapHeaders hdr) (length hdr) now g !! d = Some (CDate (g_date g)).
Proof.
  intros Hd. unfold WorkspaceProcessor.col in Hd. unfold grantRow.
  do 2 (rewrite setCol_lookup_ne by other_column).
  apply setCol_lookup_eq; [done|].
  rewrite !setCol_length, length_replicate. by eapply mapHeaders_lt.
Qed.

Lemma grantRow_entitlement hdr now g i :
  WorkspaceProcessor.col (Helpers.mapHeaders hdr) Config.ledger_entitlement = Some i →
  grantRow (Helpers.mapHeaders hdr) (length hdr) now g !! i = Some (CStr "COMP_DAY").
Proof.
  intros Hi. unfold WorkspaceProcessor.col in Hi. unfold grantRow.
  rewrite setCol_lookup_ne by other_column.
  apply setCol_lookup_eq; [done|].
  rewrite !setCol_length, length_replicate. by eapply mapHeaders_lt.
Qed.

Lemma grantRow_activation hdr now g i :
  WorkspaceProcessor.col (Helpers.mapHeaders hdr) Config.ledger_activation = Some i →
  grantRow (Helpers.mapHeaders hdr) (length hdr) now g !! i = Some (CStr "Active").
Proof.
  intros Hi. unfold WorkspaceProcessor.col in Hi. unfold grantRow.
  apply setCol_lookup_eq; [done|].
  rewrite !setCol_length, length_replicate. by eapply mapHeaders_lt.
Qed.

Lemma grantRow_timestamp hdr now g i :
  Helpers.mapHeaders hdr !! "timestamp" = Some i →
  grantRow (Helpers.mapHeaders hdr) (length hdr) now g !! i = Some (CDate now).
Proof.
  intros Hi. unfold grantRow.
  do 4 (rewrite setCol_lookup_ne by other_column).
  apply setCol_lookup_eq; [done|].
  rewrite length_replicate. by eapply mapHeaders_lt.
Qed.

Lemma grantRow_key hdr now g e d :
  WorkspaceProcessor.col (Helpers.mapHeaders hdr) Config.ledger_employee = Some e →
  WorkspaceProcessor.col (Helpers.mapHeaders hdr) Config.ledger_entitlementDate = Some d →
  rowKey (Some e) (Some d) (grantRow (Helpers.mapHeaders hdr) (length hdr) now g) =
  if bool_decide (normEmployee (g_employee g) = "") then None else Some (grantKey g).
Proof.
  intros He Hd. unfold rowKey. simpl.
  by rewrite (grantRow_employee _ _ _ _ He), (grantRow_date _ _ _ _ Hd).
Qed.

(** *** The loop over the grants *)

Lemma grant_fold (key : list Cell → option string) h w now
    (Hrow : ∀ g, key (grantRow h w now g) = None ∨
                 key (grantRow h w now g) = Some (grantKey g)) gs :
  ∀ (ex : gset string) adds,
  ∃ new,
    (foldl (grantStep h w now) (ex, adds) gs).2 = adds ++ new ∧
    NoDup (omap key new) ∧
    (∀ k, k ∈ omap key new → k ∉ ex) ∧
    Forall (λ row, ∃ g, g ∈ gs ∧ (grantKey g ∉ ex) ∧ row = grantRow h w now g) new ∧
    (∀ g, g ∈ gs → grantKey g ∉ ex →
       ∃ g', g' ∈ gs ∧ grantKey g' = grantKey g ∧ grantRow h w now g' ∈ new).
Proof.
  induction gs as [|g1 gs IH]; intros ex adds; simpl.
  { exists []. rewrite app_nil_r. split_and!; [done|constructor|set_solver|done|set_solver]. }
  unfold grantStep at 2. simpl. case_bool_decide as Hk.
  - destruct (IH ex adds) as (new & E & Hnd & Hfresh & Hall & Hex).
    exists new. split_and!; [done..| |].
    + eapply Forall_impl; [exact Hall|]. intros row (g & ? & ? & ?).
      exists g. split_and!; [by right|done|done].
    + intros g [->|Hg]%elem_of_cons Hf; [done|].
      destruct (Hex g Hg Hf) as (g' & ? & ? & ?). exists g'. split_and!; [by right|done|done].
  - destruct (IH ({[grantKey g1]} ∪ ex) (adds ++ [grantRow h w now g1]))
      as (new & E & Hnd & Hfresh & Hall & Hex).
    exists (grantRow h w now g1 :: new). split_and!.
    + by rewrite E, <- app_assoc.
    + simpl. destruct (Hrow g1) as [-> | ->]; [done|].
      apply NoDup_cons. split; [|done]. intros Hin%Hfresh. set_solver.
    + intros k. simpl. destruct (Hrow g1) as [-> | ->].
      * intros Hin%Hfresh. set_solver.
      * intros [->|Hin%Hfresh]%elem_of_cons; set_solver.
    + constructor.
      * exists g1. split_and!; [by left|done|done].
      * eapply Forall_impl; [exact Hall|]. intros row (g & ? & ? & ?).
        exists g. split_and!; [by right|set_solver|done].
    + intros g Hg Hf. destruct (decide (grantKey g = grantKey g1)) as [Ek|Nk].
      * exists g1. split_and!; [by left|done|by left].
      * apply elem_of_cons in Hg as [->|Hg]; [done|].
        destruct (Hex g Hg) as (g' & ? & ? & ?); [set_solver|].
        exists g'. split_and!; [by right|done|by right].
Qed.

Lemma grant_fold_chosen h w now gs : ∀ (ex : gset string) adds,
  ∃ chosen,
    (foldl (grantStep h w now) (ex, adds) gs).2 =
      adds ++ (grantRow h w now <$> chosen) ∧
    chosen `sublist_of` gs ∧
    NoDup (grantKey <$> chosen) ∧
    (∀ g, g ∈ chosen → grantKey g ∉ ex) ∧
    (∀ g, g ∈ gs → grantKey g ∉ ex → grantKey g ∈ grantKey <$> chosen).
Proof.
  induction gs as [|g1 gs IH]; intros ex adds; simpl.
  { exists []. rewrite app_nil_r.
    split_and!; [done|done|constructor| |]; by intros g ?%elem_of_nil. }
  unfold grantStep at 2. simpl. case_bool_decide as Hk.
  - destruct (IH ex adds) as (chosen & E & Hsub & Hnd & Hfresh & Hall).
    exists chosen. split_and!; [done|by apply sublist_cons|done|done|].
    intros g [->|Hg]%elem_of_cons Hf; [done|]. by apply Hall.
  - destruct (IH ({[grantKey g1]} ∪ ex) (adds ++ [grantRow h w now g1]))
      as (chosen & E & Hsub & Hnd & Hfresh & Hall).
    exists (g1 :: chosen). split_and!.
    + rewrite E, <- app_assoc. done.
    + by apply sublist_skip.
    + csimpl. apply NoDup_cons. split; [|done].
      intros (g & Eg & Hg)%list_elem_of_fmap. apply (Hfresh g Hg).
      rewrite <- Eg. apply elem_of_union_l. by apply elem_of_singleton.
    + intros g [->|Hg]%elem_of_cons; [done|].
      intros Hin. apply (Hfresh g Hg). by apply elem_of_union_r.
    + intros g Hg Hf. csimpl.
      destruct (decide (grantKey g = grantKey g1)) as [->|Nk]; [by left|].
      right. apply elem_of_cons in Hg as [->|Hg]; [done|].
      apply Hall; [done|]. intros [Hin%elem_of_singleton|Hin]%elem_of_union; done.
Qed.

(** *** [grantEntitlements] on the sheet *)

Lemma entryKeys_cases sh :
  (∃ e d, employeeCol sh = Some e ∧ dateCol sh = Some d ∧
          entryKeys sh = omap (rowKey (Some e) (Some d)) (body sh)) ∨
  ((employeeCol sh = None ∨ dateCol sh = None) ∧ entryKeys sh = []).
Proof.
  unfold entryKeys. fold (employeeCol sh) (dateCol sh).
  destruct (employeeCol sh) as [e|], (dateCol sh) as [d|].
  - left. exists e, d. split_and!; [done..|].
    by rewrite !bool_decide_eq_true_2 by eauto.
  - right. split; [by right|]. rewrite (bool_decide_eq_false_2 (is_Some None)).
    + by rewrite andb_false_r.
    + by intros [? ?].
  - right. split; [by left|]. rewrite (bool_decide_eq_false_2 (is_Some None)); [done|].
    by intros [? ?].
  - right. split; [by left|]. rewrite (bool_decide_eq_false_2 (is_Some None)); [done|].
    by intros [? ?].
Qed.

Lemma staged_spec sh now grants e d :
  employeeCol sh = Some e → dateCol sh = Some d →
  let h := Helpers.mapHeaders (header sh) in
  let staged := stagedGrants sh now grants in
  NoDup (omap (rowKey (Some e) (Some d)) staged) ∧
  (∀ k, k ∈ omap (rowKey (Some e) (Some d)) staged → k ∉ entryKeys sh) ∧
  Forall (λ row, ∃ g, g ∈ grants ∧ (grantKey g ∉ entryKeys sh) ∧
                      row = grantRow h (length (header sh)) now g) staged ∧
  (∀ g, g ∈ grants → grantKey g ∉ entryKeys sh →
     ∃ g', g' ∈ grants ∧ grantKey g' = grantKey g ∧
           grantRow h (length (header sh)) now g' ∈ staged).
Proof.
  intros He Hd h staged. unfold staged, stagedGrants. fold h.
  destruct (grant_fold (rowKey (Some e) (Some d)) h (length (header sh)) now)
    with (gs := grants) (ex := (list_to_set (entryKeys sh) : gset string))
         (adds := @nil (list Cell))
    as (new & -> & Hnd & Hfresh & Hall & Hex).
  { intros g. unfold h. rewrite (grantRow_key _ _ _ _ _ He Hd).
    case_bool_decide; auto. }
  simpl. split_and!; [done| | |].
  - intros k Hk%Hfresh. by rewrite elem_of_list_to_set in Hk.
  - eapply Forall_impl; [exact Hall|]. intros row (g & ? & Hf & ?).
    exists g. rewrite elem_of_list_to_set in Hf. done.
  - intros g Hg Hf. apply Hex; [done|]. by rewrite elem_of_list_to_set.
Qed.

Lemma staged_chosen sh now grants :
  ∃ chosen,
    stagedGrants sh now grants =
      grantRow (Helpers.mapHeaders (header sh)) (length (header sh)) now <$> chosen ∧
    chosen `sublist_of` grants ∧
    NoDup (grantKey <$> chosen) ∧
    (∀ g, g ∈ chosen → grantKey g ∉ entryKeys sh) ∧
    (∀ g, g ∈ grants → grantKey g ∉ entryKeys sh → grantKey g ∈ grantKey <$> chosen).
Proof.
  unfold stagedGrants.
  destruct (grant_fold_chosen (Helpers.mapHeaders (header sh)) (length (header sh))
              now grants (list_to_set (entryKeys sh)) [])
    as (chosen & -> & Hsub & Hnd & Hfresh & Hall).
  exists chosen. split_and!; [done..| |].
  - intros g Hg Hin. apply (Hfresh g Hg). by apply elem_of_list_to_set.
  - intros g Hg Hf. apply Hall; [done|]. by rewrite elem_of_list_to_set.
Qed.
Lemma grantEntitlements_run sh now grants :
  grantEntitlements false (Some sh) now grants = Some (granted sh now grants).
Proof. reflexivity. Qed.

Lemma entryKeys_granted sh now grants :
  ∃ newKeys,
    entryKeys (granted sh now grants) = entryKeys sh ++ newKeys ∧
    NoDup newKeys ∧ (∀ k, k ∈ newKeys → k ∉ entryKeys sh).
Proof.
  destruct (entryKeys_cases sh) as [(e & d & He & Hd & Ek)|[Hno Ek]];
    destruct (entryKeys_cases (granted sh now grants))
      as [(e' & d' & He' & Hd' & Ek')|[Hno' Ek']].
  - unfold employeeCol, dateCol in *. simpl in He', Hd'. simplify_eq.
    destruct (staged_spec sh now grants e d He Hd) as (Hnd & Hfresh & _).
    exists (omap (rowKey (Some e) (Some d)) (stagedGrants sh now grants)).
    split_and!; [|done|done].
    rewrite Ek', Ek. simpl. by rewrite omap_app.
  - unfold employeeCol, dateCol in *. simpl in Hno'. destruct Hno'; congruence.
  - unfold employeeCol, dateCol in *. simpl in He', Hd'. destruct Hno; congruence.
  - exists []. rewrite Ek, Ek'. split_and!; [done|constructor|set_solver].
Qed.

Lemma NoDup_granted sh now grants :
  NoDup (entryKeys sh) → NoDup (entryKeys (granted sh now grants)).
Proof.
  intros Hnd. destruct (entryKeys_granted sh now grants) as (new & -> & Hn & Hf).
  apply NoDup_app. split_and!; [done| |done]. intros k Hk Hk'. by apply (Hf k).
Qed.

Lemma entryKeys_granted_elem sh now grants g :
  is_Some (employeeCol sh) → is_Some (dateCol sh) →
  Forall (λ g, normEmployee (g_employee g) ≠ "") grants →
  g ∈ grants → grantKey g ∈ entryKeys (granted sh now grants).
Proof.
  intros [e He] [d Hd] Hnb Hg.
  destruct (decide (grantKey g ∈ entryKeys sh)) as [Hin|Hf].
  { destruct (entryKeys_granted sh now grants) as (new & -> & _). set_solver. }
  destruct (staged_spec sh now grants e d He Hd) as (_ & _ & _ & Hex).
  destruct (Hex g Hg Hf) as (g' & Hg' & Ek & Hrow).
  destruct (entryKeys_cases (granted sh now grants))
    as [(e' & d' & He' & Hd' & ->)|[Hno' _]].
  - unfold employeeCol, dateCol in *. simpl in He', Hd'. simplify_eq.
    apply list_elem_of_omap. exists (grantRow (Helpers.mapHeaders (header sh))
                                        (length (header sh)) now g').
    split; [simpl; set_solver|].
    rewrite (grantRow_key _ _ _ _ _ He Hd).
    rewrite Forall_forall in Hnb. rewrite bool_decide_eq_false_2 by (by apply Hnb).
    by rewrite Ek.
  - unfold employeeCol, dateCol in *. simpl in Hno'. destruct Hno'; congruence.
Qed.

Lemma filter_eq_NoDup {A} `{!EqDecision A} (l : list A) k :
  NoDup l → k ∈ l → filter (λ x, x = k) l = [k].
Proof.
  induction 1 as [|x l Hx Hnd IH]; [by intros ?%elem_of_nil|].
  rewrite filter_cons. intros [->|Hin]%elem_of_cons.
  - rewrite decide_True by done. f_equal.
    clear IH. induction l as [|y l IH]; [done|].
    rewrite filter_cons, decide_False by set_solver.
    apply IH; [set_solver|]. by apply NoDup_cons in Hnd as [_ ?].
  - rewrite decide_False by (intros ->; done). by apply IH.
Qed.

(** *** [revokeLedger] on the sheet *)

Lemma revokedRow_miss e d a note m r :
  revokeHit e d a m r = None → revokedRow e d a note m r = r.
Proof. intros E. unfold revokedRow. by rewrite E. Qed.

Lemma revokedRow_length e d a note m r :
  length (revokedRow e d a note m r) = length r.
Proof.
  unfold revokedRow. destruct (revokeHit e d a m r); [|done].
  destruct note; by rewrite ?length_insert.
Qed.

Lemma zip_with_column {A B} (f : A → B → A) (col : A → B) l :
  zip_with f l (col <$> l) = (λ r, f r (col r)) <$> l.
Proof. induction l as [|x l IH]; csimpl; [done|]. by rewrite IH. Qed.

Lemma zip_with_two_columns {A B C} (f : A → B → A) (g : A → C → A)
    (col1 : A → B) (col2 : A → C) l :
  zip_with g (zip_with f l (col1 <$> l)) (col2 <$> l) =
  (λ r, g (f r (col1 r)) (col2 r)) <$> l.
Proof. induction l as [|x l IH]; csimpl; [done|]. by rewrite IH. Qed.

Lemma written_row a note hit (r : list Cell) :
  match note with
  | Some n =>
      <[n := match hit with
             | Some reason => CStr (noteFor reason)
             | None => Helpers.cellAt r note
             end]>
        (<[a := match hit with
                | Some _ => CStr "Inactive"
                | None => Helpers.cellAt r (Some a)
                end]> r)
  | None =>
      <[a := match hit with
             | Some _ => CStr "Inactive"
             | None => Helpers.cellAt r (Some a)
             end]> r
  end =
  match hit with
  | Some reason =>
      match note with
      | Some n => <[n := CStr (noteFor reason)]> (<[a := CStr "Inactive"]> r)
      | None => <[a := CStr "Inactive"]> r
      end
  | None => r
  end.
Proof.
  destruct hit as [reason|]; [by destruct note|].
  rewrite insert_cellAt. destruct note as [n|]; [|done]. apply insert_cellAt.
Qed.

Lemma revokeLedger_run sh revocations e d a :
  employeeCol sh = Some e → dateCol sh = Some d → activationCol sh = Some a →
  revokeLedger false (Some sh) revocations =
  Some {| header := header sh;
          body := revokedRow e d a (noteCol sh) (revokeMapOf revocations) <$> body sh |}.
Proof.
  intros He Hd Ha. unfold revokeLedger.
  fold (employeeCol sh) (dateCol sh) (activationCol sh) (noteCol sh).
  rewrite He, Hd, Ha.
  set (m := revokeMapOf revocations). set (hit := revokeHit e d a m).
  destruct (existsb _ (body sh)) eqn:Hch.
  - f_equal. unfold writeColumn, values.
    assert (∀ r, revokedRow e d a (noteCol sh) m r =
                 match hit r with
                 | Some reason =>
                     match noteCol sh with
                     | Some n => <[n := CStr (noteFor reason)]> (<[a := CStr "Inactive"]> r)
                     | None => <[a := CStr "Inactive"]> r
                     end
                 | None => r
                 end) as Hrow by done.
    destruct (noteCol sh) as [n|] eqn:Hn; simpl.
    + rewrite !insert_default. f_equal.
      rewrite zip_with_two_columns.
      apply list_fmap_ext. intros i r _. rewrite Hrow.
      apply (written_row a (Some n) (hit r) r).
    + rewrite !insert_default. f_equal.
      rewrite zip_with_column.
      apply list_fmap_ext. intros i r _. rewrite Hrow.
      apply (written_row a None (hit r) r).
  - f_equal. destruct sh as [hd bd]. simpl in *. f_equal.
    rewrite <- (list_fmap_id bd) at 1. apply list_fmap_ext. intros i r Hr.
    symmetry. apply revokedRow_miss. fold m. fold hit.
    destruct (hit r) eqn:E; [|done]. exfalso.
    assert (existsb (λ r, bool_decide (is_Some (hit r))) bd = true) as Ht.
    { apply existsb_exists. exists r. split.
      - apply list_elem_of_In. by eapply list_elem_of_lookup_2.
      - rewrite E. by apply bool_decide_eq_true_2. }
    congruence.
Qed.

Lemma revokeLedger_no_columns sh revocations :
  employeeCol sh = None ∨ dateCol sh = None ∨ activationCol sh = None →
  revokeLedger false (Some sh) revocations = Some sh.
Proof.
  intros Hno. unfold revokeLedger.
  fold (employeeCol sh) (dateCol sh) (activationCol sh).
  destruct (employeeCol sh), (dateCol sh), (activationCol sh); try done.
  destruct Hno as [?|[?|?]]; done.
Qed.

Lemma ledger_columns_distinct sh e d a :
  employeeCol sh = Some e → dateCol sh = Some d → activationCol sh = Some a →
  e ≠ d ∧ a ≠ e ∧ a ≠ d ∧ noteCol sh ≠ Some e ∧ noteCol sh ≠ Some d ∧
  noteCol sh ≠ Some a.
Proof.
  unfold employeeCol, dateCol, activationCol, noteCol, WorkspaceProcessor.col.
  intros He Hd Ha.
  split_and!; intros E; try subst.
  - pose proof (mapHeaders_inj _ _ _ _ He Hd) as X. vm_compute in X. discriminate X.
  - pose proof (mapHeaders_inj _ _ _ _ He Ha) as X. vm_compute in X. discriminate X.
  - pose proof (mapHeaders_inj _ _ _ _ Hd Ha) as X. vm_compute in X. discriminate X.
  - pose proof (mapHeaders_inj _ _ _ _ He E) as X. vm_compute in X. discriminate X.
  - pose proof (mapHeaders_inj _ _ _ _ Hd E) as X. vm_compute in X. discriminate X.
  - pose proof (mapHeaders_inj _ _ _ _ Ha E) as X. vm_compute in X. discriminate X.
Qed.

Lemma revokeHit_insert_ne e d a m i v r :
  i ≠ e → i ≠ d → i ≠ a →
  revokeHit e d a m (<[i := v]> r) = revokeHit e d a m r.
Proof.
  intros He Hd Ha. unfold revokeHit.
  by rewrite rowKey_insert_ne, cellAt_insert_ne.
Qed.

Lemma revokeHit_Some e d a m r reason :
  revokeHit e d a m r = Some reason ↔
  ∃ key, rowKey (Some e) (Some d) r = Some key ∧ m !! key = Some reason ∧
         Helpers.toStr (Helpers.cellAt r (Some a)) ≠ "Inactive".
Proof.
  unfold revokeHit. destruct (rowKey (Some e) (Some d) r) as [key|]; [|naive_solver].
  destruct (m !! key) as [reason'|] eqn:Hm; [|naive_solver].
  case_bool_decide; simpl; naive_solver.
Qed.

Lemma revokeHit_None e d a m r :
  revokeHit e d a m r = None ↔
  rowKey (Some e) (Some d) r = None ∨
  (∃ key, rowKey (Some e) (Some d) r = Some key ∧ m !! key = None) ∨
  Helpers.toStr (Helpers.cellAt r (Some a)) = "Inactive".
Proof.
  unfold revokeHit. destruct (rowKey (Some e) (Some d) r) as [key|]; [|naive_solver].
  destruct (m !! key) as [reason'|] eqn:Hm; [|naive_solver].
  case_bool_decide; simpl; naive_solver.
Qed.

Lemma rowKey_revokedRow e d a note m r :
  a ≠ e → a ≠ d → note ≠ Some e → note ≠ Some d →
  rowKey (Some e) (Some d) (revokedRow e d a note m r) = rowKey (Some e) (Some d) r.
Proof.
  intros Hae Had Hne Hnd. unfold revokedRow.
  destruct (revokeHit e d a m r); [|done].
  destruct note as [n|].
  - rewrite !rowKey_insert_ne; [done|congruence..].
  - by rewrite rowKey_insert_ne.
Qed.

Lemma revokedRow_idem e d a note m r :
  a ≠ e → a ≠ d → note ≠ Some e → note ≠ Some d → note ≠ Some a →
  revokedRow e d a note m (revokedRow e d a note m r) = revokedRow e d a note m r.
Proof.
  intros Hae Had Hne Hnd Hna.
  destruct (revokeHit e d a m r) as [reason|] eqn:Hhit;
    [|by rewrite !(revokedRow_miss _ _ _ _ _ r Hhit)].
  assert (revokedRow e d a note m r =
          match note with
          | Some n => <[n := CStr (noteFor reason)]> (<[a := CStr "Inactive"]> r)
          | None => <[a := CStr "Inactive"]> r
          end) as -> by (unfold revokedRow; by rewrite Hhit).
  destruct (decide (a < length r)) as [Hlt|Hge].
  - apply revokedRow_miss. apply revokeHit_None. right. right.
    destruct note as [n|].
    + rewrite cellAt_insert_ne by congruence. simpl.
      by rewrite list_lookup_insert_eq.
    + simpl. by rewrite list_lookup_insert_eq.
  - rewrite (list_insert_ge r a) by lia.
    destruct note as [n|].
    + unfold revokedRow. rewrite revokeHit_insert_ne, Hhit by congruence.
      rewrite (list_insert_ge _ a) by (rewrite length_insert; lia).
      by rewrite list_insert_insert_eq.
    + unfold revokedRow. rewrite Hhit. by rewrite list_insert_ge by lia.
Qed.

Lemma revokedRow_hit e d a note m r reason :
  a ≠ e → a ≠ d → note ≠ Some a →
  revokeHit e d a m r = Some reason →
  (a < length r → revokedRow e d a note m r !! a = Some (CStr "Inactive")) ∧
  (∀ n, note = Some n → n < length r →
        revokedRow e d a note m r !! n = Some (CStr (noteFor reason))) ∧
  (∀ j, j ≠ a → note ≠ Some j → revokedRow e d a note m r !! j = r !! j).
Proof.
  intros Hae Had Hna Hhit. unfold revokedRow. rewrite Hhit.
  destruct note as [n|]; split_and!.
  - intros Hlt. rewrite list_lookup_insert_ne by congruence.
    by apply list_lookup_insert_eq.
  - intros ? [= <-] Hlt. apply list_lookup_insert_eq. by rewrite length_insert.
  - intros j Hja Hjn. rewrite !list_lookup_insert_ne; [done|congruence..].
  - intros Hlt. by apply list_lookup_insert_eq.
  - by intros ? [=].
  - intros j Hja _. by rewrite list_lookup_insert_ne.
Qed.

Lemma revokeMapOf_fold revocations : ∀ (m : gmap string string) key,
  foldl (λ m r, <[normEmployee (r_employee r) +:+ "|" +:+ r_dateStr r := r_reason r]> m)
        m revocations !! key =
  match last (filter (λ rv, revocationKey rv = key) revocations) with
  | Some rv => Some (r_reason rv)
  | None => m !! key
  end.
Proof.
  induction revocations as [|rv revs IH]; intros m key; simpl; [done|].
  rewrite IH, filter_cons.
  change (normEmployee (r_employee rv) +:+ "|" +:+ r_dateStr rv)
    with (revocationKey rv).
  destruct (decide (revocationKey rv = key)) as [->|Hne].
  - rewrite last_cons. destruct (last _); [done|]. by rewrite lookup_insert_eq.
  - destruct (last _); [done|]. by rewrite lookup_insert_ne.
Qed.

Lemma revokeMapOf_lookup revocations key :
  revokeMapOf revocations !! key =
  r_reason <$> last (filter (λ rv, revocationKey rv = key) revocations).
Proof.
  unfold revokeMapOf. rewrite revokeMapOf_fold.
  destruct (last _); [done|]. by rewrite lookup_empty.
Qed.

(** *** Counting entries *)

Lemma filter_eq_absent {A} `{!EqDecision A} (l : list A) k :
  k ∉ l → filter (λ x, x = k) l = [].
Proof.
  induction l as [|x l IH]; [done|]. intros Hk.
  rewrite filter_cons, decide_False by set_solver. apply IH. set_solver.
Qed.

Lemma NoDup_count {A} `{!EqDecision A} (l : list A) :
  NoDup l ↔ ∀ k, length (filter (λ x, x = k) l) ≤ 1.
Proof.
  split.
  - intros Hnd k. destruct (decide (k ∈ l)) as [Hin|Hout].
    + by rewrite filter_eq_NoDup.
    + rewrite filter_eq_absent by done. simpl. lia.
  - induction l as [|x l IH]; intros Hc; [constructor|].
    apply NoDup_cons. split.
    + intros Hin. specialize (Hc x). rewrite filter_cons, decide_True in Hc by done.
      assert (x ∈ filter (λ y, y = x) l) as Hx by (by apply list_elem_of_filter).
      destruct (filter (λ y, y = x) l); [by apply elem_of_nil in Hx|].
      simpl in Hc. lia.
    + apply IH. intros k. specialize (Hc k). rewrite filter_cons in Hc.
      destruct (decide (x = k)); simpl in Hc; lia.
Qed.

Lemma filter_prefix_length {A} (P : A → Prop) `{!∀ x, Decision (P x)} (l l' : list A) :
  l `prefix_of` l' → length (filter P l) ≤ length (filter P l').
Proof. intros [k ->]. rewrite filter_app, length_app. lia. Qed.

Lemma length_filter_omap {A B} `{!EqDecision B} (f : A → option B) (l : list A) k :
  length (filter (λ x, f x = Some k) l) = length (filter (λ y, y = k) (omap f l)).
Proof.
  induction l as [|x l IH]; [done|]. rewrite filter_cons. simpl.
  destruct (f x) as [y|] eqn:E.
  - rewrite filter_cons. destruct (decide (y = k)) as [->|Hne].
    + rewrite decide_True by done. simpl. by rewrite IH.
    + rewrite decide_False by congruence. done.
  - rewrite decide_False by done. done.
Qed.

Lemma entriesFor_count sh key :
  is_Some (employeeCol sh) → is_Some (dateCol sh) →
  entriesFor sh key =
  length (filter (λ k, k = key)
            (omap (entryKey (employeeCol sh) (dateCol sh)) (body sh))).
Proof.
  intros He Hd. unfold entriesFor, entriesOf.
  rewrite !bool_decide_eq_true_2 by done. simpl. apply length_filter_omap.
Qed.

Lemma entriesFor_no_columns sh key :
  employeeCol sh = None ∨ dateCol sh = None → entriesFor sh key = 0.
Proof.
  intros Hno. unfold entriesFor, entriesOf.
  destruct Hno as [-> | ->]; simpl; [done|].
  by rewrite andb_false_r.
Qed.

Lemma activeEntriesFor_le sh key : activeEntriesFor sh key ≤ entriesFor sh key.
Proof. apply length_filter. Qed.

(** *** One operation *)

Lemma entryKeys_ext sh sh' :
  header sh' = header sh →
  omap (rowKey (employeeCol sh) (dateCol sh)) (body sh') =
  omap (rowKey (employeeCol sh) (dateCol sh)) (body sh) →
  entryKeys sh' = entryKeys sh.
Proof.
  unfold entryKeys, employeeCol, dateCol. intros -> Hb.
  destruct (bool_decide _ && bool_decide _); done.
Qed.

Lemma omap_fmap_same {A B} (f : A → option B) (g : A → A) (l : list A) :
  (∀ x, f (g x) = f x) → omap f (g <$> l) = omap f l.
Proof.
  intros E. induction l as [|x l IH]; [done|]. csimpl. by rewrite E, IH.
Qed.

Lemma fmap_fmap_same {A B} (f : A → B) (g : A → A) (l : list A) :
  (∀ x, f (g x) = f x) → f <$> (g <$> l) = f <$> l.
Proof.
  intros E. induction l as [|x l IH]; [done|]. csimpl. by rewrite E, IH.
Qed.

Lemma revokeLedger_keys sh revocations :
  ∃ sh', revokeLedger false (Some sh) revocations = Some sh' ∧
         header sh' = header sh ∧ length (body sh') = length (body sh) ∧
         entryKeys sh' = entryKeys sh ∧ rowKeys sh' = rowKeys sh.
Proof.
  destruct (employeeCol sh) as [e|] eqn:He; [|exists sh; split_and!; try done;
    apply revokeLedger_no_columns; auto].
  destruct (dateCol sh) as [d|] eqn:Hd; [|exists sh; split_and!; try done;
    apply revokeLedger_no_columns; auto].
  destruct (activationCol sh) as [a|] eqn:Ha; [|exists sh; split_and!; try done;
    apply revokeLedger_no_columns; auto].
  destruct (ledger_columns_distinct sh e d a He Hd Ha) as (_ & Hae & Had & Hne & Hnd & _).
  eexists. split; [by apply revokeLedger_run|]. simpl.
  split_and!; [done|by rewrite length_fmap| |].
  - apply entryKeys_ext; [done|]. simpl. rewrite He, Hd.
    apply omap_fmap_same. intros r. by apply rowKey_revokedRow.
  - unfold rowKeys, employeeCol, dateCol in *. simpl. rewrite He, Hd.
    apply fmap_fmap_same. intros r. by apply rowKey_revokedRow.
Qed.

Lemma applyOp_step sh op :
  ∃ sh', applyOp (Some sh) op = Some sh' ∧
         header sh' = header sh ∧
         entryKeys sh `prefix_of` entryKeys sh' ∧
         rowKeys sh `prefix_of` rowKeys sh' ∧
         (NoDup (entryKeys sh) → NoDup (entryKeys sh')).
Proof.
  destruct op as [now grants|revocations]; simpl.
  - exists (granted sh now grants). split_and!; [done|done| | |].
    + destruct (entryKeys_granted sh now grants) as (new & -> & _).
      by apply prefix_app_r.
    + unfold rowKeys, employeeCol, dateCol. simpl. rewrite fmap_app.
      by apply prefix_app_r.
    + apply NoDup_granted.
  - destruct (revokeLedger_keys sh revocations) as (sh' & E & Hh & _ & Hk & Hr).
    exists sh'. rewrite Hk, Hr. split_and!; done.
Qed.

Lemma applyOps_run ops : ∀ sh,
  ∃ sh', foldl applyOp (Some sh) ops = Some sh' ∧
         header sh' = header sh ∧
         entryKeys sh `prefix_of` entryKeys sh' ∧
         rowKeys sh `prefix_of` rowKeys sh' ∧
         (NoDup (entryKeys sh) → NoDup (entryKeys sh')).
Proof.
  induction ops as [|op ops IH]; intros sh; simpl.
  - exists sh. split_and!; done.
  - destruct (applyOp_step sh op) as (sh1 & -> & Hh1 & Hk1 & Hr1 & Hn1).
    destruct (IH sh1) as (sh' & E & Hh & Hk & Hr & Hn).
    exists sh'. split_and!; [done|congruence|by etrans|by etrans|auto].
Qed.

(** *** The claims *)

(** What [grantEntitlements] stages. It appends one row for each key among
    the intents that its scan of the ledger snapshot has not met, Active or
    Inactive, and none for a key it has met: the staged rows are the rows of
    a sub-list of the intents whose keys are pairwise distinct, absent from
    the scanned keys, and cover every absent key. The row carries
    Entitlement_Type COMP_DAY, activation Active and the timestamp of the
    run, in the columns the sheet has, and the scan of a later run meets it
    under the intent's key when the normalized employee is not blank. *)
Lemma grant_stages_fresh_keys (sh : Sheet) (now : Date) (grants : list Grant) :
  is_Some (employeeCol sh) → is_Some (dateCol sh) →
  let h := Helpers.mapHeaders (header sh) in
  let staged := stagedGrants sh now grants in
  let row g := grantRow h (length (header sh)) now g in
  grantEntitlements false (Some sh) now grants = Some (granted sh now grants) ∧
  (∃ chosen,
     staged = row <$> chosen ∧
     chosen `sublist_of` grants ∧
     NoDup (grantKey <$> chosen) ∧
     (∀ g, g ∈ chosen → grantKey g ∉ entryKeys sh) ∧
     (∀ g, g ∈ grants → grantKey g ∉ entryKeys sh →
           grantKey g ∈ grantKey <$> chosen)) ∧
  NoDup (omap (rowKey (employeeCol sh) (dateCol sh)) staged) ∧
  (∀ g,
     (∀ i, WorkspaceProcessor.col h Config.ledger_entitlement = Some i →
           row g !! i = Some (CStr "COMP_DAY")) ∧
     (∀ i, activationCol sh = Some i → row g !! i = Some (CStr "Active")) ∧
     (∀ i, h !! "timestamp" = Some i → row g !! i = Some (CDate now)) ∧
     entryKey (employeeCol sh) (dateCol sh) (row g) = Some (grantKey g) ∧
     (normEmployee (g_employee g) ≠ "" →
      rowKey (employeeCol sh) (dateCol sh) (row g) = Some (grantKey g))).
Proof.
  intros [e He] [d Hd] h staged row.
  destruct (staged_spec sh now grants e d He Hd) as (Hnd & Hfresh & Hall & Hex).
  split_and!; [done|apply staged_chosen|by rewrite He, Hd|].
  intros g. split_and!.
  - intros i. apply grantRow_entitlement.
  - intros i. apply grantRow_activation.
  - intros i. apply grantRow_timestamp.
  - rewrite He, Hd. unfold row, h, entryKey, Helpers.cellAt.
    rewrite (grantRow_employee _ _ _ _ He), (grantRow_date _ _ _ _ Hd). done.
  - intros Hnb. rewrite He, Hd. unfold row, h.
    rewrite (grantRow_key _ _ _ _ _ He Hd). by rewrite bool_decide_eq_false_2.
Qed.



End WithHost.

Lemma sample_ledger_keys_unique :
  ∀ key, @entriesFor Samples.utcHost Samples.ledgerSheet key ≤ 1.
Proof.
  intros key. rewrite (@entriesFor_count Samples.utcHost).
  - revert key. apply NoDup_count.
    apply (bool_decide_unpack _). vm_compute. exact I.
  - vm_compute. eauto.
  - vm_compute. eauto.
Qed.

(** C5, evaluated where it fails. An intent whose employee is blank, as
    [processRoster] builds it from a roster row whose employee cell holds
    only blanks: the sample ledger has no entry for its key, each of two
    runs of [grantEntitlements] appends a row for it, and the key then has
    two entries. *)
Theorem grant_twice_with_blank_employee :
  @entriesFor Samples.utcHost Samples.ledgerSheet
    "|2025-05-01" = 0 ∧
  @grantEntitlements Samples.utcHost false
    (@grantEntitlements Samples.utcHost false (Some Samples.ledgerSheet)
       Samples.runTime [Samples.grantBlank])
    Samples.runTime [Samples.grantBlank] =
  Some (@granted Samples.utcHost
          (@granted Samples.utcHost Samples.ledgerSheet Samples.runTime
             [Samples.grantBlank])
          Samples.runTime [Samples.grantBlank]) ∧
  length (body (@granted Samples.utcHost
          (@granted Samples.utcHost Samples.ledgerSheet Samples.runTime
             [Samples.grantBlank])
          Samples.runTime [Samples.grantBlank])) =
    length (body Samples.ledgerSheet) + 2 ∧
  @entriesFor Samples.utcHost
    (@granted Samples.utcHost
       (@granted Samples.utcHost Samples.ledgerSheet Samples.runTime
          [Samples.grantBlank])
       Samples.runTime [Samples.grantBlank])
    "|2025-05-01" = 2.
Proof. split_and!; [by vm_compute|reflexivity|by vm_compute|by vm_compute]. Qed.

(** C9, evaluated where it fails. The sample ledger has at most one entry
    per key. After a run of three operations - a grant with an intent whose
    employee is blank beside one that names an employee, a revoke, and a
    grant with the blank intent again - the key of the blank intent has two
    entries, and both are Active. *)
Theorem blank_employee_gets_a_second_entry :
  (∀ key, @entriesFor Samples.utcHost Samples.ledgerSheet key ≤ 1) ∧
  ∃ sh',
    foldl (@applyOp Samples.utcHost) (Some Samples.ledgerSheet)
      [OpGrant Samples.runTime [Samples.grant3001; Samples.grantBlank];
       OpRevoke [Samples.revoke1042];
       OpGrant (Samples.runTime + 1)%Z [Samples.grantBlank]] = Some sh' ∧
    @entriesFor Samples.utcHost sh'
      "|2025-05-01" = 2 ∧
    @activeEntriesFor Samples.utcHost sh'
      "|2025-05-01" = 2.
Proof.
  split; [exact sample_ledger_keys_unique|].
  eexists. split; [vm_compute; reflexivity|]. split; by vm_compute.
Qed.


End LedgerFacts.


(* ===================================================================== *)
(** * Part III: further properties of the code                            *)
(* ===================================================================== *)

(** ** Trimming and letter case *)

Module JsTrimFacts.

Lemma app_assoc s t u : s +:+ (t +:+ u) = (s +:+ t) +:+ u.
Proof.
  induction s as [|c s IH]; [done|].
  rewrite !MatrixFacts.append_cons. by rewrite IH.
Qed.

Lemma rev_app_spec s t : String.rev_app s t = String.rev s +:+ t.
Proof.
  revert t. unfold String.rev.
  induction s as [|c s IH]; intros t; simpl; [done|].
  rewrite (IH (String c "")), IH.
  rewrite <-app_assoc. done.
Qed.

Lemma rev_cons c s : String.rev (String c s) = String.rev s +:+ String c "".
Proof. unfold String.rev at 1. simpl. apply rev_app_spec. Qed.

Lemma app_empty_r s : s +:+ "" = s.
Proof.
  induction s as [|c s IH]; [done|].
  rewrite MatrixFacts.append_cons. by rewrite IH.
Qed.

Lemma rev_app s t : String.rev (s +:+ t) = String.rev t +:+ String.rev s.
Proof.
  induction s as [|c s IH].
  - rewrite MatrixFacts.append_nil. by rewrite app_empty_r.
  - rewrite MatrixFacts.append_cons, !rev_cons, IH, app_assoc. done.
Qed.

Lemma rev_involutive s : String.rev (String.rev s) = s.
Proof.
  induction s as [|c s IH]; [done|].
  rewrite rev_cons, rev_app, IH. done.
Qed.

Lemma rev_empty s : String.rev s = "" ↔ s = "".
Proof.
  split; [|by intros ->].
  intros E. rewrite <-(rev_involutive s), E. done.
Qed.

Lemma trimStart_app s t :
  Js.trimStart (s +:+ t) =
  if bool_decide (Js.trimStart s = "") then Js.trimStart t
  else Js.trimStart s +:+ t.
Proof.
  induction s as [|c s IH]; [done|].
  rewrite MatrixFacts.append_cons. simpl.
  destruct (Ascii.is_space c); [done|]. done.
Qed.

(** [trimEnd], read from the front *)
Lemma trimEnd_cons c s :
  Js.trimEnd (String c s) =
  if bool_decide (Js.trimEnd s = "") && Ascii.is_space c then ""
  else String c (Js.trimEnd s).
Proof.
  unfold Js.trimEnd. rewrite rev_cons, trimStart_app.
  case_bool_decide as E.
  - rewrite E. simpl. destruct (Ascii.is_space c); done.
  - rewrite rev_app. simpl.
    rewrite bool_decide_eq_false_2; [done|].
    by rewrite rev_empty.
Qed.

Lemma trimEnd_nil : Js.trimEnd "" = "".
Proof. done. Qed.

Lemma trimStart_idem s : Js.trimStart (Js.trimStart s) = Js.trimStart s.
Proof.
  induction s as [|c s IH]; simpl; [done|].
  destruct (Ascii.is_space c) eqn:E; [done|]. simpl. by rewrite E.
Qed.

Lemma trimEnd_idem s : Js.trimEnd (Js.trimEnd s) = Js.trimEnd s.
Proof.
  unfold Js.trimEnd. by rewrite rev_involutive, trimStart_idem.
Qed.

Lemma trimStart_trimEnd s :
  Js.trimStart (Js.trimEnd s) = Js.trimEnd (Js.trimStart s).
Proof.
  induction s as [|c s IH]; [done|].
  rewrite trimEnd_cons. simpl.
  destruct (Ascii.is_space c) eqn:E.
  - rewrite andb_true_r. case_bool_decide as Et; simpl.
    + by rewrite <-IH, Et.
    + by rewrite E.
  - rewrite andb_false_r. simpl. rewrite E.
    rewrite trimEnd_cons, E, andb_false_r. done.
Qed.

Lemma trim_idem s : Js.trim (Js.trim s) = Js.trim s.
Proof.
  unfold Js.trim.
  by rewrite trimStart_trimEnd, trimStart_idem, trimEnd_idem.
Qed.

Lemma mapChars_empty f s : Js.mapChars f s = "" ↔ s = "".
Proof. destruct s; simpl; split; congruence. Qed.

Section SpaceKeeping.
Context (f : ascii → ascii) (Hf : ∀ c, Ascii.is_space (f c) = Ascii.is_space c).

Lemma trimStart_mapChars s :
  Js.trimStart (Js.mapChars f s) = Js.mapChars f (Js.trimStart s).
Proof using Hf.
  induction s as [|c s IH]; simpl; [done|].
  rewrite Hf. destruct (Ascii.is_space c); done.
Qed.

Lemma trimEnd_mapChars s :
  Js.trimEnd (Js.mapChars f s) = Js.mapChars f (Js.trimEnd s).
Proof using Hf.
  induction s as [|c s IH]; [done|].
  simpl Js.mapChars at 1. rewrite !trimEnd_cons, IH, Hf.
  destruct (Ascii.is_space c); rewrite ?andb_true_r, ?andb_false_r; [|done].
  destruct (decide (Js.trimEnd s = "")) as [E|E].
  - rewrite E. done.
  - rewrite !bool_decide_eq_false_2; [done| done |].
    by rewrite mapChars_empty.
Qed.

Lemma trim_mapChars s : Js.trim (Js.mapChars f s) = Js.mapChars f (Js.trim s).
Proof using Hf. unfold Js.trim. by rewrite trimStart_mapChars, trimEnd_mapChars. Qed.

End SpaceKeeping.

Lemma upperChar_space c : Ascii.is_space (Js.upperChar c) = Ascii.is_space c.
Proof. destruct c as [[] [] [] [] [] [] [] []]; reflexivity. Qed.

Lemma lowerChar_space c : Ascii.is_space (Js.lowerChar c) = Ascii.is_space c.
Proof. destruct c as [[] [] [] [] [] [] [] []]; reflexivity. Qed.

Lemma upperChar_idem c : Js.upperChar (Js.upperChar c) = Js.upperChar c.
Proof. destruct c as [[] [] [] [] [] [] [] []]; reflexivity. Qed.

Lemma lowerChar_idem c : Js.lowerChar (Js.lowerChar c) = Js.lowerChar c.
Proof. destruct c as [[] [] [] [] [] [] [] []]; reflexivity. Qed.

Lemma upperChar_lowerChar c : Js.upperChar (Js.lowerChar c) = Js.upperChar c.
Proof. destruct c as [[] [] [] [] [] [] [] []]; reflexivity. Qed.

Lemma lowerChar_upperChar c : Js.lowerChar (Js.upperChar c) = Js.lowerChar c.
Proof. destruct c as [[] [] [] [] [] [] [] []]; reflexivity. Qed.

Lemma mapChars_compose f g h s :
  (∀ c, f (g c) = h c) → Js.mapChars f (Js.mapChars g s) = Js.mapChars h s.
Proof. intros E. induction s; simpl; congruence. Qed.

Lemma toUpperCase_idem s : Js.toUpperCase (Js.toUpperCase s) = Js.toUpperCase s.
Proof. apply mapChars_compose, upperChar_idem. Qed.

Lemma toLowerCase_idem s : Js.toLowerCase (Js.toLowerCase s) = Js.toLowerCase s.
Proof. apply mapChars_compose, lowerChar_idem. Qed.

Lemma toUpperCase_toLowerCase s :
  Js.toUpperCase (Js.toLowerCase s) = Js.toUpperCase s.
Proof. apply mapChars_compose, upperChar_lowerChar. Qed.

Lemma toLowerCase_toUpperCase s :
  Js.toLowerCase (Js.toUpperCase s) = Js.toLowerCase s.
Proof. apply mapChars_compose, lowerChar_upperChar. Qed.

Lemma trim_toUpperCase s : Js.trim (Js.toUpperCase s) = Js.toUpperCase (Js.trim s).
Proof. apply trim_mapChars, upperChar_space. Qed.

Lemma trim_toLowerCase s : Js.trim (Js.toLowerCase s) = Js.toLowerCase (Js.trim s).
Proof. apply trim_mapChars, lowerChar_space. Qed.

End JsTrimFacts.

(** ** More on the resolver *)

Module ResolverMore.
Import Resolver Spec.

Section WithHost.
Context `{host : !Host}.

Lemma filter_filter_comm {A} (P Q : A → Prop)
    `{!∀ x, Decision (P x)} `{!∀ x, Decision (Q x)} (l : list A) :
  filter P (filter Q l) = filter Q (filter P l).
Proof.
  induction l as [|x l IH]; [done|].
  rewrite !filter_cons.
  destruct (decide (Q x)), (decide (P x));
    rewrite ?filter_cons; repeat case_decide; try done; by rewrite IH.
Qed.

Lemma findWinningRule_active meta rules ty :
  findWinningRule (activeRulesOf meta rules) ty =
  foldl pickWinner emptyRule
    (activeRulesOf meta (filter (λ r, rule_type r = ty) rules)).
Proof.
  unfold findWinningRule, activeRulesOf. by rewrite filter_filter_comm.
Qed.

Lemma findWinningRule_candidate rules ty :
  filter (λ r, rule_type r = ty) rules ≠ [] →
  findWinningRule rules ty ∈ filter (λ r, rule_type r = ty) rules.
Proof.
  unfold findWinningRule.
  destruct (filter _ rules) as [|x l]; [done|]. intros _.
  simpl. rewrite ResolverFacts.pickWinner_sentinel by done.
  destruct (ResolverFacts.foldl_pickWinner_elem l x) as [-> | ?];
    [left|by right].
Qed.

(** The state after Pass 1 is read off the winning DAY_PATTERN rule *)
Lemma pass1_winner emp meta active active' st :
  findWinningRule active "DAY_PATTERN" = findWinningRule active' "DAY_PATTERN" →
  pass1 emp meta active st = pass1 emp meta active' st.
Proof. unfold pass1. by intros ->. Qed.

Lemma flagsOf_isWorkDay emp meta ctx st st' :
  isWorkDay st = isWorkDay st' →
  flagsOf emp meta ctx st = flagsOf emp meta ctx st'.
Proof. unfold flagsOf. by intros ->. Qed.

Lemma resolve_status emp meta ctx rules :
  let st := stateAfterPasses emp meta rules in
  let key := emp_id emp +:+ "|" +:+ str meta in
  let res := resolveEmployeeDay emp meta ctx rules in
  (finalStatus res, entitlementAction res) =
  match lookupMatrix (matrixIndex ctx) (flagsOf emp meta ctx st) with
  | None => ("ERROR", "NONE")
  | Some m =>
      (if bool_decide (row_finalStatus m = "LEAVE") then (leaveInput ctx key).2
       else row_finalStatus m, row_action m)
  end.
Proof.
  intros st key res. unfold res, resolveEmployeeDay.
  fold (stateAfterPasses emp meta rules). fold st. fold key.
  destruct (lookupMatrix _ _); [|done].
  by repeat case_match.
Qed.

Lemma resolve_row_inputs emp meta ctx rules :
  let st := stateAfterPasses emp meta rules in
  let key := emp_id emp +:+ "|" +:+ str meta in
  let f := flagsOf emp meta ctx st in
  let r := row (resolveEmployeeDay emp meta ctx rules) in
  Key r = key ∧ Employee_Name r = display emp ∧ Date_Obj r = obj meta ∧
  Base_Status r = baseFlag f ∧
  Base_Shift r = (if baseIsWorkOf emp meta then baseShift emp else "OFF") ∧
  Rule_Input r = currentShift st ∧
  Leave_Input r = (leaveInput ctx key).2 ∧
  PH_Input r = holidayFlag f ∧
  Entitlement_Input r = (entitlementInput ctx key (leaveInput ctx key).1).2 ∧
  Final_Status r = finalStatus (resolveEmployeeDay emp meta ctx rules).
Proof.
  intros st key f r. unfold r, resolveEmployeeDay.
  fold (stateAfterPasses emp meta rules). fold st. fold key. fold f.
  destruct (lookupMatrix _ _); [|by split_and!].
  repeat case_match; by split_and!.
Qed.

Lemma lookupMatrix_empty f : lookupMatrix ∅ f = None.
Proof. unfold lookupMatrix. by rewrite lookup_empty. Qed.

Lemma resolve_unmatched emp meta ctx rules :
  lookupMatrix (matrixIndex ctx)
    (flagsOf emp meta ctx (stateAfterPasses emp meta rules)) = None →
  let res := resolveEmployeeDay emp meta ctx rules in
  entitlementAction res = "NONE" ∧ finalStatus res = "ERROR" ∧
  Final_Status (row res) = "ERROR" ∧ Reason (row res) = "Missing Logic" ∧
  Final_Val (row res) = val_0.
Proof.
  intros Hnone res. unfold res, resolveEmployeeDay.
  fold (stateAfterPasses emp meta rules). by rewrite Hnone.
Qed.

Lemma stateAfterPasses_isWorkDay emp meta rules rules' :
  filter (λ r, rule_type r = "DAY_PATTERN") rules =
  filter (λ r, rule_type r = "DAY_PATTERN") rules' →
  isWorkDay (stateAfterPasses emp meta rules) =
  isWorkDay (stateAfterPasses emp meta rules').
Proof.
  intros E. unfold stateAfterPasses. rewrite !ResolverFacts.pass2_isWorkDay.
  f_equal. apply pass1_winner. by rewrite !findWinningRule_active, E.
Qed.

(** X1. The final status, the entitlement action and the matrix inputs of a
    resolution depend on the employee's rules only through the DAY_PATTERN
    rules: two rule lists with the same DAY_PATTERN rules give the same
    status, action, base status, holiday, leave and entitlement inputs.
    SHIFT_OVERRIDE rules (and rules of any other kind) can only change the
    shift, the weight, the reason and the trace. *)
Theorem status_depends_on_day_patterns_only (emp : Employee) (meta : DayMeta)
    (ctx : EngineContext) (rules rules' : list Rule) :
  filter (λ r, rule_type r = "DAY_PATTERN") rules =
  filter (λ r, rule_type r = "DAY_PATTERN") rules' →
  let res := resolveEmployeeDay emp meta ctx rules in
  let res' := resolveEmployeeDay emp meta ctx rules' in
  finalStatus res = finalStatus res' ∧
  entitlementAction res = entitlementAction res' ∧
  Final_Status (row res) = Final_Status (row res') ∧
  Base_Status (row res) = Base_Status (row res') ∧
  PH_Input (row res) = PH_Input (row res') ∧
  Leave_Input (row res) = Leave_Input (row res') ∧
  Entitlement_Input (row res) = Entitlement_Input (row res').
Proof.
  intros E res res'.
  pose proof (stateAfterPasses_isWorkDay emp meta rules rules' E) as Hw.
  pose proof (flagsOf_isWorkDay emp meta ctx _ _ Hw) as Hf.
  pose proof (resolve_status emp meta ctx rules) as Hs.
  pose proof (resolve_status emp meta ctx rules') as Hs'.
  simpl in Hs, Hs'. rewrite Hf, <-Hs' in Hs.
  destruct (resolve_row_inputs emp meta ctx rules)
    as (_ & _ & _ & B & _ & _ & L & P & En & F).
  destruct (resolve_row_inputs emp meta ctx rules')
    as (_ & _ & _ & B' & _ & _ & L' & P' & En' & F').
  unfold res, res'.
  rewrite B, B', L, L', P, P', En, En', F, F', Hf.
  split_and!; try done; congruence.
Qed.

End WithHost.

Section OnSamples.
#[local] Existing Instance Samples.utcHost.

Lemma status_depends_on_day_patterns_only_witness :
  finalStatus (resolveEmployeeDay Samples.testUser Samples2.marchMonday
                 Samples2.matrixContext [Samples.R_001; Samples.R_002]) =
  finalStatus (resolveEmployeeDay Samples.testUser Samples2.marchMonday
                 Samples2.matrixContext [Samples.R_001]).
Proof.
  assert (filter (λ r, rule_type r = "DAY_PATTERN") [Samples.R_001; Samples.R_002] =
          filter (λ r, rule_type r = "DAY_PATTERN") [Samples.R_001]) as E
    by (by vm_compute).
  exact (proj1 (status_depends_on_day_patterns_only Samples.testUser
                  Samples2.marchMonday Samples2.matrixContext _ _ E)).
Defined.

End OnSamples.

Section WithHost.
Context `{host : !Host}.

(** X2. A rule that is not active on the day (the date is outside its range,
    its frequency does not name the weekday, or it fails the input audit)
    has no effect whatsoever on the resolution, wherever it stands in the
    employee's rule list. *)
Theorem inactive_rule_is_ignored (emp : Employee) (meta : DayMeta)
    (ctx : EngineContext) (before after : list Rule) (r : Rule) :
  isActive meta r = false →
  resolveEmployeeDay emp meta ctx (before ++ r :: after) =
  resolveEmployeeDay emp meta ctx (before ++ after).
Proof.
  intros Hr. unfold resolveEmployeeDay.
  assert (activeRulesOf meta (before ++ r :: after) =
          activeRulesOf meta (before ++ after)) as ->; [|done].
  unfold activeRulesOf. rewrite !filter_app, filter_cons.
  rewrite decide_False by (by rewrite Hr). done.
Qed.

End WithHost.

Section OnSamples.
#[local] Existing Instance Samples.utcHost.

Lemma inactive_rule_is_ignored_witness :
  isActive Samples.monday Samples.R_002 = false ∧
  resolveEmployeeDay Samples.testUser Samples.monday Samples2.matrixContext
    [Samples.R_001; Samples.R_002] =
  resolveEmployeeDay Samples.testUser Samples.monday Samples2.matrixContext
    [Samples.R_001].
Proof.
  assert (isActive Samples.monday Samples.R_002 = false) as E by (by vm_compute).
  split; [exact E|].
  exact (inactive_rule_is_ignored Samples.testUser Samples.monday
           Samples2.matrixContext [Samples.R_001] [] Samples.R_002 E).
Defined.

End OnSamples.

Section WithHost.
Context `{host : !Host}.

Lemma shiftText_OFF s : shiftText s ≠ "OFF" → s ≠ "OFF".
Proof. intros Hs ->. by apply Hs. Qed.

Lemma pass1_shift_invariant emp meta active :
  let st1 := pass1 emp meta active (baseState emp meta) in
  isWorkDay st1 = negb (bool_decide (currentShift st1 = "OFF")).
Proof.
  assert (isWorkDay (baseState emp meta) =
          negb (bool_decide (currentShift (baseState emp meta) = "OFF"))) as Hb.
  { unfold baseState, baseIsWorkOf. simpl.
    destruct (negb (_ || _)); simpl; [|done].
    destruct (bool_decide (baseShift emp = "OFF")) eqn:E2; simpl; [done|].
    by rewrite E2. }
  unfold pass1. generalize (findWinningRule active "DAY_PATTERN"). intros w.
  generalize dependent (baseState emp meta). intros st Hb.
  destruct (bool_decide (rule_id w = "")); [done|].
  destruct (_ || _); [done|].
  destruct (negb (bool_decide (shiftText (shift w) = "OFF") || _)) eqn:Hv; simpl.
  - apply negb_true_iff, orb_false_iff in Hv as [Hv _].
    apply bool_decide_eq_false, shiftText_OFF in Hv.
    by rewrite bool_decide_eq_false_2.
  - destruct (bool_decide (currentShift st = "OFF")) eqn:Hc; simpl.
    + destruct (bool_decide (baseShift emp = "OFF")) eqn:E2; simpl; [done|].
      by rewrite E2.
    + by rewrite Hc.
Qed.

(** X3. After Pass 1 the day is a work day exactly when the current shift is
    not the text OFF. After Pass 2 an off day still has the shift OFF, and a
    work day has the shift OFF only when the employee's own base shift is
    OFF (Pass 2 fell back to it). *)
Theorem work_day_has_a_shift (emp : Employee) (meta : DayMeta)
    (rules : list Rule) :
  let active := activeRulesOf meta rules in
  let st1 := pass1 emp meta active (baseState emp meta) in
  let st2 := stateAfterPasses emp meta rules in
  isWorkDay st1 = negb (bool_decide (currentShift st1 = "OFF")) ∧
  (isWorkDay st2 = false → currentShift st2 = "OFF") ∧
  (isWorkDay st2 = true → currentShift st2 = "OFF" → baseShift emp = "OFF").
Proof.
  intros active st1 st2.
  pose proof (pass1_shift_invariant emp meta active) as H1. simpl in H1.
  fold st1 in H1. split; [done|].
  assert (isWorkDay st2 = isWorkDay st1) as Hw2
    by apply ResolverFacts.pass2_isWorkDay.
  rewrite Hw2. unfold st2, stateAfterPasses. fold active. fold st1.
  unfold pass2. split; intros Hw; rewrite Hw in H1 |- *; symmetry in H1.
  - by apply negb_false_iff, bool_decide_eq_true in H1.
  - apply negb_true_iff, bool_decide_eq_false in H1.
    destruct (bool_decide (rule_id _ = "")); [done|].
    destruct (negb (bool_decide (shiftText _ = "OFF")) && _) eqn:Hv; simpl; [|done].
    apply andb_true_iff in Hv as [Hv _].
    apply negb_true_iff, bool_decide_eq_false, shiftText_OFF in Hv. done.
Qed.

(** X4. [findWinningRule] always returns one of the given rules of the
    requested kind when there is one (whatever the priorities are), and the
    placeholder with blank id and priority -1 when there is none. *)
Theorem findWinningRule_picks_candidate (rules : list Rule) (ty : string) :
  (filter (λ r, rule_type r = ty) rules ≠ [] →
   findWinningRule rules ty ∈ rules ∧ rule_type (findWinningRule rules ty) = ty) ∧
  (filter (λ r, rule_type r = ty) rules = [] →
   findWinningRule rules ty = emptyRule).
Proof.
  split.
  - intros Hne.
    apply findWinningRule_candidate, list_elem_of_filter in Hne as [? ?]. done.
  - apply ResolverFacts.findWinningRule_nil.
Qed.

End WithHost.

Section OnSamples.
#[local] Existing Instance Samples.utcHost.

Lemma findWinningRule_picks_candidate_witness :
  findWinningRule [Samples.R_low1; Samples.R_002; Samples.R_low5] "DAY_PATTERN"
    ∈ [Samples.R_low1; Samples.R_002; Samples.R_low5] ∧
  findWinningRule [Samples.R_002] "DAY_PATTERN" = emptyRule.
Proof.
  split.
  - apply (findWinningRule_picks_candidate
             [Samples.R_low1; Samples.R_002; Samples.R_low5] "DAY_PATTERN").
    by vm_compute.
  - apply (findWinningRule_picks_candidate [Samples.R_002] "DAY_PATTERN").
    by vm_compute.
Defined.

End OnSamples.

Section WithHost.
Context `{host : !Host}.

Lemma verifyShiftOverride_Some w fs active msg :
  verifyShiftOverride w fs active = Some msg →
  w = true ∧
  rule_id (findWinningRule active "SHIFT_OVERRIDE") ≠ "" ∧
  shift (findWinningRule active "SHIFT_OVERRIDE") ≠ "" ∧
  fs ≠ shift (findWinningRule active "SHIFT_OVERRIDE") ∧
  fs ≠ "LEAVE" ∧ fs ≠ "COMP_DAY" ∧ fs ≠ "OFF".
Proof.
  unfold verifyShiftOverride. intros H.
  destruct w; simpl in H; [|done].
  repeat (case_match; try done).
  repeat match goal with
  | H : _ && _ = true |- _ => apply andb_true_iff in H as [? ?]
  | H : negb _ = true |- _ => apply negb_true_iff, bool_decide_eq_false in H
  end. done.
Qed.

Lemma resolve_reason emp meta ctx rules m :
  let st := stateAfterPasses emp meta rules in
  let res := resolveEmployeeDay emp meta ctx rules in
  lookupMatrix (matrixIndex ctx) (flagsOf emp meta ctx st) = Some m →
  Reason (row res) =
  default (row_reason m)
    (verifyShiftOverride (isWorkDay st) (Final_Shift (row res))
       (activeRulesOf meta rules)) ∧
  (Final_Shift (row res) = "OFF" ∨
   (finalStatus res = "WORK" ∧ Final_Shift (row res) = currentShift st)).
Proof.
  intros st res Hm. unfold res, resolveEmployeeDay.
  fold (stateAfterPasses emp meta rules). fold st. rewrite Hm.
  repeat case_match; simplify_eq/=; split; try done; auto.
  all: right; split; [|done]; by eapply bool_decide_eq_true_1.
Qed.

(** X5. The mirror audit replaces the matched row's reason only in one
    situation: the final status is WORK, an active SHIFT_OVERRIDE rule won
    Pass 2 and its shift reads empty or OFF, so that the final shift is the
    employee's base shift instead. When no override wins, or the winning
    override's shift is usable, the reason is the matched row's. *)
Theorem mirror_audit_fails_only_on_fallback (emp : Employee) (meta : DayMeta)
    (ctx : EngineContext) (rules : list Rule) (m : DecisionMatrixRow) :
  let st := stateAfterPasses emp meta rules in
  let w := findWinningRule (activeRulesOf meta rules) "SHIFT_OVERRIDE" in
  let res := resolveEmployeeDay emp meta ctx rules in
  lookupMatrix (matrixIndex ctx) (flagsOf emp meta ctx st) = Some m →
  Reason (row res) = row_reason m ∨
  (finalStatus res = "WORK" ∧ rule_id w ≠ "" ∧
   (shiftText (shift w) = "" ∨ shiftText (shift w) = "OFF") ∧
   Final_Shift (row res) = baseShift emp).
Proof.
  intros st w res Hm.
  destruct (resolve_reason emp meta ctx rules m Hm) as [HR HS].
  fold res st in HR, HS.
  destruct (verifyShiftOverride _ _ _) as [msg|] eqn:Hv; [|by left].
  right. apply verifyShiftOverride_Some in Hv as (Hw & Hid & Hsh & Hne & _ & _ & Hoff).
  fold w in Hid, Hsh, Hne.
  destruct HS as [?|[Hst Hfs]]; [done|].
  split; [done|]. split; [done|].
  rewrite Hfs in Hne |- *.
  unfold st, stateAfterPasses in Hw, Hne |- *.
  rewrite ResolverFacts.pass2_isWorkDay in Hw.
  unfold pass2 in Hne |- *. rewrite Hw in Hne |- *. fold w in Hne |- *.
  rewrite bool_decide_eq_false_2 in Hne |- * by done.
  destruct (negb (bool_decide (shiftText (shift w) = "OFF")) &&
            negb (bool_decide (shiftText (shift w) = ""))) eqn:Hvalid;
    [done|].
  split; [|done].
  apply andb_false_iff in Hvalid as [H|H];
    apply negb_false_iff, bool_decide_eq_true in H; auto.
Qed.

End WithHost.

Section OnSamples.
#[local] Existing Instance Samples.utcHost.

Lemma mirror_audit_fails_only_on_fallback_witness :
  Reason (row (resolveEmployeeDay Samples.testUser Samples2.marchMonday
                 Samples2.matrixContext [Samples.R_002])) = "Regular work day".
Proof.
  destruct (mirror_audit_fails_only_on_fallback Samples.testUser
              Samples2.marchMonday Samples2.matrixContext [Samples.R_002]
              (Build_DecisionMatrixRow "WORK" "NONE" "FALSE" "NONE" "WORK" "NONE"
                 "Regular work day")) as [E|(_ & _ & [E|E] & _)].
  - by vm_compute.
  - exact E.
  - by vm_compute in E.
  - by vm_compute in E.
Defined.

End OnSamples.

Section WithHost.
Context `{host : !Host}.

Lemma flagsOf_reqFlag emp meta ctx st :
  reqFlag (flagsOf emp meta ctx st) =
  (entitlementInput ctx (emp_id emp +:+ "|" +:+ str meta)
     (leaveInput ctx (emp_id emp +:+ "|" +:+ str meta)).1).1.
Proof. done. Qed.

Lemma leaveInput_flag ctx key :
  ((leaveInput ctx key).1 = "LEAVE" ∧ ∃ lv, leaves ctx !! key = Some lv ∧ lv ≠ "") ∨
  ((leaveInput ctx key).1 = "NONE" ∧ ¬ ∃ lv, leaves ctx !! key = Some lv ∧ lv ≠ "").
Proof.
  unfold leaveInput. destruct (leaves ctx !! key) as [lv|].
  - case_bool_decide as E; simpl.
    + right. split; [done|]. intros (lv' & [= <-] & Hne). done.
    + left. split; [done|]. by exists lv.
  - right. split; [done|]. by intros (lv' & ? & _).
Qed.

Lemma entitlementInput_flag ctx key req :
  ((entitlementInput ctx key req).1 = (if bool_decide (req = "NONE") then "COMP_DAY" else req) ∧
   ∃ led, ledger ctx !! key = Some led ∧
          (status led = "COMP_DAY" ∨ status led = "OFF")) ∨
  ((entitlementInput ctx key req).1 = req ∧
   ¬ ∃ led, ledger ctx !! key = Some led ∧
            (status led = "COMP_DAY" ∨ status led = "OFF")).
Proof.
  unfold entitlementInput. destruct (ledger ctx !! key) as [led|].
  - destruct (bool_decide (status led = "COMP_DAY") ||
              bool_decide (status led = "OFF")) eqn:E; simpl.
    + left. split; [done|]. exists led. split; [done|].
      apply orb_true_iff in E as [E|E]; apply bool_decide_eq_true in E; auto.
    + right. split; [done|]. intros (led' & [= <-] & Hst).
      apply orb_false_iff in E as [E1 E2].
      apply bool_decide_eq_false in E1, E2. tauto.
  - right. split; [done|]. by intros (led' & ? & _).
Qed.

(** X6. The request flag of the matrix lookup is LEAVE exactly when a leave
    with a non-empty type is recorded for the employee and day - whatever
    the ledger holds -, COMP_DAY exactly when there is no such leave and
    the ledger entry of that key has status COMP_DAY or OFF, and NONE
    otherwise; it does not depend on the rules. *)
Theorem request_flag_by_leave_then_ledger (emp : Employee) (meta : DayMeta)
    (ctx : EngineContext) (st : DayState) :
  let key := emp_id emp +:+ "|" +:+ str meta in
  let onLeave := ∃ lv, leaves ctx !! key = Some lv ∧ lv ≠ "" in
  let entitled :=
    ∃ led, ledger ctx !! key = Some led ∧
           (status led = "COMP_DAY" ∨ status led = "OFF") in
  let req := reqFlag (flagsOf emp meta ctx st) in
  (req = "LEAVE" ↔ onLeave) ∧
  (req = "COMP_DAY" ↔ ¬ onLeave ∧ entitled) ∧
  (req = "NONE" ↔ ¬ onLeave ∧ ¬ entitled).
Proof.
  intros key onLeave entitled req.
  unfold req. rewrite flagsOf_reqFlag. fold key.
  destruct (leaveInput_flag ctx key) as [[Hl HL]|[Hl HL]];
    destruct (entitlementInput_flag ctx key (leaveInput ctx key).1) as [[He HE]|[He HE]];
    rewrite He, Hl; simpl; clear He Hl; unfold onLeave, entitled;
    (split_and!; split; [done || tauto ..]).
Qed.

(** X7. When the matched row's final status is LEAVE, the final status of
    the resolution is not that text but the recorded leave type (the
    Leave_Input column): the type's own text when a leave is recorded, NONE
    when none is. The result reads LEAVE only for a leave whose type is
    literally LEAVE. *)
Theorem leave_status_is_the_leave_type (emp : Employee) (meta : DayMeta)
    (ctx : EngineContext) (rules : list Rule) (m : DecisionMatrixRow) :
  let key := emp_id emp +:+ "|" +:+ str meta in
  let res := resolveEmployeeDay emp meta ctx rules in
  lookupMatrix (matrixIndex ctx)
    (flagsOf emp meta ctx (stateAfterPasses emp meta rules)) = Some m →
  row_finalStatus m = "LEAVE" →
  finalStatus res = Leave_Input (row res) ∧
  Final_Status (row res) = Leave_Input (row res) ∧
  (∀ lv, leaves ctx !! key = Some lv → lv ≠ "" → finalStatus res = lv) ∧
  (leaves ctx !! key = None ∨ leaves ctx !! key = Some "" →
   finalStatus res = "NONE") ∧
  (finalStatus res = "LEAVE" ↔ leaves ctx !! key = Some "LEAVE").
Proof.
  intros key res Hm Hleave.
  pose proof (resolve_status emp meta ctx rules) as Hs. cbv zeta in Hs.
  rewrite Hm, bool_decide_eq_true_2 in Hs by done.
  injection Hs as Hs _. fold key res in Hs.
  destruct (resolve_row_inputs emp meta ctx rules)
    as (_ & _ & _ & _ & _ & _ & HL & _ & _ & HF).
  fold key res in HL, HF. rewrite HF, HL, Hs.
  unfold leaveInput.
  destruct (leaves ctx !! key) as [lv|] eqn:El; [case_bool_decide as Elv|]; simpl.
  - subst lv. split_and!; [done|done|by intros ? [= <-]|done|].
    split; [done|]. by intros [= ?].
  - split_and!; [done|done|by intros ? [= <-]|by intros [?|[= ?]]|].
    split; [by intros ->|by intros [= ->]].
  - split_and!; [done|done|done|done|]. split; done.
Qed.

End WithHost.

Section OnSamples.
#[local] Existing Instance Samples.utcHost.

Lemma leave_status_is_the_leave_type_witness :
  finalStatus (resolveEmployeeDay Samples.testUser Samples2.marchMonday
                 Samples2.leaveContext []) = "ANNUAL_LEAVE".
Proof.
  destruct (leave_status_is_the_leave_type Samples.testUser Samples2.marchMonday
              Samples2.leaveContext []
              (Build_DecisionMatrixRow "WORK" "NONE" "FALSE" "LEAVE" "LEAVE" "NONE"
                 "Approved leave"))
    as (_ & _ & Hlv & _).
  - by vm_compute.
  - reflexivity.
  - apply Hlv; [by vm_compute|discriminate].
Defined.

End OnSamples.

End ResolverMore.

(** ** [Utils/Helpers.js] *)

Module HelpersFacts.
Import Terms.
Local Open Scope nat_scope.
Section WithHost.
Context `{!Host}.

Lemma mapHeadersFrom_last r : ∀ n (m : gmap string nat) k i,
  Helpers.mapHeadersFrom n r m !! k = Some i ↔
  (∃ j v, i = n + j ∧ r !! j = Some v ∧ headerName v = k ∧
          ∀ j' w, j < j' → r !! j' = Some w → headerName w ≠ k) ∨
  (m !! k = Some i ∧ ∀ v, v ∈ r → headerName v ≠ k).
Proof.
  induction r as [|v r IH]; intros n m k i; simpl.
  { split.
    - intros Hm. right. split; [done|]. intros ? ?%elem_of_nil. done.
    - intros [(j & w & _ & Hj & _)|[Hm _]]; [by rewrite lookup_nil in Hj|done]. }
  fold (headerName v). rewrite IH. split.
  - intros [(j & w & -> & Hj & Hw & Hlater)|[Hm Hnone]].
    + left. exists (S j), w. split_and!; [lia|done|done|].
      intros [|j'] w' Hlt Hj'; [lia|]. apply (Hlater j'); [lia|done].
    + destruct (decide (headerName v = k)) as [E|NE].
      * rewrite E, lookup_insert_eq in Hm. simplify_eq. left.
        exists 0, v. split_and!; [lia|done|done|].
        intros [|j'] w' Hlt Hj'; [lia|].
        apply Hnone. by eapply list_elem_of_lookup_2.
      * rewrite lookup_insert_ne in Hm by done. right. split; [done|].
        intros w [->|Hw]%elem_of_cons; [done|by apply Hnone].
  - intros [(j & w & -> & Hj & Hw & Hlater)|[Hm Hnone]].
    + destruct j as [|j]; simpl in Hj.
      * simplify_eq. right. split; [rewrite lookup_insert_eq; f_equal; lia|].
        intros w' (j' & Hj')%list_elem_of_lookup_1.
        apply (Hlater (S j')); [lia|done].
      * left. exists j, w. split_and!; [lia|done|done|].
        intros j' w' Hlt Hj'. apply (Hlater (S j')); [lia|done].
    + right. split.
      * rewrite lookup_insert_ne; [done|]. apply Hnone. by left.
      * intros w Hw. apply Hnone. by right.
Qed.

Lemma mapHeadersFrom_is_Some r : ∀ n (m : gmap string nat) k,
  is_Some (m !! k) ∨ (∃ v, v ∈ r ∧ headerName v = k) →
  is_Some (Helpers.mapHeadersFrom n r m !! k).
Proof.
  induction r as [|v r IH]; intros n m k; simpl.
  { intros [?|(v & ?%elem_of_nil & _)]; done. }
  intros Hk. apply IH. fold (headerName v).
  destruct (decide (headerName v = k)) as [E|NE].
  { left. rewrite E, lookup_insert_eq. by eexists. }
  rewrite lookup_insert_ne by done.
  destruct Hk as [?|(w & [->|Hw]%elem_of_cons & Hn)]; [by left|done|].
  right. by exists w.
Qed.

(** X8. [mapHeaders] files every header cell under its trimmed, lower-cased
    text: a name is mapped to the last column that carries it, and to
    nothing exactly when no header cell carries it. *)
Theorem mapHeaders_last_column (r : list Cell) (k : string) :
  (∀ i, Helpers.mapHeaders r !! k = Some i ↔
        (∃ v, r !! i = Some v ∧ headerName v = k) ∧
        (∀ j w, i < j → r !! j = Some w → headerName w ≠ k)) ∧
  (Helpers.mapHeaders r !! k = None ↔ ∀ v, v ∈ r → headerName v ≠ k).
Proof.
  assert (∀ i, Helpers.mapHeaders r !! k = Some i ↔
        (∃ v, r !! i = Some v ∧ headerName v = k) ∧
        (∀ j w, i < j → r !! j = Some w → headerName w ≠ k)) as Hsome.
  { intros i. unfold Helpers.mapHeaders. rewrite mapHeadersFrom_last. split.
    - intros [(j & v & -> & Hj & Hv & Hlater)|[Hm _]];
        [|by rewrite lookup_empty in Hm].
      split; [by exists v|done].
    - intros [(v & Hi & Hv) Hlater]. left. by exists i, v. }
  split; [done|]. split.
  - intros Hnone v Hv Hk.
    destruct (mapHeadersFrom_is_Some r 0 ∅ k) as [i Hi]; [right; by exists v|].
    unfold Helpers.mapHeaders in Hnone. congruence.
  - intros Hnone. apply eq_None_not_Some. intros [i E].
    apply Hsome in E as [(v & Hi & Hv) _].
    eapply Hnone; [|done]. by eapply list_elem_of_lookup_2.
Qed.

Lemma mapHeaders_is_Some r k :
  is_Some (Helpers.mapHeaders r !! k) ↔ ∃ v, v ∈ r ∧ headerName v = k.
Proof.
  split.
  - intros [i Hi]. apply LedgerFacts.mapHeaders_lookup in Hi as (v & Hv & Hn).
    exists v. split; [by eapply list_elem_of_lookup_2|done].
  - intros Hv. apply mapHeadersFrom_is_Some. by right.
Qed.

Lemma col_is_Some r name :
  is_Some (WorkspaceProcessor.col (Helpers.mapHeaders r) name) ↔
  ∃ v, v ∈ r ∧ headerName v = Js.toLowerCase name.
Proof. apply mapHeaders_is_Some. Qed.

End WithHost.

(** *** [checkMatch] *)

Lemma checkMatch_norm c v c' v' :
  Js.trim (Js.toUpperCase c) = Js.trim (Js.toUpperCase c') →
  Js.trim (Js.toUpperCase v) = Js.trim (Js.toUpperCase v') →
  Helpers.checkMatch c v = Helpers.checkMatch c' v'.
Proof. unfold Helpers.checkMatch. by intros -> ->. Qed.

(** X9. [checkMatch] reads both of its arguments without regard to letter
    case and to blanks around them: lower-casing or trimming the criterion
    or the value does not change the result, and a criterion always matches
    the value that is its own normal form. *)
Theorem checkMatch_ignores_case_and_blanks (c v : string) :
  Helpers.checkMatch (Js.toLowerCase c) v = Helpers.checkMatch c v ∧
  Helpers.checkMatch (Js.trim c) v = Helpers.checkMatch c v ∧
  Helpers.checkMatch c (Js.toLowerCase v) = Helpers.checkMatch c v ∧
  Helpers.checkMatch c (Js.trim v) = Helpers.checkMatch c v ∧
  Helpers.checkMatch (" " +:+ c) v = Helpers.checkMatch c v ∧
  Helpers.checkMatch c (Js.trim (Js.toUpperCase c)) = true.
Proof.
  split_and!.
  - apply checkMatch_norm; [|done]. by rewrite JsTrimFacts.toUpperCase_toLowerCase.
  - apply checkMatch_norm; [|done].
    by rewrite !JsTrimFacts.trim_toUpperCase, JsTrimFacts.trim_idem.
  - apply checkMatch_norm; [done|]. by rewrite JsTrimFacts.toUpperCase_toLowerCase.
  - apply checkMatch_norm; [done|].
    by rewrite !JsTrimFacts.trim_toUpperCase, JsTrimFacts.trim_idem.
  - apply checkMatch_norm; [|done]. done.
  - unfold Helpers.checkMatch.
    rewrite (JsTrimFacts.trim_toUpperCase (Js.trim (Js.toUpperCase c))).
    rewrite JsTrimFacts.trim_idem, <-JsTrimFacts.trim_toUpperCase.
    rewrite JsTrimFacts.toUpperCase_idem.
    repeat case_bool_decide; done.
Qed.

(** *** [normalizeDay] *)

Lemma substring0_mapChars f n s :
  Js.substring0 n (Js.mapChars f s) = Js.mapChars f (Js.substring0 n s).
Proof.
  unfold Js.substring0. revert s.
  induction n as [|n IH]; intros [|c s]; simpl; try done. by rewrite IH.
Qed.

Lemma toUpperCase_substring0 n s :
  Js.toUpperCase (Js.substring0 n s) = Js.substring0 n (Js.toUpperCase s).
Proof. symmetry. apply substring0_mapChars. Qed.

Lemma substring0_idem n s :
  Js.substring0 n (Js.substring0 n s) = Js.substring0 n s.
Proof.
  unfold Js.substring0. revert s.
  induction n as [|n IH]; intros [|c s]; simpl; try done. by rewrite IH.
Qed.

Lemma substring0_length n s : String.length (Js.substring0 n s) ≤ n.
Proof.
  unfold Js.substring0. revert s.
  induction n as [|n IH]; intros [|c s]; simpl; try lia.
  specialize (IH s). lia.
Qed.

Lemma normalizeDay_spec d :
  Helpers.normalizeDay d = Js.substring0 3 (Js.toUpperCase d).
Proof.
  unfold Helpers.normalizeDay. case_bool_decide as E; [|done]. by rewrite E.
Qed.

(** X10. [normalizeDay] yields at most three characters, in upper case; it
    does not depend on the letter case of its argument and normalising
    twice is the same as normalising once. *)
Theorem normalizeDay_normal (d : string) :
  (String.length (Helpers.normalizeDay d) ≤ 3)%nat ∧
  Js.toUpperCase (Helpers.normalizeDay d) = Helpers.normalizeDay d ∧
  Helpers.normalizeDay (Js.toLowerCase d) = Helpers.normalizeDay d ∧
  Helpers.normalizeDay (Helpers.normalizeDay d) = Helpers.normalizeDay d.
Proof.
  rewrite !normalizeDay_spec. split_and!.
  - apply substring0_length.
  - by rewrite toUpperCase_substring0, JsTrimFacts.toUpperCase_idem.
  - by rewrite JsTrimFacts.toUpperCase_toLowerCase.
  - rewrite toUpperCase_substring0, JsTrimFacts.toUpperCase_idem.
    by rewrite substring0_idem.
Qed.

End HelpersFacts.

(** ** Simple lists *)

Module ListsFacts.
Import Terms Lists.
Local Open Scope nat_scope.
Section WithHost.
Context `{!Host}.

Lemma parseSimpleList_no_column (sh : Sheet) (col : string) :
  CStr col ∉ header sh → parseSimpleList (Some sh) col = ∅.
Proof.
  unfold parseSimpleList.
  intros Hno. destruct (list_find _ _) as [[i c]|] eqn:E; [|done].
  apply list_find_Some in E as (Hi & -> & _).
  exfalso. apply Hno. by eapply list_elem_of_lookup_2.
Qed.

(** X11. [parseSimpleList] reads the column whose header cell is exactly the
    given text - the first such column: the set holds the formatted dates of
    that column's cells that parse as dates, and it is empty when no header
    cell is that text. *)
Theorem parseSimpleList_members (sh : Sheet) (col : string) :
  (CStr col ∉ header sh → parseSimpleList (Some sh) col = ∅) ∧
  (∀ idx, header sh !! idx = Some (CStr col) →
     (∀ j, j < idx → header sh !! j ≠ Some (CStr col)) →
     ∀ s, s ∈ parseSimpleList (Some sh) col ↔
          ∃ r dt, r ∈ body sh ∧
                  Helpers.parseSafeDate (Helpers.cellAt r (Some idx)) = Some dt ∧
                  formatDate dt = s).
Proof.
  split; [apply parseSimpleList_no_column|].
  unfold parseSimpleList.
  - intros idx Hidx Hfirst s.
    destruct (list_find _ _) as [[i c]|] eqn:E.
    + apply list_find_Some in E as (Hi & -> & Hbefore).
      assert (i = idx) as ->.
      { destruct (Nat.lt_trichotomy i idx) as [Hlt|[?|Hlt]]; [|done|].
        - by destruct (Hfirst i Hlt).
        - by destruct (Hbefore idx _ Hidx Hlt). }
      rewrite elem_of_list_to_set, list_elem_of_omap. split.
      * intros (r & Hr & Hs). apply fmap_Some in Hs as (dt & Hdt & ->).
        by exists r, dt.
      * intros (r & dt & Hr & Hdt & <-). exists r. split; [done|].
        simpl in Hdt |- *. by rewrite Hdt.
    + apply list_find_None in E. rewrite Forall_forall in E.
      exfalso. apply (E (CStr col)); [|done]. by eapply list_elem_of_lookup_2.
Qed.

End WithHost.
End ListsFacts.

(** ** The log buffer *)

Module LoggerFacts.
Import Logger.
Local Open Scope nat_scope.

Lemma flushLogs_nonempty buffer logs :
  buffer ≠ [] →
  flushLogs buffer logs =
  ([], Some (default [CStr <$> Tabs.logs_h] logs ++ (entryRow <$> buffer))).
Proof.
  intros Hne. unfold flushLogs.
  rewrite bool_decide_eq_false_2 by (by destruct buffer).
  by destruct logs.
Qed.

(** X12. [flushLogs] writes the buffered entries, one row each and in the
    order they were logged, after the last row of the System_Logs tab -
    creating the tab with its header row when the file has none - and empties
    the buffer, so that a second flush changes nothing; with an empty buffer
    it does nothing at all, not even create the tab. *)
Theorem flushLogs_writes_buffer_once (buffer : Buffer)
    (logs : option (list (list Cell))) :
  let '(buffer', logs') := flushLogs buffer logs in
  buffer' = [] ∧
  flushLogs buffer' logs' = (buffer', logs') ∧
  (buffer = [] → logs' = logs) ∧
  (buffer ≠ [] →
   ∃ rows, logs' = Some (rows ++ (entryRow <$> buffer)) ∧
           match logs with
           | Some old => rows = old
           | None => rows = [CStr <$> Tabs.logs_h]
           end).
Proof.
  destruct buffer as [|e buffer].
  - simpl. split_and!; try done.
  - rewrite flushLogs_nonempty by done. split_and!; try done.
    intros _. exists (default [CStr <$> Tabs.logs_h] logs).
    split; [done|]. by destruct logs.
Qed.

End LoggerFacts.

(** ** Schema validation *)

Module SchemaFacts.
Import Terms Logger SchemaValidator.
Local Open Scope nat_scope.
Section WithHost.
Context `{!Host}.

Lemma filter_nil_iff {A} (P : A → Prop) `{!∀ x, Decision (P x)} (l : list A) :
  filter P l = [] ↔ ∀ x, x ∈ l → ¬ P x.
Proof.
  split.
  - intros E x Hx HP. by eapply filter_nil_not_elem_of.
  - intros Hall. induction l as [|x l IH]; [done|].
    rewrite filter_cons_False by (apply Hall; by left).
    apply IH. intros y Hy. apply Hall. by right.
Qed.

Lemma getLastColumn_zero sh : getLastColumn sh = 0 ↔ blankSheet sh.
Proof.
  unfold getLastColumn, blankSheet.
  destruct (existsb (existsb hasContent) (header sh :: body sh)) eqn:E.
  - apply existsb_exists in E as (r & Hr & (c & Hc & Hcont)%existsb_exists).
    apply list_elem_of_In in Hr, Hc.
    unfold hasContent in Hcont. apply negb_true_iff, bool_decide_eq_false in Hcont.
    split.
    + intros Hmax. exfalso.
      assert (length r ≤ max_list (length <$> header sh :: body sh)) as Hle.
      { apply max_list_elem_of_le, list_elem_of_fmap. by exists r. }
      rewrite Hmax in Hle.
      destruct r; [by apply elem_of_nil in Hc|]. simpl in Hle. lia.
    + intros Hblank. by destruct (Hcont (Hblank r c Hr Hc)).
  - split; [|done]. intros _ r c Hr Hc.
    destruct (decide (c = CStr "")) as [|Hne]; [done|]. exfalso.
    assert (existsb (existsb hasContent) (header sh :: body sh) = true) as Ht;
      [|by rewrite E in Ht].
    apply existsb_exists. exists r. split; [by apply list_elem_of_In|].
    apply existsb_exists. exists c. split; [by apply list_elem_of_In|].
    unfold hasContent. by rewrite bool_decide_eq_false_2.
Qed.

Lemma getLastColumn_take sh : take (getLastColumn sh) (header sh) = header sh ∨
                              getLastColumn sh = 0.
Proof.
  unfold getLastColumn. destruct (existsb _ _); [|by right]. left.
  apply take_ge. apply max_list_elem_of_le. rewrite fmap_cons. by left.
Qed.

Lemma blankSheet_header sh v : v ∈ header sh → v ≠ CStr "" → ¬ blankSheet sh.
Proof. intros Hv Hne Hblank. apply Hne, (Hblank (header sh)); [by left|done]. Qed.

Lemma missing_nil (sh : Sheet) expected :
  filter (λ req, Helpers.mapHeaders (header sh) !! req = None)
    ((λ h, Js.toLowerCase (Js.trim h)) <$> expected) = [] ↔
  hasHeaders sh expected.
Proof.
  rewrite filter_nil_iff. unfold hasHeaders. split.
  - intros Hall n Hn. apply HelpersFacts.mapHeaders_is_Some.
    apply not_eq_None_Some. apply Hall. apply list_elem_of_fmap. by exists n.
  - intros Hall req (n & -> & Hn)%list_elem_of_fmap.
    apply not_eq_None_Some, HelpersFacts.mapHeaders_is_Some. by apply Hall.
Qed.

Lemma validateSheetHeaders_Some now sh expected name runId buffer :
  (blankSheet sh ∧
   validateSheetHeaders now (Some sh) expected name runId buffer =
   (buffer, Thrown noColumnsMessage)) ∨
  (¬ blankSheet sh ∧ hasHeaders sh expected ∧
   validateSheetHeaders now (Some sh) expected name runId buffer = (buffer, Returned ())) ∨
  (¬ blankSheet sh ∧ ¬ hasHeaders sh expected ∧
   ∃ msg, validateSheetHeaders now (Some sh) expected name runId buffer =
          (logError now runId msg "" buffer, Thrown msg)).
Proof.
  unfold validateSheetHeaders. rewrite <-getLastColumn_zero.
  case_bool_decide as Hcol; [by left|]. right.
  destruct (getLastColumn_take sh) as [-> |Hzero]; [|done].
  destruct (filter _ _) as [|m ms] eqn:E.
  - left. split; [done|]. split; [by apply missing_nil|done].
  - right. split; [done|]. split; [rewrite <-missing_nil, E; done|].
    rewrite bool_decide_eq_true_2 by (simpl; lia). by eexists.
Qed.

(** X13. [validateSheetHeaders] returns normally exactly when the sheet
    exists, has content, and every expected header, trimmed and lower-cased,
    is the name of one of its header cells; it then logs nothing. On a tab
    that is there but has no content the host's exception leaves the
    function, and nothing is logged either. In every other case - no such
    sheet, or a header missing - it throws its own error, after buffering
    one ERROR entry that carries the thrown message. *)
Theorem validateSheetHeaders_passes_iff (now : Date) (sheet : option Sheet)
    (expected : list string) (name runId : string) (buffer : Buffer) :
  let '(buffer', outcome) :=
    validateSheetHeaders now sheet expected name runId buffer in
  (outcome = Returned () ↔
   ∃ sh, sheet = Some sh ∧ ¬ blankSheet sh ∧ hasHeaders sh expected) ∧
  (outcome = Returned () → buffer' = buffer) ∧
  ((∃ sh, sheet = Some sh ∧ blankSheet sh) →
   outcome = Thrown noColumnsMessage ∧ buffer' = buffer) ∧
  ((¬ ∃ sh, sheet = Some sh ∧ blankSheet sh) →
   ∀ msg, outcome = Thrown msg →
     buffer' = buffer ++ [{| log_runId := runId; log_time := now;
                             log_level := "ERROR"; log_message := msg;
                             log_context := "" |}]).
Proof.
  destruct sheet as [sh|].
  - destruct (validateSheetHeaders_Some now sh expected name runId buffer)
      as [[Hcol ->]|[(Hcol & Hh & ->)|(Hcol & Hh & msg & ->)]].
    + split_and!; [|done|done|].
      * split; [done|]. intros (? & [= <-] & ? & _). done.
      * intros Hno. exfalso. apply Hno. by exists sh.
    + split_and!; [|done| |done].
      * split; [by exists sh|done].
      * intros (? & [= <-] & ?). done.
    + split_and!; [|done| |by intros _ ? [= <-]].
      * split; [done|]. intros (? & [= <-] & _ & ?). done.
      * intros (? & [= <-] & ?). done.
  - simpl. split_and!; [|done| |by intros _ ? [= <-]].
    + split; [done|]. by intros (? & ? & _).
    + by intros (? & ? & _).
Qed.

Lemma validateEach_spec now db runId tabs : ∀ buffer,
  ((∀ tab, tab ∈ tabs → tabPasses db tab) ∧
   validateEach now db runId tabs buffer = (buffer, Returned ())) ∨
  (¬ (∀ tab, tab ∈ tabs → tabPasses db tab) ∧
   ((∃ msg, validateEach now db runId tabs buffer =
            (logError now runId msg "" buffer, Thrown msg)) ∨
    ((∃ tab, tab ∈ tabs ∧ tabIsBlank db tab) ∧
     validateEach now db runId tabs buffer = (buffer, Thrown noColumnsMessage)))).
Proof.
  induction tabs as [|[name h] tabs IH]; intros buffer.
  { left. split; [|done]. by intros ? ?%elem_of_nil. }
  change (validateEach now db runId ((name, h) :: tabs) buffer) with
    (match validateSheetHeaders now (db !! name) h name runId buffer with
     | (buffer, Returned _) => validateEach now db runId tabs buffer
     | (buffer, Thrown msg) => (buffer, Thrown msg)
     end).
  destruct (db !! name) as [sh|] eqn:Hsh.
  - destruct (validateSheetHeaders_Some now sh h name runId buffer)
      as [[Hcol ->]|[(Hcol & Hh & ->)|(Hcol & Hh & msg & ->)]].
    + right. split.
      * intros Hall. destruct (Hall (name, h)) as (sh' & E & Hc & _); [by left|].
        simpl in E. rewrite Hsh in E. by simplify_eq.
      * right. split; [|done]. exists (name, h). split; [by left|].
        by exists sh.
    + destruct (IH buffer) as [[Hall ->]|[Hno Hcases]].
      * left. split; [|done].
        intros tab [->|?]%elem_of_cons; [by exists sh|by apply Hall].
      * right. split.
        { intros Hall. apply Hno. intros tab ?. apply Hall. by right. }
        destruct Hcases as [(msg & ->)|[(tab & Hin & Hblank) ->]].
        -- left. by exists msg.
        -- right. split; [|done]. exists tab. split; [by right|done].
    + right. split; [|left; by exists msg].
      intros Hall. destruct (Hall (name, h)) as (sh' & E & _ & ?); [by left|].
      simpl in E. rewrite Hsh in E. by simplify_eq.
  - right. split; [|left; by eexists].
    intros Hall. destruct (Hall (name, h)) as (sh' & E & _); [by left|].
    simpl in E. by rewrite Hsh in E.
Qed.

Lemma validateAllSchemas_cases t0 t1 (ssDb : Spreadsheet) runId buffer :
  let opening := {| log_runId := runId; log_time := t0; log_level := "INFO";
                    log_message := "Validating database schema...";
                    log_context := "" |} in
  ((∀ tab, tab ∈ schemas → tabPasses ssDb tab) ∧
   validateAllSchemas t0 t1 ssDb runId buffer =
   (buffer ++ [opening;
               {| log_runId := runId; log_time := t1; log_level := "INFO";
                  log_message := "Schema validation passed";
                  log_context := "" |}], Returned ())) ∨
  (¬ (∀ tab, tab ∈ schemas → tabPasses ssDb tab) ∧
   ((∃ msg, validateAllSchemas t0 t1 ssDb runId buffer =
            (buffer ++ [opening;
                        {| log_runId := runId; log_time := t1;
                           log_level := "ERROR"; log_message := msg;
                           log_context := "" |}], Thrown msg)) ∨
    ((∃ tab, tab ∈ schemas ∧ tabIsBlank ssDb tab) ∧
     validateAllSchemas t0 t1 ssDb runId buffer =
     (buffer ++ [opening], Thrown noColumnsMessage)))).
Proof.
  intros opening. unfold validateAllSchemas.
  destruct (validateEach_spec t1 ssDb runId schemas
              (logInfo t0 runId "Validating database schema..." "" buffer))
    as [[Hall ->]|[Hno [(msg & ->)|[Hblank ->]]]].
  - left. split; [done|]. unfold logInfo, writeSystemLog.
    by rewrite <-(assoc_L (++)).
  - right. split; [done|]. left. exists msg.
    unfold logError, logInfo, writeSystemLog. by rewrite <-(assoc_L (++)).
  - right. split; [done|]. by right.
Qed.

(** X14. [validateAllSchemas] returns normally exactly when each of the six
    configured tabs is there, has content and has all of its configured
    headers, and it has then buffered its opening and its closing INFO
    entry. When it throws, it has buffered the opening entry and the ERROR
    entry that carries the thrown message - unless the throw is the host's,
    on a configured tab that has no content: then only the opening entry
    has been buffered. *)
Theorem validateAllSchemas_passes_iff (t0 t1 : Date) (ssDb : Spreadsheet)
    (runId : string) (buffer : Buffer) :
  let '(buffer', outcome) := validateAllSchemas t0 t1 ssDb runId buffer in
  let opening := {| log_runId := runId; log_time := t0; log_level := "INFO";
                    log_message := "Validating database schema...";
                    log_context := "" |} in
  (outcome = Returned () ↔ ∀ tab, tab ∈ schemas → tabPasses ssDb tab) ∧
  (outcome = Returned () →
   buffer' = buffer ++ [opening;
                        {| log_runId := runId; log_time := t1;
                           log_level := "INFO";
                           log_message := "Schema validation passed";
                           log_context := "" |}]) ∧
  (∀ msg, outcome = Thrown msg →
     buffer' = buffer ++ [opening;
                          {| log_runId := runId; log_time := t1;
                             log_level := "ERROR"; log_message := msg;
                             log_context := "" |}] ∨
     (buffer' = buffer ++ [opening] ∧ msg = noColumnsMessage ∧
      ∃ tab, tab ∈ schemas ∧ tabIsBlank ssDb tab)) ∧
  ((∀ tab, tab ∈ schemas → ¬ tabIsBlank ssDb tab) →
   length buffer' = length buffer + 2).
Proof.
  destruct (validateAllSchemas_cases t0 t1 ssDb runId buffer)
    as [[Hall ->]|[Hno [(msg & ->)|[Hblank ->]]]].
  - split_and!; [done|done|done|]. intros _. rewrite length_app. simpl. lia.
  - split_and!; [split; [done|by intros ?]|done| |].
    + intros ? [= <-]. by left.
    + intros _. rewrite length_app. simpl. lia.
  - split_and!; [split; [done|by intros ?]|done| |].
    + intros ? [= <-]. by right.
    + intros Hnone. destruct Hblank as (tab & Hin & Hb). by destruct (Hnone tab Hin).
Qed.

Lemma schema_names_trimmed :
  Forall (λ nh, Forall (λ n, Js.trim n = n) nh.2) schemas.
Proof. repeat (constructor; simpl); reflexivity. Qed.

Lemma validateAllSchemas_Returned t0 t1 ssDb runId buffer :
  (validateAllSchemas t0 t1 ssDb runId buffer).2 = Returned () →
  ∀ name h, (name, h) ∈ schemas →
    ∃ sh, ssDb !! name = Some sh ∧
          ∀ n, n ∈ h →
               is_Some (WorkspaceProcessor.col (Helpers.mapHeaders (header sh)) n).
Proof.
  intros Hret name h Hin.
  destruct (validateAllSchemas_cases t0 t1 ssDb runId buffer)
    as [[Hall _]|[_ [(msg & E)|[_ E]]]]; [|by rewrite E in Hret..].
  destruct (Hall (name, h) Hin) as (sh & Hsh & _ & Hh).
  exists sh. split; [done|]. intros n Hn.
  apply HelpersFacts.col_is_Some.
  destruct (Hh n Hn) as (v & Hv & E). exists v. split; [done|].
  rewrite E. f_equal.
  pose proof schema_names_trimmed as Ht. rewrite Forall_forall in Ht.
  specialize (Ht _ Hin). rewrite Forall_forall in Ht. by apply Ht.
Qed.

Lemma validateCentralDatabase_passes now (ssDb : Spreadsheet) runId buffer :
  (∀ name, name ∈ Validation.requiredSheets → is_Some (ssDb !! name)) →
  Validation.validateCentralDatabase now ssDb runId buffer = (buffer, Returned ()).
Proof.
  intros Hall. unfold Validation.validateCentralDatabase.
  assert (filter (λ name, ssDb !! name = None) Validation.requiredSheets = []) as ->;
    [|done].
  apply filter_nil_iff. intros name Hname Hnone.
  destruct (Hall name Hname) as [sh Hsh]. congruence.
Qed.

Lemma validateEach_without now (db : Spreadsheet) runId name tabs : ∀ buffer,
  name ∉ tabs.*1 →
  validateEach now (delete name db) runId tabs buffer =
  validateEach now db runId tabs buffer.
Proof.
  induction tabs as [|[n h] tabs IH]; intros buffer Hname; [done|].
  rewrite fmap_cons, not_elem_of_cons in Hname. destruct Hname as [Hne Hname].
  simpl in Hne. cbn [validateEach].
  assert (delete name db !! n = db !! n) as -> by (by apply lookup_delete_ne).
  destruct (validateSheetHeaders now (db !! n) h n runId buffer) as [b [[]|msg]];
    [by apply IH|done].
Qed.

(** The reach of the schema check. When [validateAllSchemas] returns
    normally, each of the six tabs it checks has every column [CONFIG.tabs]
    names for it - in particular
    the ledger has the employee, date, activation and note columns the two
    ledger functions address - and [validateCentralDatabase] passes on the
    same database without logging anything. The check does not reach the
    Shift_Status_Mapping tab, which [loadContext] reads through
    [CONFIG.tabs] as well: without that tab the outcome and the log are the
    same, and the context then has an empty mapping. *)
Lemma validated_database_is_ready (t0 t1 : Date) (ssDb : Spreadsheet)
    (runId : string) (buffer : Buffer) :
  (validateAllSchemas t0 t1 ssDb runId buffer).2 = Returned () →
  (∀ name h, (name, h) ∈ schemas →
     ∃ sh, ssDb !! name = Some sh ∧
           ∀ n, n ∈ h →
                is_Some (WorkspaceProcessor.col (Helpers.mapHeaders (header sh)) n)) ∧
  (∃ sh, ssDb !! Tabs.ledger_name = Some sh ∧
         is_Some (Spec.employeeCol sh) ∧ is_Some (Spec.dateCol sh) ∧
         is_Some (Spec.activationCol sh) ∧ is_Some (Spec.noteCol sh)) ∧
  (∀ now buffer',
     Validation.validateCentralDatabase now ssDb runId buffer' =
     (buffer', Returned ())) ∧
  validateAllSchemas t0 t1 (delete Tabs.mapping_name ssDb) runId buffer =
    validateAllSchemas t0 t1 ssDb runId buffer ∧
  Resolver.mapping (Workspace.loadContext (delete Tabs.mapping_name ssDb)) = ∅.
Proof.
  intros Hret.
  pose proof (validateAllSchemas_Returned t0 t1 ssDb runId buffer Hret) as Hall.
  split_and!; [done| | | |].
  - destruct (Hall Tabs.ledger_name Tabs.ledger_h) as (sh & Hsh & Hcols).
    { unfold schemas. set_solver. }
    exists sh. split; [done|].
    unfold Spec.employeeCol, Spec.dateCol, Spec.activationCol, Spec.noteCol.
    split_and!; apply Hcols; unfold Tabs.ledger_h; set_solver.
  - intros now buffer'. apply validateCentralDatabase_passes.
    intros name Hname.
    assert (∃ h, (name, h) ∈ schemas) as [h Hin].
    { assert (name ∈ schemas.*1) as Hin
        by (unfold Validation.requiredSheets in Hname; simpl; set_solver).
      apply list_elem_of_fmap in Hin as ([n h] & -> & Hin). by exists h. }
    destruct (Hall name h Hin) as (sh & -> & _). by eexists.
  - unfold validateAllSchemas. rewrite validateEach_without; [done|].
    apply (bool_decide_unpack _). vm_compute. exact I.
  - unfold Workspace.loadContext. cbn [Resolver.mapping].
    assert (delete Tabs.mapping_name ssDb !! Tabs.mapping_name = None) as ->
      by apply lookup_delete_eq.
    done.
Qed.

(** X16. The Holidays tab passes the schema check with its header in any
    letter case or with blanks around it, but [parseSimpleList] reads the
    column only under the exact text [Date]: with any other spelling the
    holiday set of the context is empty. *)
Theorem holidays_header_is_read_exactly (sh : Sheet) (now : Date)
    (runId : string) (buffer : Buffer) :
  (∃ v, v ∈ header sh ∧ headerName v = "date") →
  CStr Tabs.holidays_date ∉ header sh →
  validateSheetHeaders now (Some sh) Tabs.holidays_h Tabs.holidays_name runId buffer
    = (buffer, Returned ()) ∧
  Lists.parseSimpleList (Some sh) Tabs.holidays_date = ∅.
Proof.
  intros Hv Hno. split.
  - destruct (validateSheetHeaders_Some now sh Tabs.holidays_h Tabs.holidays_name
                runId buffer) as [[Hcol _]|[(_ & _ & ->)|(_ & Hh & _)]]; [|done|].
    + exfalso. destruct Hv as (v & Hin & Hname).
      apply (blankSheet_header sh v Hin); [|done].
      intros ->. by vm_compute in Hname.
    + exfalso. apply Hh. intros n Hn.
      apply list_elem_of_singleton in Hn as ->. exact Hv.
  - by apply ListsFacts.parseSimpleList_no_column.
Qed.

End WithHost.
End SchemaFacts.

(** ** Workspaces and rosters *)

Module WorkspaceFacts.
Import Resolver Terms Workspace.
Local Open Scope nat_scope.
Section WithHost.
Context `{!Host} `{!Calendar}.

(** *** [getActiveWorkspaces] *)

(** X17. Every id [getActiveWorkspaces] returns comes from a row of the
    Scheduler_Config tab whose status cell reads ACTIVE in upper case; it is
    that row's id cell trimmed, and has more than ten characters. Without
    the tab there are no workspaces. *)
Theorem getActiveWorkspaces_ids (ssDb : Spreadsheet) :
  (ssDb !! Tabs.config_name = None → getActiveWorkspaces ssDb = []) ∧
  (∀ id, id ∈ getActiveWorkspaces ssDb ↔
     ∃ sh r, ssDb !! Tabs.config_name = Some sh ∧ r ∈ body sh ∧
       let h := Helpers.mapHeaders (header sh) in
       Js.toUpperCase (Helpers.toStrOr ""
         (Helpers.cellAt r (WorkspaceProcessor.col h Tabs.config_status))) = "ACTIVE" ∧
       id = Js.trim (Helpers.toStrOr ""
              (Helpers.cellAt r (WorkspaceProcessor.col h Tabs.config_id))) ∧
       10 < String.length id) ∧
  (∀ id, id ∈ getActiveWorkspaces ssDb → Js.trim id = id).
Proof.
  unfold getActiveWorkspaces.
  assert (∀ id, id ∈ match ssDb !! Tabs.config_name with
     | Some sh =>
         let h := Helpers.mapHeaders (header sh) in
         omap
           (λ r : list Cell,
              let status := Js.toUpperCase (Helpers.toStrOr ""
                   (Helpers.cellAt r (WorkspaceProcessor.col h Tabs.config_status))) in
              let id0 := Js.trim (Helpers.toStrOr ""
                   (Helpers.cellAt r (WorkspaceProcessor.col h Tabs.config_id))) in
              if bool_decide (status = "ACTIVE") && bool_decide (10 < String.length id0)
              then Some id0 else None) (body sh)
     | None => []
     end ↔
     ∃ sh r, ssDb !! Tabs.config_name = Some sh ∧ r ∈ body sh ∧
       let h := Helpers.mapHeaders (header sh) in
       Js.toUpperCase (Helpers.toStrOr ""
         (Helpers.cellAt r (WorkspaceProcessor.col h Tabs.config_status))) = "ACTIVE" ∧
       id = Js.trim (Helpers.toStrOr ""
              (Helpers.cellAt r (WorkspaceProcessor.col h Tabs.config_id))) ∧
       10 < String.length id) as Hiff.
  { intros id. destruct (ssDb !! Tabs.config_name) as [sh|].
    - rewrite list_elem_of_omap. split.
      + intros (r & Hr & Hid). exists sh, r. split; [done|]. split; [done|].
        simpl in Hid |- *.
        destruct (bool_decide (_ = "ACTIVE")) eqn:E1; [|done].
        destruct (bool_decide (10 < _)) eqn:E2; [|done].
        simpl in Hid. simplify_eq.
        apply bool_decide_eq_true in E1, E2. done.
      + intros (sh' & r & [= <-] & Hr & Hst & -> & Hlen). exists r. split; [done|].
        simpl in Hst |- *. rewrite Hst.
        rewrite !bool_decide_eq_true_2 by done. done.
    - split; [by intros ?%elem_of_nil|]. by intros (? & ? & ? & _). }
  split_and!; [by intros ->|done|].
  intros id (sh & r & _ & _ & _ & -> & _)%Hiff. apply JsTrimFacts.trim_idem.
Qed.

(** *** [processRoster] *)

Lemma dateColumns_days pre : ∀ row,
  omap (dateMeta (pre ++ row)) (dateColumnsFrom (length pre) row) = rosterDays row.
Proof.
  intros row. revert pre.
  induction row as [|cell rest IH]; intros pre; [done|].
  assert (dateMeta (pre ++ cell :: rest) (length pre) = dayOfCell cell) as Hhere.
  { unfold dateMeta, dayOfCell. simpl.
    rewrite lookup_app_r, Nat.sub_diag by lia. simpl.
    by destruct (Helpers.parseSafeDate cell). }
  assert (omap (dateMeta (pre ++ cell :: rest)) (dateColumnsFrom (S (length pre)) rest)
          = rosterDays rest) as Hrest.
  { specialize (IH (pre ++ [cell])).
    rewrite <-(assoc_L (++)), length_app in IH. simpl in IH.
    by rewrite Nat.add_1_r in IH. }
  change (dateColumnsFrom (length pre) (cell :: rest)) with
    (if bool_decide (is_Some (Helpers.parseSafeDate cell))
     then length pre :: dateColumnsFrom (S (length pre)) rest
     else dateColumnsFrom (S (length pre)) rest).
  change (rosterDays (cell :: rest)) with
    (match dayOfCell cell with
     | Some m => m :: rosterDays rest
     | None => rosterDays rest
     end).
  case_bool_decide as Hd.
  - change (omap ?f (?x :: ?l)) with
      (match f x with Some y => y :: omap f l | None => omap f l end).
    by rewrite Hhere, Hrest.
  - rewrite Hrest. unfold dayOfCell.
    destruct (Helpers.parseSafeDate cell); [by destruct Hd|done].
Qed.

Lemma dateColumns_length i row :
  length (dateColumnsFrom i row) =
  length (filter (λ c, is_Some (Helpers.parseSafeDate c)) row).
Proof.
  revert i. induction row as [|cell rest IH]; intros i; [done|].
  change (dateColumnsFrom i (cell :: rest)) with
    (if bool_decide (is_Some (Helpers.parseSafeDate cell))
     then i :: dateColumnsFrom (S i) rest
     else dateColumnsFrom (S i) rest).
  rewrite filter_cons.
  destruct (decide (is_Some (Helpers.parseSafeDate cell))) as [Hd|Hd].
  - rewrite bool_decide_eq_true_2 by done. simpl. by rewrite IH.
  - rewrite bool_decide_eq_false_2 by done. by rewrite IH.
Qed.

Lemma rosterDays_length row :
  length (rosterDays row) =
  length (filter (λ c, is_Some (Helpers.parseSafeDate c)) row).
Proof.
  induction row as [|cell rest IH]; [done|].
  change (rosterDays (cell :: rest)) with
    (match dayOfCell cell with
     | Some m => m :: rosterDays rest
     | None => rosterDays rest
     end).
  unfold dayOfCell.
  destruct (Helpers.parseSafeDate cell) as [d|] eqn:E.
  - rewrite filter_cons_True by (by rewrite E). simpl. by rewrite IH.
  - rewrite filter_cons_False by (rewrite E; by intros [? ?]). done.
Qed.

(** The pushes of a list of resolutions, in order *)
Lemma push_all (cs : list (Employee * DayMeta * Resolution)) : ∀ out,
  let out' := foldl (λ o c, pushResolution c.1.1 c.1.2 c.2 o) out cs in
  dailyStatus out' = dailyStatus out ++ ((λ c, row c.2) <$> cs) ∧
  grants out' = grants out ++ omap grantOf cs ∧
  revocations out' = revocations out ++ omap revocationOf cs.
Proof.
  induction cs as [|c cs IH]; intros out; simpl.
  { by rewrite !app_nil_r. }
  destruct (IH (pushResolution c.1.1 c.1.2 c.2 out)) as (-> & -> & ->).
  unfold pushResolution, grantOf, revocationOf. simpl.
  split_and!.
  - by rewrite <-(assoc_L (++)).
  - case_bool_decide; simpl; [by rewrite <-(assoc_L (++))|done].
  - case_bool_decide; simpl; [by rewrite <-(assoc_L (++))|done].
Qed.

Lemma dayStep_fold headerRow ctx e rs cols : ∀ out,
  foldl (dayStep headerRow ctx e rs) out cols =
  foldl (λ o c, pushResolution c.1.1 c.1.2 c.2 o) out
    ((λ m, (e, m, resolveEmployeeDay e m ctx rs)) <$> omap (dateMeta headerRow) cols).
Proof.
  induction cols as [|c cols IH]; intros out; [done|].
  simpl. unfold dayStep at 2.
  destruct (dateMeta headerRow c) as [m|]; simpl; by rewrite IH.
Qed.

Lemma rosterCells_cons ctx e es days :
  rosterCells ctx (e :: es) days =
  ((λ m, (e, m, resolveEmployeeDay e m ctx (default [] (rules ctx !! emp_id e))))
     <$> days) ++ rosterCells ctx es days.
Proof.
  assert (∀ (f : DayMeta → Employee * DayMeta * Resolution) ms,
            (m ← ms; [f m]) = f <$> ms) as Hbind.
  { intros f ms. induction ms as [|m ms IHm]; [done|].
    rewrite bind_cons, fmap_cons. by rewrite IHm. }
  unfold rosterCells. by rewrite bind_cons, Hbind.
Qed.

Lemma employeeStep_fold headerRow ctx e b w1 w2 cols rows : ∀ out,
  foldl (employeeStep headerRow ctx e b w1 w2 cols) out rows =
  foldl (λ o c, pushResolution c.1.1 c.1.2 c.2 o) out
    (rosterCells ctx (omap (employeeOf e b w1 w2) rows)
       (omap (dateMeta headerRow) cols)).
Proof.
  induction rows as [|r rows IH]; intros out; [done|].
  change (foldl ?f out (r :: rows)) with (foldl f (f out r) rows).
  change (omap ?f (r :: rows)) with
    (match f r with Some y => y :: omap f rows | None => omap f rows end).
  rewrite IH. unfold employeeStep.
  destruct (employeeOf e b w1 w2 r) as [emp|]; [|done].
  by rewrite rosterCells_cons, foldl_app, dayStep_fold.
Qed.

Lemma rosterCells_length ctx es days :
  length (rosterCells ctx es days) = length es * length days.
Proof.
  induction es as [|e es IH]; [done|].
  rewrite rosterCells_cons, length_app, length_fmap, IH. simpl. lia.
Qed.

Lemma rosterCells_elem ctx es days c :
  c ∈ rosterCells ctx es days ↔
  c.1.1 ∈ es ∧ c.1.2 ∈ days ∧
  c.2 = resolveEmployeeDay c.1.1 c.1.2 ctx (default [] (rules ctx !! emp_id c.1.1)).
Proof.
  unfold rosterCells. rewrite list_elem_of_bind. split.
  - intros (e & (m & Hc & Hm)%list_elem_of_bind & He).
    apply list_elem_of_singleton in Hc as ->. done.
  - intros (He & Hm & Hres). exists c.1.1. split; [|done].
    apply list_elem_of_bind. exists c.1.2. split; [|done].
    apply list_elem_of_singleton. destruct c as [[e m] res]. simpl in *. by subst.
Qed.

Lemma rosterDays_nil headerRow :
  length (dateColumnsFrom 0 headerRow) = 0 ↔ rosterDays headerRow = [].
Proof.
  rewrite dateColumns_length, <-rosterDays_length. apply length_zero_iff_nil.
Qed.

Lemma rosterDays_nil_cells headerRow :
  rosterDays headerRow = [] ↔
  ∀ cell, cell ∈ headerRow → Helpers.parseSafeDate cell = None.
Proof.
  rewrite <-length_zero_iff_nil, rosterDays_length, length_zero_iff_nil.
  rewrite SchemaFacts.filter_nil_iff. apply forall_proper. intros cell.
  apply forall_proper. intros _. by rewrite eq_None_not_Some.
Qed.

(** [processRoster], case by case *)
Lemma processRoster_cases data ctx :
  let headerRow := default [] (data !! (Tabs.roster_header_row - 1)) in
  match rosterColumns headerRow with
  | None =>
      processRoster data ctx =
      Thrown "Roster sheet missing required columns. Check CONFIG.roster.cols"
  | Some (e, b, w1, w2) =>
      if bool_decide (rosterDays headerRow = [])
      then processRoster data ctx = Thrown "No date columns detected in roster sheet."
      else
        ∃ out, processRoster data ctx = Returned out ∧
          let cells :=
            rosterCells ctx
              (omap (employeeOf e b w1 w2) (drop (Tabs.roster_data_row - 1) data))
              (rosterDays headerRow) in
          dailyStatus out = (λ c, row c.2) <$> cells ∧
          grants out = omap grantOf cells ∧
          revocations out = omap revocationOf cells
  end.
Proof.
  intros headerRow. unfold processRoster, rosterColumns. fold headerRow.
  destruct (WorkspaceProcessor.col _ Tabs.roster_employee_id) as [e|]; [|done].
  destruct (WorkspaceProcessor.col _ Tabs.roster_default_shift) as [b|]; [|done].
  destruct (WorkspaceProcessor.col _ Tabs.roster_primary_off_day) as [w1|]; [|done].
  destruct (WorkspaceProcessor.col _ Tabs.roster_secondary_off_day) as [w2|]; [|done].
  destruct (decide (rosterDays headerRow = [])) as [Hd|Hd].
  - rewrite (bool_decide_eq_true_2 (rosterDays headerRow = [])) by done.
    rewrite bool_decide_eq_true_2 by (by apply rosterDays_nil). done.
  - rewrite (bool_decide_eq_false_2 (rosterDays headerRow = [])) by done.
    rewrite bool_decide_eq_false_2 by (by rewrite rosterDays_nil).
    eexists. split; [done|].
    rewrite employeeStep_fold.
    pose proof (dateColumns_days [] headerRow) as Hdd.
    change (omap (dateMeta headerRow) (dateColumnsFrom 0 headerRow)
            = rosterDays headerRow) in Hdd.
    rewrite Hdd.
    destruct (push_all
      (rosterCells ctx
         (omap (employeeOf e b w1 w2) (drop (Tabs.roster_data_row - 1) data))
         (rosterDays headerRow))
      {| dailyStatus := []; grants := []; revocations := [] |}) as (H1 & H2 & H3).
    done.
Qed.

(** X18. [processRoster] throws its missing-columns error exactly when the
    header row (row 4 of the sheet) lacks one of the four employee columns -
    in particular when the sheet has fewer than four rows -, throws its
    no-date-columns error exactly when the columns are there but no header
    cell holds a date, and returns a result in every other case. *)
Theorem processRoster_outcome (data : list (list Cell)) (ctx : EngineContext) :
  let headerRow := default [] (data !! (Tabs.roster_header_row - 1)) in
  (processRoster data ctx =
     Thrown "Roster sheet missing required columns. Check CONFIG.roster.cols" ↔
   rosterColumns headerRow = None) ∧
  (processRoster data ctx = Thrown "No date columns detected in roster sheet." ↔
   is_Some (rosterColumns headerRow) ∧
   ∀ cell, cell ∈ headerRow → Helpers.parseSafeDate cell = None) ∧
  ((∃ out, processRoster data ctx = Returned out) ↔
   is_Some (rosterColumns headerRow) ∧
   ∃ cell, cell ∈ headerRow ∧ is_Some (Helpers.parseSafeDate cell)) ∧
  (length data < Tabs.roster_header_row →
   processRoster data ctx =
     Thrown "Roster sheet missing required columns. Check CONFIG.roster.cols").
Proof.
  intros headerRow.
  pose proof (processRoster_cases data ctx) as Hc. cbv zeta in Hc. fold headerRow in Hc.
  pose proof (rosterDays_nil_cells headerRow) as Hnil.
  assert (rosterDays headerRow ≠ [] ↔
          ∃ cell, cell ∈ headerRow ∧ is_Some (Helpers.parseSafeDate cell)) as Hne.
  { split.
    - intros Hno. destruct (rosterDays headerRow) as [|m ms] eqn:E; [done|].
      assert (m ∈ rosterDays headerRow) as Hm by (rewrite E; by left).
      apply list_elem_of_omap in Hm as (cell & Hcell & Hday).
      exists cell. split; [done|]. unfold dayOfCell in Hday.
      destruct (Helpers.parseSafeDate cell); [done|by simplify_eq/=].
    - rewrite Hnil. intros (cell & Hcell & [d Hd]) Hall.
      by rewrite (Hall cell Hcell) in Hd. }
  assert (length data < Tabs.roster_header_row → rosterColumns headerRow = None) as Hshort.
  { intros Hlt. unfold headerRow.
    rewrite (lookup_ge_None_2 data) by (unfold Tabs.roster_header_row in *; lia).
    reflexivity. }
  destruct (rosterColumns headerRow) as [[[[e b] w1] w2]|].
  - case_bool_decide as Hd.
    + rewrite Hc. split_and!.
      * split; done.
      * split; [|done]. intros _. split; [done|]. by apply Hnil.
      * split; [by intros [? ?]|]. intros [_ Hex]. apply Hne in Hex. done.
      * intros ?%Hshort. done.
    + destruct Hc as (out & -> & _). split_and!.
      * split; done.
      * split; [done|]. intros [_ Hall]. apply Hnil in Hall. done.
      * split; [|by exists out]. intros _. split; [done|]. by apply Hne.
      * intros ?%Hshort. done.
  - rewrite Hc. split_and!.
    + done.
    + split; [done|]. by intros [[? ?] _].
    + split; [by intros [? ?]|]. by intros [[? ?] _].
    + done.
Qed.

(** X19. When [processRoster] returns, its daily status is the audit rows of
    the resolutions of every roster row with a truthy employee id on every
    date column, employee by employee and in column order - as many rows as
    employees times date columns; the grants and the revocations are the
    intents of the resolutions whose action is GRANT, respectively REVOKE,
    in the same order. *)
Theorem processRoster_resolves_every_cell (data : list (list Cell))
    (ctx : EngineContext) (out : RosterOutput) :
  processRoster data ctx = Returned out →
  let headerRow := default [] (data !! (Tabs.roster_header_row - 1)) in
  ∃ e b w1 w2,
    rosterColumns headerRow = Some (e, b, w1, w2) ∧
    let emps := omap (employeeOf e b w1 w2) (drop (Tabs.roster_data_row - 1) data) in
    let cells := rosterCells ctx emps (rosterDays headerRow) in
    dailyStatus out = (λ c, row c.2) <$> cells ∧
    grants out = omap grantOf cells ∧
    revocations out = omap revocationOf cells ∧
    length (dailyStatus out) = length emps * length (rosterDays headerRow) ∧
    length (grants out) + length (revocations out) ≤ length (dailyStatus out).
Proof.
  intros Hret headerRow.
  pose proof (processRoster_cases data ctx) as Hc. cbv zeta in Hc. fold headerRow in Hc.
  destruct (rosterColumns headerRow) as [[[[e b] w1] w2]|]; [|by rewrite Hret in Hc].
  case_bool_decide; [by rewrite Hret in Hc|].
  destruct Hc as (out' & Hout & Hd & Hg & Hr).
  rewrite Hret in Hout. simplify_eq.
  exists e, b, w1, w2. split; [done|]. cbv zeta.
  split_and!; [done|done|done|by rewrite Hd, length_fmap, rosterCells_length|].
  rewrite Hd, Hg, Hr, length_fmap.
  generalize (rosterCells ctx
    (omap (employeeOf e b w1 w2) (drop (Tabs.roster_data_row - 1) data))
    (rosterDays headerRow)). intros cs.
  induction cs as [|c cs IH]; [done|].
  change (omap ?f (c :: cs)) with
    (match f c with Some y => y :: omap f cs | None => omap f cs end).
  unfold grantOf at 1, revocationOf at 1.
  destruct (decide (entitlementAction c.2 = "GRANT")) as [E|E].
  - rewrite (bool_decide_eq_true_2 _ E), bool_decide_eq_false_2 by (by rewrite E).
    simpl. lia.
  - rewrite (bool_decide_eq_false_2 _ E). case_bool_decide; simpl; lia.
Qed.

Lemma employeeOf_names e b w1 w2 r emp :
  employeeOf e b w1 w2 r = Some emp →
  emp_id emp = Js.toLowerCase (display emp) ∧
  Js.trim (display emp) = display emp.
Proof.
  unfold employeeOf. case_match; [done|]. intros [= <-]. simpl.
  split; [done|apply JsTrimFacts.trim_idem].
Qed.

Lemma rosterCells_key ctx e b w1 w2 rows headerRow c :
  c ∈ rosterCells ctx (omap (employeeOf e b w1 w2) rows) (rosterDays headerRow) →
  Key (row c.2) = Ledger.normEmployee (display c.1.1) +:+ "|" +:+ formatDate (obj c.1.2) ∧
  Key (row c.2) = Ledger.normEmployee (display c.1.1) +:+ "|" +:+ str c.1.2 ∧
  Employee_Name (row c.2) = display c.1.1 ∧
  Date_Obj (row c.2) = obj c.1.2 ∧
  Final_Status (row c.2) = finalStatus c.2.
Proof.
  intros (He & Hm & Hres)%rosterCells_elem.
  apply list_elem_of_omap in He as (r & _ & He).
  apply employeeOf_names in He as [Hid Htrim].
  apply list_elem_of_omap in Hm as (cell & _ & Hm).
  assert (str c.1.2 = formatDate (obj c.1.2)) as Hstr.
  { unfold dayOfCell in Hm. destruct (Helpers.parseSafeDate cell); [|done].
    simpl in Hm. injection Hm as Hm. by rewrite <-Hm. }
  destruct (ResolverMore.resolve_row_inputs c.1.1 c.1.2 ctx
              (default [] (rules ctx !! emp_id c.1.1)))
    as (HK & HN & HD & _ & _ & _ & _ & _ & _ & HF).
  rewrite <-Hres in HK, HN, HD, HF.
  unfold Ledger.normEmployee. rewrite Htrim, <-Hid, <-Hstr.
  done.
Qed.

(** X20. Every ledger intent [processRoster] returns belongs to one of the
    audit rows it returns: the key under which [grantEntitlements] files a
    grant, and the key under which [revokeLedger] looks a revocation up, is
    that row's key, and a revocation's reason is the row's final status. *)
Theorem processRoster_intents_match_rows (data : list (list Cell))
    (ctx : EngineContext) (out : RosterOutput) :
  processRoster data ctx = Returned out →
  (∀ g, g ∈ grants out →
     ∃ r, r ∈ dailyStatus out ∧ Key r = Ledger.grantKey g ∧
          Employee_Name r = Ledger.g_employee g ∧ Date_Obj r = Ledger.g_date g) ∧
  (∀ rv, rv ∈ revocations out →
     ∃ r, r ∈ dailyStatus out ∧ Key r = Spec.revocationKey rv ∧
          Employee_Name r = Ledger.r_employee rv ∧
          Final_Status r = Ledger.r_reason rv).
Proof.
  intros Hret.
  pose proof (processRoster_cases data ctx) as Hc. cbv zeta in Hc.
  destruct (rosterColumns _) as [[[[e b] w1] w2]|]; [|by rewrite Hret in Hc].
  case_bool_decide; [by rewrite Hret in Hc|].
  destruct Hc as (out' & Hout & Hd & Hg & Hr).
  rewrite Hret in Hout. simplify_eq.
  rewrite Hd, Hg, Hr. split.
  - intros g (c & Hc & Hgc)%list_elem_of_omap.
    exists (row c.2). split; [apply list_elem_of_fmap; by exists c|].
    apply rosterCells_key in Hc as (HK & _ & HN & HD & _).
    unfold grantOf in Hgc. case_bool_decide; [|done]. simplify_eq.
    unfold Ledger.grantKey. simpl. done.
  - intros rv (c & Hc & Hrc)%list_elem_of_omap.
    exists (row c.2). split; [apply list_elem_of_fmap; by exists c|].
    apply rosterCells_key in Hc as (_ & HK & HN & _ & HF).
    unfold revocationOf in Hrc. case_bool_decide; [|done]. simplify_eq.
    unfold Spec.revocationKey. simpl. done.
Qed.

(** X21. With an empty decision-matrix index every resolution of a roster is
    the error row (status ERROR, reason Missing Logic, weight 0), and
    [processRoster] returns no grant and no revocation. *)
Theorem processRoster_without_logic (data : list (list Cell))
    (ctx : EngineContext) (out : RosterOutput) :
  matrixIndex ctx = ∅ →
  processRoster data ctx = Returned out →
  grants out = [] ∧ revocations out = [] ∧
  Forall (λ r, Final_Status r = "ERROR" ∧ Reason r = "Missing Logic" ∧
               Final_Val r = val_0) (dailyStatus out).
Proof.
  intros Hempty Hret.
  pose proof (processRoster_cases data ctx) as Hc. cbv zeta in Hc.
  destruct (rosterColumns _) as [[[[e b] w1] w2]|]; [|by rewrite Hret in Hc].
  case_bool_decide; [by rewrite Hret in Hc|].
  destruct Hc as (out' & Hout & Hd & Hg & Hr).
  rewrite Hret in Hout. simplify_eq.
  rewrite Hd, Hg, Hr.
  assert (Forall (λ c : Employee * DayMeta * Resolution,
            entitlementAction c.2 = "NONE" ∧ finalStatus c.2 = "ERROR" ∧
            Final_Status (row c.2) = "ERROR" ∧ Reason (row c.2) = "Missing Logic" ∧
            Final_Val (row c.2) = val_0)
          (rosterCells ctx
             (omap (employeeOf e b w1 w2) (drop (Tabs.roster_data_row - 1) data))
             (rosterDays (default [] (data !! (Tabs.roster_header_row - 1))))))
    as Hall.
  { apply Forall_forall. intros c (_ & _ & ->)%rosterCells_elem.
    apply ResolverMore.resolve_unmatched. rewrite Hempty.
    apply ResolverMore.lookupMatrix_empty. }
  revert Hall.
  generalize (rosterCells ctx
             (omap (employeeOf e b w1 w2) (drop (Tabs.roster_data_row - 1) data))
             (rosterDays (default [] (data !! (Tabs.roster_header_row - 1))))).
  intros cs Hall. induction cs as [|c cs IH]; [done|].
  apply Forall_cons in Hall as [(Ha & _ & Hs1 & Hs2 & Hs3) Hall].
  destruct (IH Hall) as (IHg & IHr & IHd).
  change (omap ?f (c :: cs)) with
    (match f c with Some y => y :: omap f cs | None => omap f cs end).
  unfold grantOf at 1, revocationOf at 1. rewrite Ha. simpl.
  rewrite IHg, IHr. split_and!; [done|done|]. by constructor.
Qed.

End WithHost.

Lemma processRoster_sample :
  ∃ out,
    @processRoster Samples.utcHost Samples2.utcCalendar Samples2.rosterData
      Samples2.rosterContext = Returned out ∧
    length (dailyStatus out) = 4 ∧
    (Ledger.grantKey (H := Samples.utcHost) <$> grants out)
      = ["emp-1042|2025-02-03"] ∧
    (Spec.revocationKey <$> revocations out) = ["emp-2087|2025-02-04"].
Proof. eexists. split; [by vm_compute|]. by vm_compute. Qed.

End WorkspaceFacts.

(** ** The loaded context *)

Module ContextFacts.
Import Resolver Terms Workspace WorkspaceProcessor Ledger Spec.
Local Open Scope nat_scope.

(** *** The decision-matrix index *)

Lemma expandKeys_nonempty row : expandKeys row ≠ [].
Proof.
  unfold expandKeys, bases, ruleImpacts, phs, reqs.
  destruct (isWildcard (row_base row)), (isWildcard (row_rule row)),
    (isWildcard (row_ph row)), (isWildcard (row_req row)); done.
Qed.

Lemma pushRow_filled row m k : bucketsFilled m → bucketsFilled (pushRow row m k).
Proof.
  intros Hm k' l. unfold pushRow.
  destruct (decide (k = k')) as [->|Hne].
  - rewrite lookup_insert_eq. intros [= <-]. by destruct (default [] (m !! k')).
  - rewrite lookup_insert_ne by done. apply Hm.
Qed.

Lemma pushRow_nonempty row m k : pushRow row m k ≠ ∅.
Proof. unfold pushRow. apply insert_non_empty. Qed.

Lemma indexRow_filled row m : bucketsFilled m → bucketsFilled (indexRow m row).
Proof.
  unfold indexRow. generalize (expandKeys row). intros ks. revert m.
  induction ks as [|k ks IH]; intros m Hm; [done|].
  simpl. by apply IH, pushRow_filled.
Qed.

Lemma foldl_pushRow_nonempty row ks : ∀ m,
  (m ≠ ∅ ∨ ks ≠ []) → foldl (pushRow row) m ks ≠ ∅.
Proof.
  induction ks as [|k ks IH]; intros m [Hm|Hks]; simpl; try done.
  - apply IH. left. apply pushRow_nonempty.
  - apply IH. left. apply pushRow_nonempty.
Qed.

Lemma indexRow_nonempty row m : indexRow m row ≠ ∅.
Proof. apply foldl_pushRow_nonempty. right. apply expandKeys_nonempty. Qed.

Lemma foldl_indexRow rows : ∀ m,
  (bucketsFilled m → bucketsFilled (foldl indexRow m rows)) ∧
  (m ≠ ∅ ∨ rows ≠ [] → foldl indexRow m rows ≠ ∅).
Proof.
  induction rows as [|row rows IH]; intros m; simpl.
  { split; [done|]. by intros [?|?]. }
  destruct (IH (indexRow m row)) as [IH1 IH2]. split.
  - intros Hm. by apply IH1, indexRow_filled.
  - intros _. apply IH2. left. apply indexRow_nonempty.
Qed.

Section WithHost.
Context `{!Host}.

(** X22. The decision-matrix index [loadContext] builds is empty exactly when
    no data row of the Decision_Matrix tab has a truthy base cell - in
    particular when the tab lacks the Base_Schedule header - and none of
    its buckets is an empty list. *)
Theorem matrixIndex_empty_iff (sh : Sheet) :
  let h := Helpers.mapHeaders (header sh) in
  (loadMatrixIndex sh = ∅ ↔
   ∀ r, r ∈ body sh → Helpers.truthy (Helpers.cellAt r (col h Config.decision_base)) = false) ∧
  (col h Config.decision_base = None → loadMatrixIndex sh = ∅) ∧
  (∀ k l, loadMatrixIndex sh !! k = Some l → l ≠ []).
Proof.
  intros h.
  assert (loadMatrixIndex sh = ∅ ↔
   ∀ r, r ∈ body sh →
        Helpers.truthy (Helpers.cellAt r (col h Config.decision_base)) = false) as Hiff.
  { unfold loadMatrixIndex, buildMatrixIndex. fold h. split.
    - intros Hempty r Hr.
      destruct (Helpers.truthy _) eqn:Ht; [|done]. exfalso.
      assert (omap (parseDecisionRow h) (body sh) ≠ []) as Hne.
      { intros Hnil.
        assert (∃ x, parseDecisionRow h r = Some x) as [x Hx].
        { unfold parseDecisionRow. rewrite Ht. by eexists. }
        assert (x ∈ omap (parseDecisionRow h) (body sh)) as Hin
          by (apply list_elem_of_omap; by exists r).
        rewrite Hnil in Hin. by apply elem_of_nil in Hin. }
      by apply (proj2 (foldl_indexRow _ ∅)) in Hempty; [|right].
    - intros Hall.
      assert (omap (parseDecisionRow h) (body sh) = []) as ->; [|done].
      induction (body sh) as [|r rows IH]; [done|].
      change (omap ?f (r :: rows)) with
        (match f r with Some y => y :: omap f rows | None => omap f rows end).
      unfold parseDecisionRow at 1. rewrite (Hall r) by (by left). simpl.
      apply IH. intros r' Hr'. apply Hall. by right. }
  split_and!; [done| |].
  - intros Hnone. apply Hiff. intros r _. by rewrite Hnone.
  - apply (proj1 (foldl_indexRow _ ∅)). intros k l. by rewrite lookup_empty.
Qed.

(** *** The ledger snapshot *)

Lemma setAll_lookup {V} (kvs : list (string * V)) : ∀ (m : gmap string V) k,
  setAll m kvs !! k =
  match last (filter (λ kv, kv.1 = k) kvs) with
  | Some kv => Some kv.2
  | None => m !! k
  end.
Proof.
  unfold setAll.
  induction kvs as [|[k' v] kvs IH]; intros m k; [done|].
  simpl. rewrite IH, filter_cons. simpl.
  destruct (decide (k' = k)) as [->|Hne].
  - rewrite last_cons. destruct (last _); [done|]. by rewrite lookup_insert_eq.
  - destruct (last _); [done|]. by rewrite lookup_insert_ne.
Qed.

Lemma setAll_Some {V} (kvs : list (string * V)) k v :
  setAll ∅ kvs !! k = Some v → (k, v) ∈ kvs.
Proof.
  rewrite setAll_lookup.
  destruct (last _) as [[k' v']|] eqn:E; [|by rewrite lookup_empty].
  intros [= <-]. apply last_Some_elem_of, list_elem_of_filter in E as [Hk ?].
  simpl in Hk. by subst.
Qed.

Lemma toStrOr_toStr dflt c s :
  Helpers.toStr c = s → s ≠ "" → s ≠ "0" → s ≠ "undefined" →
  Helpers.toStrOr dflt c = s.
Proof.
  intros Hs H1 H2 H3. unfold Helpers.toStrOr.
  destruct c as [s'|n| |]; simpl in *.
  - subst. by rewrite bool_decide_eq_false_2.
  - destruct (decide (n = 0%Z)) as [->|Hn]; [by subst|].
    by rewrite bool_decide_eq_false_2.
  - done.
  - by subst.
Qed.

Lemma revokedRow_cell e d a note m r j :
  a ≠ e → a ≠ d → note ≠ Some a → j ≠ a → note ≠ Some j →
  Helpers.cellAt (revokedRow e d a note m r) (Some j) = Helpers.cellAt r (Some j).
Proof.
  intros H1 H2 H3 Hj Hn.
  destruct (revokeHit e d a m r) as [reason|] eqn:Hhit.
  - destruct (LedgerFacts.revokedRow_hit e d a note m r reason H1 H2 H3 Hhit)
      as (_ & _ & Hother).
    simpl. by rewrite Hother.
  - by rewrite LedgerFacts.revokedRow_miss.
Qed.

Lemma ledgerEntry_Some h r k st :
  ledgerEntry h r = Some (k, st) →
  ∃ dt,
    Helpers.parseSafeDate (Helpers.cellAt r (col h Config.ledger_entitlementDate)) = Some dt ∧
    Js.toUpperCase (Js.trim (Helpers.toStrOr "Active"
      (Helpers.cellAt r (col h Config.ledger_activation)))) ≠ "INACTIVE" ∧
    k = normEmployee (Helpers.toStr (Helpers.cellAt r (col h Config.ledger_employee)))
          +:+ "|" +:+ formatDate dt ∧
    status st = Js.toUpperCase (Js.trim (Helpers.toStr
      (Helpers.cellAt r (col h Tabs.ledger_status)))).
Proof.
  unfold ledgerEntry.
  destruct (Helpers.parseSafeDate _) as [dt|]; [|done].
  case_bool_decide as Hact; simpl; [done|].
  intros [= <- <-]. by exists dt.
Qed.

Lemma loadLedger_Some sh k st :
  loadLedger (Some sh) !! k = Some st →
  ∃ r, r ∈ body sh ∧ ledgerEntry (Helpers.mapHeaders (header sh)) r = Some (k, st).
Proof.
  unfold loadLedger. case_match; [|by rewrite lookup_empty].
  intros (r & Hr & Hentry)%setAll_Some%list_elem_of_omap. by exists r.
Qed.

(** X23. Once [revokeLedger] has run, the ledger snapshot [loadContext] takes
    holds nothing under the key of any of the revocations: every entry of
    such a key is Inactive and is skipped. (The ledger has its three
    columns, its rows are as wide as its header, and a row that has a date
    names an employee.) *)
Theorem revoked_entries_are_not_loaded (sh sh' : Sheet)
    (revocations : list Revocation) (e d : nat) :
  employeeCol sh = Some e → dateCol sh = Some d → is_Some (activationCol sh) →
  Forall (λ r, length r = length (header sh)) (body sh) →
  Forall (λ r, is_Some (Helpers.parseSafeDate (Helpers.cellAt r (Some d))) →
               normEmployee (Helpers.toStr (Helpers.cellAt r (Some e))) ≠ "")
         (body sh) →
  revokeLedger false (Some sh) revocations = Some sh' →
  ∀ rv, rv ∈ revocations → loadLedger (Some sh') !! revocationKey rv = None.
Proof.
  intros He Hd [a Ha] Hwide Hnamed Hrun rv Hrv.
  rewrite (LedgerFacts.revokeLedger_run sh revocations e d a He Hd Ha) in Hrun.
  injection Hrun as <-.
  destruct (LedgerFacts.ledger_columns_distinct sh e d a He Hd Ha)
    as (Hed & Hae & Had & Hne & Hnd & Hna).
  apply eq_None_not_Some. intros [st Hst].
  apply loadLedger_Some in Hst as (r' & Hr' & Hentry). simpl in Hr', Hentry.
  apply list_elem_of_fmap in Hr' as (r & -> & Hr).
  apply ledgerEntry_Some in Hentry as (dt & Hdt & Hact & Hk & _).
  unfold employeeCol, dateCol, activationCol in He, Hd, Ha.
  rewrite He in Hk. rewrite Hd in Hdt. rewrite Ha in Hact.
  rewrite revokedRow_cell in Hdt by (done || congruence).
  rewrite revokedRow_cell in Hk by (done || congruence).
  rewrite Forall_forall in Hwide, Hnamed.
  assert (rowKey (Some e) (Some d) r = Some (revocationKey rv)) as Hkey.
  { unfold rowKey. rewrite Hdt.
    rewrite bool_decide_eq_false_2 by (apply Hnamed; [done|by rewrite Hdt]).
    by rewrite Hk. }
  assert (∃ reason, revokeMapOf revocations !! revocationKey rv = Some reason)
    as [reason Hm].
  { rewrite LedgerFacts.revokeMapOf_lookup.
    destruct (last _) as [x|] eqn:El; [by eexists|].
    apply last_None in El.
    assert (rv ∈ filter (λ rv0, revocationKey rv0 = revocationKey rv) revocations)
      as Hin by (by apply list_elem_of_filter).
    rewrite El in Hin. by apply elem_of_nil in Hin. }
  apply Hact.
  destruct (decide (Helpers.toStr (Helpers.cellAt r (Some a)) = "Inactive")) as [Hin|Hin].
  - rewrite LedgerFacts.revokedRow_miss by (apply LedgerFacts.revokeHit_None; auto).
    by rewrite (toStrOr_toStr _ _ "Inactive").
  - assert (revokeHit e d a (revokeMapOf revocations) r = Some reason) as Hhit
      by (apply LedgerFacts.revokeHit_Some; by exists (revocationKey rv)).
    destruct (LedgerFacts.revokedRow_hit e d a (noteCol sh) _ r reason Hae Had Hna Hhit)
      as (Hcell & _ & _).
    simpl. rewrite Hcell; [done|].
    rewrite (Hwide r Hr). by eapply LedgerFacts.mapHeaders_lt.
Qed.

(** *** A staged grant row, as the next run loads it *)

(** The columns [grantEntitlements] fills in a staged row *)
Lemma grantRow_blank hdr now g j :
  j < length hdr →
  (∀ name, name ∈ ["timestamp"; Js.toLowerCase Config.ledger_employee;
                   Js.toLowerCase Config.ledger_entitlementDate;
                   Js.toLowerCase Config.ledger_entitlement;
                   Js.toLowerCase Config.ledger_activation] →
           Helpers.mapHeaders hdr !! name ≠ Some j) →
  grantRow (Helpers.mapHeaders hdr) (length hdr) now g !! j = Some (CStr "").
Proof.
  intros Hj Hother. unfold grantRow.
  rewrite !LedgerFacts.setCol_lookup_ne.
  - by apply lookup_replicate_2.
  - apply Hother. set_solver.
  - apply Hother. set_solver.
  - apply Hother. set_solver.
  - apply Hother. set_solver.
  - apply Hother. set_solver.
Qed.

Lemma grantRow_status_cell hdr now g :
  Helpers.toStr (Helpers.cellAt (grantRow (Helpers.mapHeaders hdr) (length hdr) now g)
                   (col (Helpers.mapHeaders hdr) Tabs.ledger_status)) ∈ [""; "undefined"].
Proof.
  destruct (col (Helpers.mapHeaders hdr) Tabs.ledger_status) as [s|] eqn:Hs;
    [|set_solver].
  unfold col in Hs. simpl. rewrite grantRow_blank; [set_solver| |].
  - by eapply LedgerFacts.mapHeaders_lt.
  - intros name Hname Hj.
    pose proof (LedgerFacts.mapHeaders_inj _ _ _ _ Hs Hj) as E. subst name.
    vm_compute in Hname.
    repeat (apply elem_of_cons in Hname as [Hname|Hname]; [discriminate Hname|]).
    by apply elem_of_nil in Hname.
Qed.

Lemma grantRow_entry sh now g :
  is_Some (employeeCol sh) → is_Some (dateCol sh) →
  ∃ st, ledgerEntry (Helpers.mapHeaders (header sh))
          (grantRow (Helpers.mapHeaders (header sh)) (length (header sh)) now g)
        = Some (grantKey g, st) ∧
        status st ∈ [""; "UNDEFINED"].
Proof.
  intros [e He] [d Hd]. unfold employeeCol, dateCol in He, Hd.
  unfold ledgerEntry. rewrite Hd, He. simpl.
  rewrite (LedgerFacts.grantRow_date _ now g d Hd),
    (LedgerFacts.grantRow_employee _ now g e He). simpl.
  assert (Js.toUpperCase (Js.trim (Helpers.toStrOr "Active"
            (Helpers.cellAt
               (grantRow (Helpers.mapHeaders (header sh)) (length (header sh)) now g)
               (col (Helpers.mapHeaders (header sh)) Config.ledger_activation))))
          = "ACTIVE") as ->.
  { destruct (col _ Config.ledger_activation) as [a|] eqn:Ha; [|done].
    simpl. by rewrite (LedgerFacts.grantRow_activation _ now g a Ha). }
  simpl. eexists. split; [done|]. simpl.
  pose proof (grantRow_status_cell (header sh) now g) as Hst.
  apply elem_of_cons in Hst as [->|Hst]; [set_solver|].
  apply list_elem_of_singleton in Hst as ->. set_solver.
Qed.

Lemma last_filter_app {A} (P : A → Prop) `{!∀ x, Decision (P x)} (l1 l2 : list A) x :
  x ∈ l2 → P x → ∃ y, last (filter P (l1 ++ l2)) = Some y ∧ y ∈ l2 ∧ P y.
Proof.
  intros Hx HP. rewrite filter_app, last_app.
  destruct (last (filter P l2)) as [y|] eqn:E.
  - exists y. apply last_Some_elem_of, list_elem_of_filter in E as [? ?]. done.
  - apply last_None in E.
    assert (x ∈ filter P l2) as Hin by (by apply list_elem_of_filter).
    rewrite E in Hin. by apply elem_of_nil in Hin.
Qed.

(** X24. A key that [grantEntitlements] stages a row for is, in the ledger
    snapshot the next [loadContext] takes, an entry without a usable
    status - the staged row leaves Final_Entitlement_Status blank -, so the
    resolver's entitlement input for that key stays NONE and the request
    flag is not changed by it. *)
Theorem granted_entry_loads_without_status (sh : Sheet) (now : Date)
    (grants : list Grant) (g : Grant) :
  is_Some (employeeCol sh) → is_Some (dateCol sh) →
  g ∈ grants → grantKey g ∉ entryKeys sh →
  ∃ st,
    loadLedger (grantEntitlements false (Some sh) now grants) !! grantKey g = Some st ∧
    status st ∈ [""; "UNDEFINED"] ∧
    ∀ ctx reqFlag,
      ledger ctx = loadLedger (grantEntitlements false (Some sh) now grants) →
      entitlementInput ctx (grantKey g) reqFlag = (reqFlag, "NONE").
Proof.
  intros He Hd Hg Hfresh.
  rewrite LedgerFacts.grantEntitlements_run.
  destruct (LedgerFacts.staged_chosen sh now grants)
    as (chosen & Hstaged & _ & _ & _ & Hcover).
  specialize (Hcover g Hg Hfresh).
  apply list_elem_of_fmap in Hcover as (g' & Hkey & Hg').
  assert (∃ st, loadLedger (Some (granted sh now grants)) !! grantKey g = Some st ∧
                status st ∈ [""; "UNDEFINED"]) as (st & Hst & Hstatus).
  { unfold loadLedger, granted. simpl.
    destruct He as [e He], Hd as [d Hd]. unfold employeeCol, dateCol in He, Hd.
    rewrite He, Hd. simpl.
    rewrite setAll_lookup, Hstaged, omap_app.
    destruct (grantRow_entry sh now g') as (st' & Hentry & Hst');
      [by eexists|by eexists|].
    destruct (last_filter_app (λ kv : string * LedgerState, kv.1 = grantKey g)
                (omap (ledgerEntry (Helpers.mapHeaders (header sh))) (body sh))
                (omap (ledgerEntry (Helpers.mapHeaders (header sh)))
                   (grantRow (Helpers.mapHeaders (header sh)) (length (header sh)) now
                      <$> chosen))
                (grantKey g', st')) as (y & -> & Hy & _).
    - apply list_elem_of_omap. eexists. split; [|exact Hentry].
      apply list_elem_of_fmap. by exists g'.
    - simpl. done.
    - exists y.2. split; [done|].
      apply list_elem_of_omap in Hy as (r & Hr & Hry).
      apply list_elem_of_fmap in Hr as (g'' & -> & _).
      destruct (grantRow_entry sh now g'') as (st'' & Hentry'' & Hst'');
        [by eexists|by eexists|].
      rewrite Hentry'' in Hry. by simplify_eq. }
  exists st. split_and!; [done|done|].
  intros ctx reqFlag Hctx. unfold entitlementInput.
  rewrite Hctx, Hst.
  apply elem_of_cons in Hstatus as [->|Hstatus]; [done|].
  apply list_elem_of_singleton in Hstatus as ->. done.
Qed.

End WithHost.
End ContextFacts.

(** ** More on the rule index *)

Module RulesMore.
Import Resolver Rules Spec Terms.

Lemma foldl_fileRule ers : ∀ (m : gmap string (list Rule)) e,
  foldl fileRule m ers !! e =
  match (filter (λ er, er.1 = e) ers).*2 with
  | [] => m !! e
  | mine => Some (default [] (m !! e) ++ mine)
  end.
Proof.
  induction ers as [|[e1 r1] ers IH]; intros m e; [done|].
  simpl. rewrite IH, filter_cons. unfold fileRule. simpl.
  destruct (decide (e1 = e)) as [->|Hne].
  - rewrite lookup_insert_eq, fmap_cons. simpl.
    destruct ((filter _ ers).*2) as [|x l]; [done|].
    by rewrite <-(assoc_L (++)).
  - rewrite lookup_insert_ne by done. done.
Qed.

Lemma sortBy_nil_inv {A} (cmp : A → A → Z) l : sortBy cmp l = [] → l = [].
Proof.
  intros E. apply Permutation_nil_r. rewrite <-E.
  by rewrite RulesFacts.sortBy_Permutation.
Qed.

Section WithHost.
Context `{!Host}.

Lemma compareRules_antisym a b :
  compareRules a b <= 0 → compareRules b a <= 0 →
  localeCompare (rule_id a) (rule_id b) = 0.
Proof.
  rewrite !RulesFacts.compareRules_nonpos. intros Hab Hba.
  pose proof (localeCompare_flip (rule_id a) (rule_id b)).
  pose proof (localeCompare_flip (rule_id b) (rule_id a)). lia.
Qed.

Lemma sortBy_compareRules_unique l l' :
  l ≡ₚ l' →
  (∀ a b, a ∈ l → b ∈ l → localeCompare (rule_id a) (rule_id b) = 0 → a = b) →
  sortBy compareRules l = sortBy compareRules l'.
Proof.
  intros Hp Hnd.
  apply (StronglySorted_unique_strong (λ a b, compareRules a b <= 0)).
  - intros a b Ha Hb Hab Hba.
    rewrite RulesFacts.sortBy_Permutation in Ha, Hb. rewrite <-Hp in Hb.
    apply Hnd; [done..|]. by apply compareRules_antisym.
  - apply RulesFacts.sortBy_sorted;
      [apply RulesFacts.compareRules_total|apply RulesFacts.compareRules_trans].
  - apply RulesFacts.sortBy_sorted;
      [apply RulesFacts.compareRules_total|apply RulesFacts.compareRules_trans].
  - by rewrite !RulesFacts.sortBy_Permutation.
Qed.

Lemma parseRules_lookup sh e :
  is_Some (WorkspaceProcessor.col (Helpers.mapHeaders (header sh)) Config.rules_status) →
  parseRules (Some sh) !! e =
  match rulesFiledFor sh e with
  | [] => None
  | mine => Some (sortBy compareRules mine)
  end.
Proof.
  intros Hst. unfold parseRules. rewrite bool_decide_eq_true_2 by done.
  rewrite lookup_fmap. unfold collectRules. rewrite foldl_fileRule.
  fold (rulesFiledFor sh e). rewrite lookup_empty. simpl.
  by destruct (rulesFiledFor sh e).
Qed.

(** X25. The list [parseRules] returns for an employee is exactly the rules
    of the accepted rows filed under that employee, each once, rearranged
    by the sort; an employee without an accepted row has no list (never an
    empty one), and without the sheet or its Approval_Status header there
    are no rules at all. *)
Theorem parseRules_lists_exactly_the_filed_rules (sh : Sheet) (employee : string) :
  parseRules None = ∅ ∧
  (WorkspaceProcessor.col (Helpers.mapHeaders (header sh)) Config.rules_status = None →
   parseRules (Some sh) = ∅) ∧
  (is_Some (WorkspaceProcessor.col (Helpers.mapHeaders (header sh)) Config.rules_status) →
   (parseRules (Some sh) !! employee = None ↔ rulesFiledFor sh employee = []) ∧
   (∀ l, parseRules (Some sh) !! employee = Some l →
         l ≠ [] ∧ l ≡ₚ rulesFiledFor sh employee ∧
         l = sortBy compareRules (rulesFiledFor sh employee))).
Proof.
  split_and!; [done| |].
  - intros Hnone. unfold parseRules.
    rewrite bool_decide_eq_false_2; [done|]. rewrite Hnone. by intros [? ?].
  - intros Hst. rewrite (parseRules_lookup sh employee Hst).
    destruct (rulesFiledFor sh employee) as [|r mine] eqn:E.
    + split; [done|]. by intros l.
    + split; [split; done|]. intros l [= <-].
      split_and!;
        [|apply (RulesFacts.sortBy_Permutation compareRules (r :: mine))|done].
      intros Hnil. by apply (sortBy_nil_inv compareRules (r :: mine)) in Hnil.
Qed.

(** X26. When no two different rules filed under an employee have ids that
    [localeCompare] reports equal, the list [parseRules] returns for that
    employee does not depend on the order of the sheet's rows. *)
Theorem parseRules_ignores_row_order (sh sh' : Sheet) (employee : string) :
  header sh' = header sh → body sh' ≡ₚ body sh →
  (∀ a b, a ∈ rulesFiledFor sh employee → b ∈ rulesFiledFor sh employee →
          localeCompare (rule_id a) (rule_id b) = 0 → a = b) →
  parseRules (Some sh') !! employee = parseRules (Some sh) !! employee.
Proof.
  intros Hh Hb Hnd.
  assert (rulesFiledFor sh' employee ≡ₚ rulesFiledFor sh employee) as Hp.
  { unfold rulesFiledFor. by rewrite Hh, Hb. }
  unfold parseRules. rewrite Hh. case_bool_decide as Hst; [|done].
  pose proof (parseRules_lookup sh employee Hst) as E.
  pose proof (parseRules_lookup sh' employee) as E'. rewrite Hh in E'.
  specialize (E' Hst).
  unfold parseRules in E, E'. rewrite Hh in E'.
  rewrite bool_decide_eq_true_2 in E, E' by done.
  rewrite E, E'.
  assert (∀ a b, a ∈ rulesFiledFor sh' employee → b ∈ rulesFiledFor sh' employee →
                 localeCompare (rule_id a) (rule_id b) = 0 → a = b) as Hnd'.
  { intros a b Ha Hb'. rewrite Hp in Ha, Hb'. by apply Hnd. }
  pose proof (sortBy_compareRules_unique _ _ Hp Hnd') as Hs.
  destruct (rulesFiledFor sh employee) as [|r l] eqn:El.
  - apply Permutation_nil_r in Hp. by rewrite Hp.
  - destruct (rulesFiledFor sh' employee) as [|r' l'] eqn:El'.
    + symmetry in Hp. by apply Permutation_nil_r in Hp.
    + by rewrite Hs.
Qed.

End WithHost.
End RulesMore.

(** ** More on the ledger *)

Module LedgerMore.
Import Ledger Spec Terms.
Local Open Scope nat_scope.
Section WithHost.
Context `{!Host}.

Lemma grantStep_known h w now gs : ∀ (ex : gset string) adds,
  (∀ g, g ∈ gs → grantKey g ∈ ex) →
  foldl (grantStep h w now) (ex, adds) gs = (ex, adds).
Proof.
  induction gs as [|g gs IH]; intros ex adds Hall; [done|].
  simpl. unfold grantStep at 2. simpl.
  rewrite bool_decide_eq_true_2 by (apply Hall; by left).
  apply IH. intros g' Hg'. apply Hall. by right.
Qed.

Lemma grantEntitlements_known sh now grants :
  (∀ g, g ∈ grants → grantKey g ∈ entryKeys sh) →
  grantEntitlements false (Some sh) now grants = Some sh.
Proof.
  intros Hall. unfold grantEntitlements, stagedGrants.
  rewrite grantStep_known.
  - simpl. rewrite app_nil_r. by destruct sh.
  - intros g Hg. apply elem_of_list_to_set. by apply Hall.
Qed.

(** X27. Granting is idempotent on the whole sheet: when the ledger has its
    employee and date columns and the intents name their employees, running
    [grantEntitlements] a second time with the same intents - at whatever
    later time - returns the ledger of the first run unchanged; and so does
    any run whose intents all have an entry already. *)
Theorem grant_again_changes_nothing (sh sh1 : Sheet) (now later : Date)
    (grants : list Grant) :
  is_Some (employeeCol sh) → is_Some (dateCol sh) →
  Forall (λ g, normEmployee (g_employee g) ≠ "") grants →
  grantEntitlements false (Some sh) now grants = Some sh1 →
  grantEntitlements false (Some sh1) later grants = Some sh1 ∧
  (∀ others, (∀ g, g ∈ others → grantKey g ∈ entryKeys sh1) →
             grantEntitlements false (Some sh1) later others = Some sh1).
Proof.
  intros He Hd Hnamed Hrun.
  rewrite LedgerFacts.grantEntitlements_run in Hrun. injection Hrun as <-.
  split; [|intros others; apply grantEntitlements_known].
  apply grantEntitlements_known. intros g Hg.
  by apply LedgerFacts.entryKeys_granted_elem.
Qed.

(** X28. [revokeLedger] returns the ledger unchanged when no entry is both
    filed under the key of one of the revocations and not yet Inactive - in
    particular for revocations of keys the ledger does not have, and for an
    empty list of revocations. *)
Theorem revoke_without_match_changes_nothing (sh : Sheet)
    (revocations : list Revocation) :
  (∀ rv r, rv ∈ revocations → r ∈ body sh →
     rowKey (employeeCol sh) (dateCol sh) r = Some (revocationKey rv) →
     Helpers.toStr (Helpers.cellAt r (activationCol sh)) = "Inactive") →
  revokeLedger false (Some sh) revocations = Some sh.
Proof.
  intros Hall.
  destruct (employeeCol sh) as [e|] eqn:He;
    [|apply LedgerFacts.revokeLedger_no_columns; auto].
  destruct (dateCol sh) as [d|] eqn:Hd;
    [|apply LedgerFacts.revokeLedger_no_columns; auto].
  destruct (activationCol sh) as [a|] eqn:Ha;
    [|apply LedgerFacts.revokeLedger_no_columns; auto].
  rewrite (LedgerFacts.revokeLedger_run sh revocations e d a He Hd Ha).
  f_equal. destruct sh as [hdr rows]. simpl in *. f_equal.
  transitivity (id <$> rows); [|apply list_fmap_id].
  apply list_fmap_ext.
  intros i r Hr. apply LedgerFacts.revokedRow_miss.
  destruct (revokeHit e d a (revokeMapOf revocations) r) as [reason|] eqn:Hhit;
    [|done].
  exfalso.
  apply LedgerFacts.revokeHit_Some in Hhit as (key & Hkey & Hm & Hactive).
  rewrite LedgerFacts.revokeMapOf_lookup in Hm.
  apply fmap_Some in Hm as (rv & Hlast & _).
  apply last_Some_elem_of, list_elem_of_filter in Hlast as [<- Hrv].
  apply Hactive. apply (Hall rv r); [done| |done].
  by eapply list_elem_of_lookup_2.
Qed.

Lemma revokeLedger_idem sh sh' revocations :
  revokeLedger false (Some sh) revocations = Some sh' →
  revokeLedger false (Some sh') revocations = Some sh'.
Proof.
  intros Hrun.
  destruct (decide (employeeCol sh = None ∨ dateCol sh = None ∨
                    activationCol sh = None)) as [Hmiss|Hall].
  { pose proof (LedgerFacts.revokeLedger_no_columns sh revocations Hmiss) as Hsame.
    rewrite Hrun in Hsame. injection Hsame as ->. exact Hrun. }
  destruct (employeeCol sh) as [e|] eqn:He; [|tauto].
  destruct (dateCol sh) as [d|] eqn:Hd; [|tauto].
  destruct (activationCol sh) as [a|] eqn:Ha; [|tauto].
  destruct (LedgerFacts.ledger_columns_distinct sh e d a He Hd Ha)
    as (_ & Hae & Had & Hne & Hnd & Hna).
  rewrite (LedgerFacts.revokeLedger_run sh revocations e d a He Hd Ha) in Hrun.
  injection Hrun as <-.
  rewrite (LedgerFacts.revokeLedger_run _ revocations e d a) by done.
  simpl. f_equal. f_equal. unfold noteCol. simpl. fold (noteCol sh).
  apply LedgerFacts.fmap_fmap_same. intros r. by apply LedgerFacts.revokedRow_idem.
Qed.

(** X29. The ledger update of [processWorkspace] - grant, then revoke - is
    idempotent: on a ledger that has its employee and date columns, and for
    grants that name their employees, applying the same intents to the
    updated ledger once more, at whatever later time, changes nothing. *)
Theorem ledger_update_is_idempotent (sh sh1 : Sheet) (now later : Date)
    (grants : list Grant) (revocations : list Revocation) :
  is_Some (employeeCol sh) → is_Some (dateCol sh) →
  Forall (λ g, normEmployee (g_employee g) ≠ "") grants →
  Workspace.updateLedger false (Some sh) now grants revocations = Some sh1 →
  Workspace.updateLedger false (Some sh1) later grants revocations = Some sh1.
Proof.
  intros He Hd Hnamed Hrun.
  (* the ledger after the grants, and its keys *)
  assert (∃ sh0,
    (if bool_decide (0 < length grants)
     then grantEntitlements false (Some sh) now grants else Some sh) = Some sh0 ∧
    (∀ g, g ∈ grants → grantKey g ∈ entryKeys sh0)) as (sh0 & Hsh0 & Hkeys).
  { case_bool_decide as Hg.
    - exists (granted sh now grants).
      split; [apply LedgerFacts.grantEntitlements_run|].
      intros g Hin. by apply LedgerFacts.entryKeys_granted_elem.
    - exists sh. split; [done|]. intros g Hin.
      destruct grants; [by apply elem_of_nil in Hin|simpl in Hg; lia]. }
  assert (
    (if bool_decide (0 < length revocations)
     then revokeLedger false (Some sh0) revocations else Some sh0) = Some sh1)
    as Hsh1.
  { unfold Workspace.updateLedger in Hrun.
    destruct (bool_decide (0 < length grants)),
      (bool_decide (0 < length revocations)); cbn [orb] in Hrun, Hsh0 |- *;
      rewrite ?Hsh0 in Hrun; congruence. }
  assert (entryKeys sh1 = entryKeys sh0) as Hsame.
  { case_bool_decide; [|by simplify_eq].
    destruct (LedgerFacts.revokeLedger_keys sh0 revocations)
      as (sh' & Hrun' & _ & _ & Hk & _).
    rewrite Hsh1 in Hrun'. by simplify_eq. }
  assert (grantEntitlements false (Some sh1) later grants = Some sh1) as Hgrant.
  { apply grantEntitlements_known. intros g Hin. rewrite Hsame. by apply Hkeys. }
  assert ((if bool_decide (0 < length revocations)
           then revokeLedger false (Some sh1) revocations else Some sh1) = Some sh1)
    as Hrevoke.
  { case_bool_decide; [|done]. by eapply revokeLedger_idem. }
  unfold Workspace.updateLedger. rewrite Hgrant.
  destruct (bool_decide (0 < length grants)), (bool_decide (0 < length revocations));
    cbn [orb] in Hrevoke |- *; done.
Qed.

Lemma entryKey_named e d r :
  (is_Some (Helpers.parseSafeDate (Helpers.cellAt r d)) →
   normEmployee (Helpers.toStr (Helpers.cellAt r e)) ≠ "") →
  entryKey e d r = rowKey e d r.
Proof.
  intros Hn. unfold entryKey, rowKey.
  destruct (Helpers.parseSafeDate _) as [dt|]; [|done].
  rewrite bool_decide_eq_false_2; [done|]. apply Hn. by eexists.
Qed.

Lemma omap_ext_elem {A B} (f g : A → option B) (l : list A) :
  (∀ x, x ∈ l → f x = g x) → omap f l = omap g l.
Proof.
  induction l as [|x l IH]; intros E; [done|].
  change (omap f (x :: l)) with
    (match f x with Some y => y :: omap f l | None => omap f l end).
  change (omap g (x :: l)) with
    (match g x with Some y => y :: omap g l | None => omap g l end).
  rewrite (E x) by (by left). rewrite IH; [done|].
  intros y Hy. apply E. by right.
Qed.

Lemma entriesFor_named sh key :
  namesEmployees sh →
  entriesFor sh key = length (filter (λ k, k = key) (entryKeys sh)).
Proof.
  intros Hn.
  destruct (LedgerFacts.entryKeys_cases sh) as [(e & d & He & Hd & ->)|[Hno ->]].
  - rewrite LedgerFacts.entriesFor_count by (rewrite ?He, ?Hd; eauto).
    f_equal. f_equal. rewrite <-He, <-Hd. apply omap_ext_elem.
    intros r Hr. apply entryKey_named. by apply Hn.
  - by rewrite LedgerFacts.entriesFor_no_columns.
Qed.

Lemma keysInPlace_named sh : namesEmployees sh → keysInPlace sh = rowKeys sh.
Proof.
  intros Hn. unfold keysInPlace, rowKeys.
  apply Forall_fmap_ext_1, Forall_forall. intros r Hr.
  apply entryKey_named. by apply Hn.
Qed.

Lemma granted_named sh now grants :
  namesEmployees sh →
  Forall (λ g, normEmployee (g_employee g) ≠ "") grants →
  namesEmployees (granted sh now grants).
Proof.
  intros Hn Hg r Hr Hdate.
  change (employeeCol (granted sh now grants)) with (employeeCol sh).
  change (dateCol (granted sh now grants)) with (dateCol sh) in Hdate.
  change (body (granted sh now grants))
    with (body sh ++ stagedGrants sh now grants) in Hr.
  apply elem_of_app in Hr as [Hr|Hr]; [by apply Hn|].
  destruct (LedgerFacts.staged_chosen sh now grants) as (chosen & Est & Hsub & _).
  rewrite Est in Hr. apply list_elem_of_fmap in Hr as (g & -> & Hgin).
  rewrite Forall_forall in Hg.
  assert (normEmployee (g_employee g) ≠ "") as Hnb
    by (apply Hg; by eapply elem_of_sublist).
  destruct (employeeCol sh) as [e|] eqn:He.
  - unfold Helpers.cellAt. by rewrite (LedgerFacts.grantRow_employee _ _ _ _ He).
  - by vm_compute.
Qed.

Lemma revoked_named sh sh' revocations :
  namesEmployees sh →
  revokeLedger false (Some sh) revocations = Some sh' → namesEmployees sh'.
Proof.
  intros Hn Hrun.
  destruct (decide (employeeCol sh = None ∨ dateCol sh = None ∨
                    activationCol sh = None)) as [Hmiss|Hall].
  { rewrite (LedgerFacts.revokeLedger_no_columns sh revocations Hmiss) in Hrun.
    by simplify_eq. }
  destruct (employeeCol sh) as [e|] eqn:He; [|tauto].
  destruct (dateCol sh) as [d|] eqn:Hd; [|tauto].
  destruct (activationCol sh) as [a|] eqn:Ha; [|tauto].
  destruct (LedgerFacts.ledger_columns_distinct sh e d a He Hd Ha)
    as (_ & Hae & Had & Hne & Hnd & Hna).
  rewrite (LedgerFacts.revokeLedger_run sh revocations e d a He Hd Ha) in Hrun.
  injection Hrun as <-. intros r' Hr' Hdate.
  change (employeeCol {| header := header sh; body := _ |}) with (employeeCol sh).
  change (dateCol {| header := header sh; body := _ |}) with (dateCol sh) in Hdate.
  cbn [body] in Hr'. apply list_elem_of_fmap in Hr' as (r & -> & Hr).
  rewrite He. rewrite Hd in Hdate.
  rewrite ContextFacts.revokedRow_cell in Hdate |- * by congruence.
  specialize (Hn r Hr). rewrite He, Hd in Hn. by apply Hn.
Qed.

Lemma applyOps_named ops : ∀ sh sh',
  namesEmployees sh → Forall grantsNameEmployees ops →
  foldl applyOp (Some sh) ops = Some sh' → namesEmployees sh'.
Proof.
  induction ops as [|op ops IH]; intros sh sh' Hn Hops Hrun.
  - simpl in Hrun. by simplify_eq.
  - apply Forall_cons in Hops as [Hop Hops].
    change (foldl applyOp (Some sh) (op :: ops))
      with (foldl applyOp (applyOp (Some sh) op) ops) in Hrun.
    destruct op as [now grants|revocations].
    + change (applyOp (Some sh) (OpGrant now grants))
        with (Some (granted sh now grants)) in Hrun.
      eapply IH; [|done..]. by apply granted_named.
    + destruct (LedgerFacts.revokeLedger_keys sh revocations)
        as (sh1 & E & _).
      change (applyOp (Some sh) (OpRevoke revocations))
        with (revokeLedger false (Some sh) revocations) in Hrun.
      rewrite E in Hrun. eapply IH; [|done..]. by eapply revoked_named.
Qed.

(** X30. In a ledger whose dated rows name their employees, a run of grant
    and revoke operations whose grant intents name their employees keeps
    the keys unique: from at most one entry per key it ends with at most one
    entry, and so at most one active entry, per key. Every row is still
    there, in place and under its key, so no entry is deleted and no key
    gets a second entry; and the dated rows of the result still name their
    employees. *)
Theorem ledger_operations_keep_keys_unique (sh : Sheet) (ops : list LedgerOp) :
  namesEmployees sh → Forall grantsNameEmployees ops →
  (∀ key, entriesFor sh key ≤ 1) →
  ∃ sh',
    foldl applyOp (Some sh) ops = Some sh' ∧
    header sh' = header sh ∧
    namesEmployees sh' ∧
    (∀ key, entriesFor sh' key ≤ 1) ∧
    (∀ key, activeEntriesFor sh' key ≤ 1) ∧
    keysInPlace sh `prefix_of` keysInPlace sh' ∧
    (∀ key, entriesFor sh key ≤ entriesFor sh' key).
Proof.
  intros Hn Hops Hone.
  destruct (LedgerFacts.applyOps_run ops sh) as (sh' & E & Hh & Hk & Hr & Hnd).
  pose proof (applyOps_named ops sh sh' Hn Hops E) as Hn'.
  exists sh'.
  assert (∀ key, entriesFor sh' key ≤ 1) as Hone'.
  { intros key. rewrite (entriesFor_named sh' key Hn').
    revert key. apply LedgerFacts.NoDup_count, Hnd, LedgerFacts.NoDup_count.
    intros key. rewrite <-(entriesFor_named sh key Hn). apply Hone. }
  split_and!; [done..| | |].
  - intros key. pose proof (LedgerFacts.activeEntriesFor_le sh' key).
    specialize (Hone' key). lia.
  - by rewrite (keysInPlace_named sh Hn), (keysInPlace_named sh' Hn').
  - intros key. rewrite (entriesFor_named sh key Hn), (entriesFor_named sh' key Hn').
    by apply LedgerFacts.filter_prefix_length.
Qed.

End WithHost.
End LedgerMore.

(** ** More on winner selection *)

Module WinnerMore.
Import Resolver Spec.
Section WithHost.
Context `{!Host}.

(** X31. On a rule list whose rules of kind [ty] all have a non-negative
    priority, [findWinningRule] returns a candidate of
    maximum priority and, among those, of an id that [localeCompare] ranks
    greatest (and the empty placeholder when there is no candidate); when no
    two candidates tie - the same priority and ids that [localeCompare]
    reports equal - the result is the same for every permutation of the
    list. The precondition on the priorities matters because an accumulator
    of priority -1 is replaced by whatever candidate comes next. *)
Theorem findWinningRule_nonneg_max (rules : list Rule) (ty : string) :
  Forall (λ r, rule_type r = ty → 0 <= prio r) rules →
  let cands := filter (λ r, rule_type r = ty) rules in
  let w := findWinningRule rules ty in
  (cands = [] → w = emptyRule) ∧
  (cands ≠ [] → w ∈ cands ∧ Forall (outranks w) cands) ∧
  ((∀ a b, a ∈ cands → b ∈ cands → tied a b → a = b) →
   ∀ rules', rules' ≡ₚ rules → findWinningRule rules' ty = w) ∧
  (∀ prev curr, prio prev = -1 → pickWinner prev curr = curr).
Proof.
  intros Hall cands w. split_and!.
  - apply ResolverFacts.findWinningRule_nil.
  - by apply ResolverFacts.findWinningRule_outranks.
  - intros Hnd rules' Hperm.
    assert (filter (λ r, rule_type r = ty) rules' ≡ₚ cands) as Hc
      by (by apply filter_Permutation).
    destruct (decide (cands = [])) as [Hnil|Hne].
    + unfold w. rewrite (ResolverFacts.findWinningRule_nil rules ty Hnil).
      apply ResolverFacts.findWinningRule_nil. apply Permutation_nil_r. by rewrite <- Hnil.
    + assert (Forall (λ r, rule_type r = ty → 0 <= prio r) rules') as Hall'
        by (by rewrite Hperm).
      assert (filter (λ r, rule_type r = ty) rules' ≠ []) as Hne'.
      { intros E. rewrite E in Hc. by apply Permutation_nil_l in Hc. }
      destruct (ResolverFacts.findWinningRule_outranks rules ty Hall Hne) as [Hin Hmax].
      destruct (ResolverFacts.findWinningRule_outranks rules' ty Hall' Hne') as [Hin' Hmax'].
      rewrite Hc in Hin', Hmax'. rewrite Forall_forall in Hmax, Hmax'.
      apply Hnd; [done..|]. apply ResolverFacts.outranks_antisym; auto.
  - apply ResolverFacts.pickWinner_sentinel.
Qed.

End WithHost.
End WinnerMore.

(** ** Runs on the sample data *)

Module SampleRuns.
Import Resolver Ledger Spec Terms Workspace.
Local Open Scope nat_scope.

Lemma sample_roster_returns :
  ∃ out, @processRoster Samples.utcHost Samples2.utcCalendar Samples2.rosterData
           Samples2.rosterContext = Returned out.
Proof. eexists. by vm_compute. Qed.

Lemma processRoster_resolves_every_cell_witness :
  ∃ out,
    @processRoster Samples.utcHost Samples2.utcCalendar Samples2.rosterData
      Samples2.rosterContext = Returned out ∧
    length (dailyStatus out) + 0 = 2 * 2.
Proof.
  destruct sample_roster_returns as [out Hout].
  exists out. split; [exact Hout|].
  destruct (@WorkspaceFacts.processRoster_resolves_every_cell Samples.utcHost
              Samples2.utcCalendar Samples2.rosterData Samples2.rosterContext out Hout)
    as (e & b & w1 & w2 & Hcols & _ & _ & _ & Hlen & _).
  rewrite Hlen. vm_compute in Hcols. injection Hcols as <- <- <- <-.
  by vm_compute.
Defined.

Lemma processRoster_intents_match_rows_witness :
  ∃ out,
    @processRoster Samples.utcHost Samples2.utcCalendar Samples2.rosterData
      Samples2.rosterContext = Returned out ∧
    ∀ g, g ∈ grants out →
         ∃ r, r ∈ dailyStatus out ∧ Key r = @grantKey Samples.utcHost g.
Proof.
  destruct sample_roster_returns as [out Hout].
  exists out. split; [exact Hout|].
  destruct (@WorkspaceFacts.processRoster_intents_match_rows Samples.utcHost
              Samples2.utcCalendar Samples2.rosterData Samples2.rosterContext out Hout)
    as [Hg _].
  intros g Hin. destruct (Hg g Hin) as (r & Hr & Hk & _).
  exists r. split; [exact Hr|exact Hk].
Defined.

Lemma sample_roster_returns_without_logic :
  ∃ out, @processRoster Samples.utcHost Samples2.utcCalendar Samples2.rosterData
           Samples.emptyContext = Returned out.
Proof. eexists. by vm_compute. Qed.

Lemma processRoster_without_logic_witness :
  ∃ out,
    @processRoster Samples.utcHost Samples2.utcCalendar Samples2.rosterData
      Samples.emptyContext = Returned out ∧
    grants out = [] ∧ revocations out = [].
Proof.
  destruct sample_roster_returns_without_logic as [out Hout].
  exists out. split; [exact Hout|].
  destruct (@WorkspaceFacts.processRoster_without_logic Samples.utcHost
              Samples2.utcCalendar Samples2.rosterData Samples.emptyContext out
              eq_refl Hout) as (Hg & Hr & _).
  split; [exact Hg|exact Hr].
Defined.

Lemma sample_ledger_is_rectangular :
  Forall (λ r, length r = length (header Samples.ledgerSheet))
    (body Samples.ledgerSheet).
Proof. repeat constructor. Qed.

Lemma sample_ledger_names_employees :
  Forall (λ r, is_Some (@Helpers.parseSafeDate Samples.utcHost
                          (Helpers.cellAt r (Some 2))) →
               @normEmployee (@Helpers.toStr Samples.utcHost
                                (Helpers.cellAt r (Some 1))) ≠ "")
    (body Samples.ledgerSheet).
Proof. repeat constructor; intros _; by vm_compute. Qed.

Lemma sample_revocation_runs :
  ∃ sh', @revokeLedger Samples.utcHost false (Some Samples.ledgerSheet)
           [Samples.revoke1042] = Some sh'.
Proof. eexists. by vm_compute. Qed.

Lemma revoked_entries_are_not_loaded_witness :
  ∃ sh',
    @revokeLedger Samples.utcHost false (Some Samples.ledgerSheet)
      [Samples.revoke1042] = Some sh' ∧
    @loadLedger Samples.utcHost (Some sh') !! revocationKey Samples.revoke1042 = None.
Proof.
  destruct sample_revocation_runs as [sh' Hrun].
  exists sh'. split; [exact Hrun|].
  apply (@ContextFacts.revoked_entries_are_not_loaded Samples.utcHost
           Samples.ledgerSheet sh' [Samples.revoke1042] 1 2).
  - by vm_compute.
  - by vm_compute.
  - vm_compute. eauto.
  - exact sample_ledger_is_rectangular.
  - exact sample_ledger_names_employees.
  - exact Hrun.
  - by left.
Defined.

Lemma sample_grant_is_fresh :
  @grantKey Samples.utcHost Samples.grant3001 ∉
  @entryKeys Samples.utcHost Samples.ledgerSheet.
Proof. apply (bool_decide_unpack _). vm_compute. exact I. Qed.

Lemma granted_entry_loads_without_status_witness :
  ∃ st,
    @loadLedger Samples.utcHost
      (@grantEntitlements Samples.utcHost false (Some Samples.ledgerSheet)
         Samples.runTime [Samples.grant3001])
      !! @grantKey Samples.utcHost Samples.grant3001 = Some st ∧
    status st ∈ [""; "UNDEFINED"].
Proof.
  destruct (@ContextFacts.granted_entry_loads_without_status Samples.utcHost
              Samples.ledgerSheet Samples.runTime [Samples.grant3001]
              Samples.grant3001) as (st & Hst & Hstatus & _).
  - vm_compute. eauto.
  - vm_compute. eauto.
  - by left.
  - exact sample_grant_is_fresh.
  - exists st. split; [exact Hst|exact Hstatus].
Defined.

Lemma sample_rule_ids_distinct :
  ∀ a b,
    a ∈ @rulesFiledFor Samples.utcHost Samples.rulesSheet "emp-1042" →
    b ∈ @rulesFiledFor Samples.utcHost Samples.rulesSheet "emp-1042" →
    @localeCompare Samples.utcHost (rule_id a) (rule_id b) = 0%Z → a = b.
Proof.
  intros a b Ha Hb.
  assert (Forall (λ a, Forall (λ b,
            @localeCompare Samples.utcHost (rule_id a) (rule_id b) = 0%Z → a = b)
            (@rulesFiledFor Samples.utcHost Samples.rulesSheet "emp-1042"))
            (@rulesFiledFor Samples.utcHost Samples.rulesSheet "emp-1042")) as Hall.
  { apply (bool_decide_unpack _). vm_compute. exact I. }
  rewrite Forall_forall in Hall. specialize (Hall a Ha).
  rewrite Forall_forall in Hall. by apply Hall.
Qed.

Lemma parseRules_ignores_row_order_witness :
  @Rules.parseRules Samples.utcHost (Some Samples2.rulesSheetReversed) !! "emp-1042" =
  @Rules.parseRules Samples.utcHost (Some Samples.rulesSheet) !! "emp-1042".
Proof.
  apply (@RulesMore.parseRules_ignores_row_order Samples.utcHost).
  - reflexivity.
  - apply reverse_Permutation.
  - exact sample_rule_ids_distinct.
Defined.

Lemma sample_grant_runs :
  ∃ sh1, @grantEntitlements Samples.utcHost false (Some Samples.ledgerSheet)
           Samples.runTime [Samples.grant3001] = Some sh1.
Proof. by eexists. Qed.

Lemma grant_again_changes_nothing_witness :
  ∃ sh1,
    @grantEntitlements Samples.utcHost false (Some Samples.ledgerSheet)
      Samples.runTime [Samples.grant3001] = Some sh1 ∧
    @grantEntitlements Samples.utcHost false (Some sh1)
      (Samples.runTime + 1)%Z [Samples.grant3001] = Some sh1.
Proof.
  destruct sample_grant_runs as [sh1 Hrun].
  exists sh1. split; [exact Hrun|].
  destruct (@LedgerMore.grant_again_changes_nothing Samples.utcHost
           Samples.ledgerSheet sh1 Samples.runTime (Samples.runTime + 1)%Z
           [Samples.grant3001]) as [Hagain _].
  - vm_compute. eauto.
  - vm_compute. eauto.
  - constructor; [|constructor]. vm_compute. discriminate.
  - exact Hrun.
  - exact Hagain.
Defined.

Lemma sample_revocation_is_unknown :
  ∀ rv r, rv ∈ [Samples2.revoke9999] → r ∈ body Samples.ledgerSheet →
    @rowKey Samples.utcHost (@employeeCol Samples.utcHost Samples.ledgerSheet)
      (@dateCol Samples.utcHost Samples.ledgerSheet) r = Some (revocationKey rv) →
    @Helpers.toStr Samples.utcHost
      (Helpers.cellAt r (@activationCol Samples.utcHost Samples.ledgerSheet))
      = "Inactive".
Proof.
  intros rv r Hrv%list_elem_of_singleton Hr Hkey. subst rv. exfalso.
  repeat (apply elem_of_cons in Hr as [->|Hr]; [by vm_compute in Hkey|]).
  by apply elem_of_nil in Hr.
Qed.

Lemma revoke_without_match_changes_nothing_witness :
  @revokeLedger Samples.utcHost false (Some Samples.ledgerSheet)
    [Samples2.revoke9999] = Some Samples.ledgerSheet.
Proof.
  apply (@LedgerMore.revoke_without_match_changes_nothing Samples.utcHost).
  exact sample_revocation_is_unknown.
Defined.

Lemma sample_update_runs :
  ∃ sh1, @updateLedger Samples.utcHost false (Some Samples.ledgerSheet)
           Samples.runTime [Samples.grant3001] [Samples.revoke1042] = Some sh1.
Proof. eexists. by vm_compute. Qed.

Lemma ledger_update_is_idempotent_witness :
  ∃ sh1,
    @updateLedger Samples.utcHost false (Some Samples.ledgerSheet)
      Samples.runTime [Samples.grant3001] [Samples.revoke1042] = Some sh1 ∧
    @updateLedger Samples.utcHost false (Some sh1)
      (Samples.runTime + 1)%Z [Samples.grant3001] [Samples.revoke1042] = Some sh1.
Proof.
  destruct sample_update_runs as [sh1 Hrun].
  exists sh1. split; [exact Hrun|].
  apply (@LedgerMore.ledger_update_is_idempotent Samples.utcHost
           Samples.ledgerSheet sh1 Samples.runTime (Samples.runTime + 1)%Z
           [Samples.grant3001] [Samples.revoke1042]).
  - vm_compute. eauto.
  - vm_compute. eauto.
  - constructor; [|constructor]. vm_compute. discriminate.
  - exact Hrun.
Defined.

Lemma sample_database_passes :
  (@SchemaValidator.validateAllSchemas Samples.utcHost 0%Z 1%Z Samples2.centralDb
     "run-1" []).2 = Returned ().
Proof. by vm_compute. Qed.

Lemma validated_database_is_ready_witness :
  ∃ sh, Samples2.centralDb !! Tabs.ledger_name = Some sh ∧
        is_Some (@employeeCol Samples.utcHost sh) ∧
        is_Some (@noteCol Samples.utcHost sh).
Proof.
  destruct (@SchemaFacts.validated_database_is_ready Samples.utcHost 0%Z 1%Z
              Samples2.centralDb "run-1" [] sample_database_passes)
    as (_ & (sh & Hsh & He & _ & _ & Hn) & _).
  exists sh. split; [exact Hsh|]. split; [exact He|exact Hn].
Defined.

Lemma sample_header_is_upper_case :
  (∃ v, v ∈ header Samples2.holidaysUpper ∧
        @headerName Samples.utcHost v = "date") ∧
  CStr Tabs.holidays_date ∉ header Samples2.holidaysUpper.
Proof.
  split.
  - exists (CStr "DATE"). split; [by left|by vm_compute].
  - apply (bool_decide_unpack _). vm_compute. exact I.
Qed.

Lemma holidays_header_is_read_exactly_witness :
  @SchemaValidator.validateSheetHeaders Samples.utcHost 0%Z
    (Some Samples2.holidaysUpper) Tabs.holidays_h Tabs.holidays_name "run-1" []
    = ([], Returned ()) ∧
  @Lists.parseSimpleList Samples.utcHost (Some Samples2.holidaysUpper)
    Tabs.holidays_date = ∅.
Proof.
  apply (@SchemaFacts.holidays_header_is_read_exactly Samples.utcHost).
  - exact (proj1 sample_header_is_upper_case).
  - exact (proj2 sample_header_is_upper_case).
Defined.

Lemma sample_database_loads :
  @getActiveWorkspaces Samples.utcHost Samples2.centralDb
    = ["1AbCdEfGhIjKlMnOpQrStUvWxYz"] ∧
  leaves (@loadContext Samples.utcHost Samples2.centralDb)
    !! "emp-2087|2025-02-03" = Some "ANNUAL" ∧
  ledger (@loadContext Samples.utcHost Samples2.centralDb)
    !! "emp-1042|2025-01-26" = Some {| status := "COMP_DAY" |} ∧
  ledger (@loadContext Samples.utcHost Samples2.centralDb)
    !! "emp-1042|2025-03-31" = None ∧
  bool_decide ("2025-02-03" ∈ holidays (@loadContext Samples.utcHost Samples2.centralDb)) = true ∧
  matrixIndex (@loadContext Samples.utcHost Samples2.centralDb) !! "WORK|NONE|TRUE|NONE"
    = WorkspaceProcessor.buildMatrixIndex Samples.decisionMatrix !! "WORK|NONE|TRUE|NONE".
Proof. split_and!; vm_compute; reflexivity. Qed.

Lemma sample_ledger_names_its_employees :
  @namesEmployees Samples.utcHost Samples.ledgerSheet.
Proof.
  intros r Hr.
  assert (Forall (λ r,
            is_Some (@Helpers.parseSafeDate Samples.utcHost
                       (Helpers.cellAt r (@dateCol Samples.utcHost Samples.ledgerSheet))) →
            normEmployee (@Helpers.toStr Samples.utcHost
                            (Helpers.cellAt r (@employeeCol Samples.utcHost
                                                 Samples.ledgerSheet))) ≠ "")
            (body Samples.ledgerSheet)) as Hall.
  { repeat constructor; intros _; by vm_compute. }
  rewrite Forall_forall in Hall. by apply Hall.
Qed.

Lemma ledger_operations_keep_keys_unique_witness :
  @namesEmployees Samples.utcHost Samples.ledgerSheet ∧
  (∀ key, @entriesFor Samples.utcHost Samples.ledgerSheet key ≤ 1) ∧
  ∃ sh',
    foldl (@applyOp Samples.utcHost) (Some Samples.ledgerSheet)
      [OpGrant Samples.runTime [Samples.grant3001];
       OpRevoke [Samples.revoke1042];
       OpGrant (Samples.runTime + 1)%Z [Samples.grant3001]] = Some sh' ∧
    ∀ key, @entriesFor Samples.utcHost sh' key ≤ 1.
Proof.
  split; [exact sample_ledger_names_its_employees|].
  split; [exact LedgerFacts.sample_ledger_keys_unique|].
  assert (Forall grantsNameEmployees
            [OpGrant Samples.runTime [Samples.grant3001];
             OpRevoke [Samples.revoke1042];
             OpGrant (Samples.runTime + 1)%Z [Samples.grant3001]]) as Hops.
  { repeat constructor; by vm_compute. }
  destruct (@LedgerMore.ledger_operations_keep_keys_unique Samples.utcHost
              Samples.ledgerSheet _ sample_ledger_names_its_employees Hops
              LedgerFacts.sample_ledger_keys_unique)
    as (sh' & Hrun & _ & _ & Hone & _).
  exists sh'. split; [exact Hrun|exact Hone].
Defined.

Lemma findWinningRule_nonneg_max_witness :
  Forall (λ r, rule_type r = "DAY_PATTERN" → (0 <= prio r)%Z)
    [Samples.R_001; Samples.R_002; Samples.R_006] ∧
  @findWinningRule Samples.utcHost
    [Samples.R_001; Samples.R_002; Samples.R_006] "DAY_PATTERN"
    ∈ [Samples.R_001; Samples.R_006] ∧
  @findWinningRule Samples.utcHost
    [Samples.R_006; Samples.R_002; Samples.R_001] "DAY_PATTERN"
    = @findWinningRule Samples.utcHost
        [Samples.R_001; Samples.R_002; Samples.R_006] "DAY_PATTERN".
Proof.
  assert (Forall (λ r, rule_type r = "DAY_PATTERN" → (0 <= prio r)%Z)
            [Samples.R_001; Samples.R_002; Samples.R_006]) as Hall.
  { repeat constructor; simpl; intros; lia. }
  split; [exact Hall|].
  destruct (@WinnerMore.findWinningRule_nonneg_max Samples.utcHost _ "DAY_PATTERN" Hall)
    as (_ & Hmax & Hperm & _).
  split.
  - apply Hmax. vm_compute. discriminate.
  - apply Hperm.
    + intros a b Ha Hb [Hp Hid].
      change (a ∈ [Samples.R_001; Samples.R_006]) in Ha.
      change (b ∈ [Samples.R_001; Samples.R_006]) in Hb.
      rewrite !elem_of_cons, elem_of_nil in Ha, Hb.
      destruct Ha as [E1|[E1|[]]], Hb as [E2|[E2|[]]]; subst a b;
        first [reflexivity | vm_compute in Hp; discriminate].
    + symmetry. apply (Permutation_rev [Samples.R_001; Samples.R_002; Samples.R_006]).
Defined.

End SampleRuns.
